(** * Checkout and inventory reservation of the merchant backend

    A shallow embedding of the cart/checkout routes ([src/routes/checkout.ts]),
    the Stripe webhook route ([src/routes/webhooks.ts]), the test-order route
    ([src/routes/orders.ts]) and the scheduled sweep ([handleCron]), followed
    by the properties of the inventory ledger, the checkout saga, the webhook
    deduplication, the discount accounting and the expiry sweep.

    Conventions of the embedding
    - A table with a primary key is a [gmap] from the key to the row; a table
      that is only appended to and filtered is a [list] of rows, in insertion
      order.  The schema is not part of these sources; the keys are the ones
      the statements select by: the id of a store, cart or discount, and
      (store_id, sku) for variants and inventory.  The surrogate [id] column
      of the append-only tables
      ([cart_items], [order_items], [inventory_logs], [events],
      [discount_usage]) is a fresh uuid that no statement of these routes
      reads; it is left out of the rows.
    - Money and quantities are [Z].  Timestamps are [Z] as well (milliseconds
      since the epoch): the source compares ISO-8601 UTC strings, whose
      lexicographic order is the order of the instants.
    - A handler is a function from the database to the database and a result;
      an [ApiError] thrown half way keeps the writes made before it, as the
      source runs every statement in its own implicit transaction.
    - The clock is read once per request ([now]). *)

From Stdlib Require Import ZArith Lia Ascii.
From stdpp Require Import gmap strings list fin_maps pretty.

Local Open Scope string_scope.
Local Open Scope Z_scope.
Local Open Scope list_scope.

(** ** Data model *)

Inductive CartStatus := open | checked_out | expired.

Inductive DiscountType := percentage | fixed_amount.

Inductive DiscountStatus := active | inactive.

#[global] Instance CartStatus_eq_dec : EqDecision CartStatus.
Proof. solve_decision. Defined.

#[global] Instance DiscountStatus_eq_dec : EqDecision DiscountStatus.
Proof. solve_decision. Defined.

(** Row of [stores]; the key is the store id. *)
Record Store := {
  stripe_secret_key : option string;
  stripe_webhook_secret : option string;
}.

(** Row of [variants]; the key is (store_id, sku). *)
Record Variant := {
  v_title : string;
  price_cents : Z;
  v_active : bool;
}.

(** Row of [inventory]; the key is (store_id, sku). *)
Record Inventory := {
  on_hand : Z;
  reserved : Z;
  updated_at : Z;
}.

Record InventoryLog := {
  l_store_id : string;
  l_sku : string;
  delta : Z;
  reason : string;
}.

(** Row of [carts]; the key is the cart id. *)
Record Cart := {
  store_id : string;
  customer_email : string;
  status : CartStatus;
  expires_at : Z;
  discount_code : option string;
  discount_id : option string;
  discount_amount_cents : option Z;
  stripe_checkout_session_id : option string;
  currency : string;
}.

Record CartItem := {
  cart_id : string;
  sku : string;
  title : string;
  qty : Z;
  unit_price_cents : Z;
}.

(** Row of [discounts]; the key is the discount id. *)
Record Discount := {
  d_store_id : string;
  code : string;
  type : DiscountType;
  value : Z;
  d_status : DiscountStatus;
  min_purchase_cents : Z;
  max_discount_cents : option Z;
  starts_at : option Z;
  d_expires_at : option Z;
  usage_limit : option Z;
  usage_limit_per_customer : option Z;
  usage_count : Z;
  d_updated_at : Z;
}.

Record DiscountUsage := {
  u_discount_id : string;
  u_order_id : string;
  u_customer_email : string;
  u_discount_amount_cents : Z;
}.

Record Order := {
  o_id : string;
  o_store_id : string;
  number : string;
  o_status : string;
  o_customer_email : string;
  ship_to : option string;
  subtotal_cents : Z;
  tax_cents : Z;
  shipping_cents : Z;
  total_cents : Z;
  o_currency : option string;
  o_discount_code : option string;
  o_discount_id : option string;
  o_discount_amount_cents : Z;
  o_stripe_checkout_session_id : option string;
  stripe_payment_intent_id : option string;
  created_at : option Z;
}.

Record OrderItem := {
  oi_order_id : string;
  oi_sku : string;
  oi_title : string;
  oi_qty : Z;
  oi_unit_price_cents : Z;
}.

Record EventRow := {
  e_store_id : string;
  stripe_event_id : string;
  e_type : string;
  payload : string;
}.

(** A notification handed to [dispatchWebhooks] (the dispatcher itself lives
    in [src/lib/webhooks], outside these routes). *)
Record Dispatch := {
  dp_store_id : string;
  dp_event : string;
  dp_order_id : string;
}.

Record Db := {
  stores : gmap string Store;
  variants : gmap (string * string) Variant;
  inventory : gmap (string * string) Inventory;
  inventory_logs : list InventoryLog;
  carts : gmap string Cart;
  cart_items : list CartItem;
  discounts : gmap string Discount;
  discount_usage : list DiscountUsage;
  orders : list Order;
  order_items : list OrderItem;
  events : list EventRow;
  outbox : list Dispatch;
}.

(** Field updates of [Db], one per table the routes write. *)
Definition set_inventory (f : gmap (string * string) Inventory → gmap (string * string) Inventory)
    (db : Db) : Db :=
  {| stores := stores db; variants := variants db; inventory := f (inventory db);
     inventory_logs := inventory_logs db; carts := carts db; cart_items := cart_items db;
     discounts := discounts db; discount_usage := discount_usage db; orders := orders db;
     order_items := order_items db; events := events db; outbox := outbox db |}.

Definition set_inventory_logs (f : list InventoryLog → list InventoryLog) (db : Db) : Db :=
  {| stores := stores db; variants := variants db; inventory := inventory db;
     inventory_logs := f (inventory_logs db); carts := carts db; cart_items := cart_items db;
     discounts := discounts db; discount_usage := discount_usage db; orders := orders db;
     order_items := order_items db; events := events db; outbox := outbox db |}.

Definition set_carts (f : gmap string Cart → gmap string Cart) (db : Db) : Db :=
  {| stores := stores db; variants := variants db; inventory := inventory db;
     inventory_logs := inventory_logs db; carts := f (carts db); cart_items := cart_items db;
     discounts := discounts db; discount_usage := discount_usage db; orders := orders db;
     order_items := order_items db; events := events db; outbox := outbox db |}.

Definition set_cart_items (f : list CartItem → list CartItem) (db : Db) : Db :=
  {| stores := stores db; variants := variants db; inventory := inventory db;
     inventory_logs := inventory_logs db; carts := carts db; cart_items := f (cart_items db);
     discounts := discounts db; discount_usage := discount_usage db; orders := orders db;
     order_items := order_items db; events := events db; outbox := outbox db |}.

Definition set_discounts (f : gmap string Discount → gmap string Discount) (db : Db) : Db :=
  {| stores := stores db; variants := variants db; inventory := inventory db;
     inventory_logs := inventory_logs db; carts := carts db; cart_items := cart_items db;
     discounts := f (discounts db); discount_usage := discount_usage db; orders := orders db;
     order_items := order_items db; events := events db; outbox := outbox db |}.

Definition set_discount_usage (f : list DiscountUsage → list DiscountUsage) (db : Db) : Db :=
  {| stores := stores db; variants := variants db; inventory := inventory db;
     inventory_logs := inventory_logs db; carts := carts db; cart_items := cart_items db;
     discounts := discounts db; discount_usage := f (discount_usage db); orders := orders db;
     order_items := order_items db; events := events db; outbox := outbox db |}.

Definition set_orders (f : list Order → list Order) (db : Db) : Db :=
  {| stores := stores db; variants := variants db; inventory := inventory db;
     inventory_logs := inventory_logs db; carts := carts db; cart_items := cart_items db;
     discounts := discounts db; discount_usage := discount_usage db; orders := f (orders db);
     order_items := order_items db; events := events db; outbox := outbox db |}.

Definition set_order_items (f : list OrderItem → list OrderItem) (db : Db) : Db :=
  {| stores := stores db; variants := variants db; inventory := inventory db;
     inventory_logs := inventory_logs db; carts := carts db; cart_items := cart_items db;
     discounts := discounts db; discount_usage := discount_usage db; orders := orders db;
     order_items := f (order_items db); events := events db; outbox := outbox db |}.

Definition set_events (f : list EventRow → list EventRow) (db : Db) : Db :=
  {| stores := stores db; variants := variants db; inventory := inventory db;
     inventory_logs := inventory_logs db; carts := carts db; cart_items := cart_items db;
     discounts := discounts db; discount_usage := discount_usage db; orders := orders db;
     order_items := order_items db; events := f (events db); outbox := outbox db |}.

Definition set_outbox (f : list Dispatch → list Dispatch) (db : Db) : Db :=
  {| stores := stores db; variants := variants db; inventory := inventory db;
     inventory_logs := inventory_logs db; carts := carts db; cart_items := cart_items db;
     discounts := discounts db; discount_usage := discount_usage db; orders := orders db;
     order_items := order_items db; events := events db; outbox := f (outbox db) |}.

(** ** The query interface

    [UPDATE t SET ... WHERE <primary key> = ? AND <cond>] on a keyed table:
    the new table and the number of rows changed ([result.changes]). *)
Definition update_where {K V} `{Countable K}
    (k : K) (cond : V → bool) (set : V → V) (t : gmap K V) : gmap K V * nat :=
  match t !! k with
  | Some r => if cond r then (<[k := set r]> t, 1%nat) else (t, 0%nat)
  | None => (t, 0%nat)
  end.

(** JavaScript truthiness of a nullable string column. *)
Definition truthy (s : option string) : bool :=
  match s with
  | Some s' => negb (String.eqb s' "")
  | None => false
  end.

(** ** Errors ([ApiError] of [src/types])

    One constructor per factory the routes call.  [ineligible] is the error
    of a discount that fails [validateDiscount] (Ineligible in the error
    taxonomy of the spec); the routes only let it through. *)

Inductive ApiError :=
| invalidRequest (msg : string)
| notFound (msg : string)
| conflict (msg : string)
| insufficientInventory (failing_sku : string)
| ineligible (msg : string)
| webhook_signature_invalid (msg : string)
| stripeError (msg : string).

(** ** Inventory ledger: the four UPDATE statements on [inventory] *)

(** [UPDATE inventory SET reserved = reserved + ?, updated_at = ?
     WHERE store_id = ? AND sku = ? AND on_hand - reserved >= ?] (checkout.ts) *)
Definition reserve (now : Z) (store sku : string) (qty : Z)
    (inv : gmap (string * string) Inventory) : gmap (string * string) Inventory * nat :=
  update_where (store, sku)
    (λ r, qty <=? on_hand r - reserved r)
    (λ r, {| on_hand := on_hand r; reserved := reserved r + qty; updated_at := now |})
    inv.

(** [UPDATE inventory SET reserved = MAX(reserved - ?, 0), updated_at = ?
     WHERE store_id = ? AND sku = ?] (checkout.ts rollback, cron sweep) *)
Definition release (now : Z) (store sku : string) (qty : Z)
    (inv : gmap (string * string) Inventory) : gmap (string * string) Inventory * nat :=
  update_where (store, sku)
    (λ _, true)
    (λ r, {| on_hand := on_hand r; reserved := Z.max (reserved r - qty) 0; updated_at := now |})
    inv.

(** [UPDATE inventory SET reserved = reserved - ?, on_hand = on_hand - ?, updated_at = ?
     WHERE store_id = ? AND sku = ?] (webhooks.ts) *)
Definition sell (now : Z) (store sku : string) (qty : Z)
    (inv : gmap (string * string) Inventory) : gmap (string * string) Inventory * nat :=
  update_where (store, sku)
    (λ _, true)
    (λ r, {| on_hand := on_hand r - qty; reserved := reserved r - qty; updated_at := now |})
    inv.

(** [UPDATE inventory SET on_hand = on_hand - ?, updated_at = ?
     WHERE store_id = ? AND sku = ?] (orders.ts, test orders) *)
Definition deduct_on_hand (now : Z) (store sku : string) (qty : Z)
    (inv : gmap (string * string) Inventory) : gmap (string * string) Inventory * nat :=
  update_where (store, sku)
    (λ _, true)
    (λ r, {| on_hand := on_hand r - qty; reserved := reserved r; updated_at := now |})
    inv.

(** [available = (inv?.on_hand ?? 0) - (inv?.reserved ?? 0)] *)
Definition available (store sku : string) (inv : gmap (string * string) Inventory) : Z :=
  match inv !! (store, sku) with
  | Some r => on_hand r - reserved r
  | None => 0
  end.

(** ** Strings: [toLowerCase], [toUpperCase], [trim] on ASCII text

    A string is its sequence of bytes.  On a string of ASCII characters
    (every code below 128) the three functions below are
    [String.prototype.toLowerCase], [toUpperCase] and [trim]: the cased
    ASCII characters are the letters A-Z and a-z, and the white space and
    line terminators of JavaScript below 128 are the codes 9 to 13 and 32.
    On other strings the functions of JavaScript follow Unicode (cased code
    points outside ASCII, white space such as U+00A0 or U+FEFF) and these do
    not; a property that depends on the value of one of them is stated for
    ASCII text, [is_ascii_text]. *)

Fixpoint is_ascii_text (s : string) : bool :=
  match s with
  | EmptyString => true
  | String c r => (N_of_ascii c <? 128)%N && is_ascii_text r
  end.

Definition lower_ascii (c : ascii) : ascii :=
  let n := N_of_ascii c in
  if ((65 <=? n) && (n <=? 90))%N then ascii_of_N (n + 32) else c.

Definition upper_ascii (c : ascii) : ascii :=
  let n := N_of_ascii c in
  if ((97 <=? n) && (n <=? 122))%N then ascii_of_N (n - 32) else c.

Fixpoint map_string (f : ascii → ascii) (s : string) : string :=
  match s with
  | EmptyString => EmptyString
  | String c r => String (f c) (map_string f r)
  end.

Definition toLowerCase : string → string := map_string lower_ascii.
Definition toUpperCase : string → string := map_string upper_ascii.

Definition is_space (c : ascii) : bool :=
  let n := N_of_ascii c in ((n =? 32) || ((9 <=? n) && (n <=? 13)))%N.

Fixpoint trim_start (s : string) : string :=
  match s with
  | String c r => if is_space c then trim_start r else s
  | EmptyString => EmptyString
  end.

Definition trim (s : string) : string :=
  String.rev (trim_start (String.rev (trim_start s))).

(** ** Discount engine ([src/routes/discounts.ts]) *)

(** Modelled from the spec: [calculateDiscount] of [src/routes/discounts.ts],
    which is not among the sources (only its tests are).  Percentage:
    [floor(subtotal * value / 100)], then capped by [max_discount_cents] if
    set; fixed amount: [min(value, subtotal)]. *)
Definition calculateDiscount (d : Discount) (subtotalCents : Z) : Z :=
  match type d with
  | percentage =>
      let amount := (subtotalCents * value d) `div` 100 in
      match max_discount_cents d with
      | Some cap => Z.min amount cap
      | None => amount
      end
  | fixed_amount => Z.min (value d) subtotalCents
  end.

(** Number of [discount_usage] rows of one discount and one customer,
    by lower-cased email. *)
Definition customer_usage (discountId email : string) (usage : list DiscountUsage) : Z :=
  Z.of_nat (length (filter
    (λ u, u_discount_id u = discountId ∧ u_customer_email u = toLowerCase email) usage)).

Definition within (lo hi : option Z) (t : Z) : bool :=
  match lo with Some s => s <=? t | None => true end &&
  match hi with Some e => t <=? e | None => true end.

Definition below (limit : option Z) (n : Z) : bool :=
  match limit with Some l => n <? l | None => true end.

(** Modelled from the spec: [validateDiscount] of [src/routes/discounts.ts],
    which is not among the sources.  It checks status = active, the current
    time within [starts_at, expires_at] when set, the minimum purchase, the
    global usage limit and the per-customer usage limit; [true] is "ok",
    [false] stands for the thrown ineligibility error. *)
Definition validateDiscount (now : Z) (db : Db) (discountId : string) (d : Discount)
    (subtotalCents : Z) (email : string) : bool :=
  bool_decide (d_status d = active)
  && within (starts_at d) (d_expires_at d) now
  && (min_purchase_cents d <=? subtotalCents)
  && below (usage_limit d) (usage_count d)
  && below (usage_limit_per_customer d) (customer_usage discountId email (discount_usage db)).

(** ** The payment processor, as far as the routes call it *)

Record LineItem := {
  li_name : string;
  unit_amount : Z;
  quantity : Z;
}.

Record SessionParams := {
  sp_customer_email : string;
  sp_shipping_countries : option (list string);
  sp_shipping_options : option string;
  line_items : list LineItem;
  sp_coupon : option string;
  sp_success_url : string;
  sp_cancel_url : string;
  md_cart_id : string;
  md_store_id : string;
  md_discount : option (string * string * DiscountType);
}.

Record CheckoutSession := {
  session_id : string;
  session_url : string;
}.

(** The object of a verified [Stripe.Event]. *)
Record SessionObject := {
  so_id : string;
  so_cart_id : option string;
  so_discount_id : option string;
  amount_total : option Z;
  amount_subtotal : option Z;
  amount_tax : option Z;
  amount_shipping : option Z;
  shipping_address : option string;
  payment_intent : option string;
}.

Record StripeEvent := {
  ev_id : string;
  ev_type : string;
  ev_object : SessionObject;
  ev_payload : string;
}.

(** The calls into the processor; [None] (or [inl msg]) is a thrown error. *)
Record Stripe := {
  coupons_create : Z → string → option string;
  sessions_create : SessionParams → option CheckoutSession;
  constructEventAsync : string → string → string → string + StripeEvent;
}.

(** ** Cart rows: the UPDATE statements on [carts] *)

Definition clear_discount (c : Cart) : Cart :=
  {| store_id := store_id c; customer_email := customer_email c; status := status c;
     expires_at := expires_at c; discount_code := None; discount_id := None;
     discount_amount_cents := Some 0;
     stripe_checkout_session_id := stripe_checkout_session_id c; currency := currency c |}.

Definition with_discount_amount (a : Z) (c : Cart) : Cart :=
  {| store_id := store_id c; customer_email := customer_email c; status := status c;
     expires_at := expires_at c; discount_code := discount_code c;
     discount_id := discount_id c; discount_amount_cents := Some a;
     stripe_checkout_session_id := stripe_checkout_session_id c; currency := currency c |}.

Definition with_discount (dcode did : string) (a : Z) (c : Cart) : Cart :=
  {| store_id := store_id c; customer_email := customer_email c; status := status c;
     expires_at := expires_at c; discount_code := Some dcode;
     discount_id := Some did; discount_amount_cents := Some a;
     stripe_checkout_session_id := stripe_checkout_session_id c; currency := currency c |}.

Definition with_checked_out (sid : string) (a : Z) (c : Cart) : Cart :=
  {| store_id := store_id c; customer_email := customer_email c; status := checked_out;
     expires_at := expires_at c; discount_code := discount_code c;
     discount_id := discount_id c; discount_amount_cents := Some a;
     stripe_checkout_session_id := Some sid; currency := currency c |}.

Definition with_expired (c : Cart) : Cart :=
  {| store_id := store_id c; customer_email := customer_email c; status := expired;
     expires_at := expires_at c; discount_code := discount_code c;
     discount_id := discount_id c; discount_amount_cents := discount_amount_cents c;
     stripe_checkout_session_id := stripe_checkout_session_id c; currency := currency c |}.

(** [SELECT * FROM carts WHERE id = ? AND store_id = ?] *)
Definition select_cart (cartId storeId : string) (db : Db) : option Cart :=
  match carts db !! cartId with
  | Some c => if decide (store_id c = storeId) then Some c else None
  | None => None
  end.

(** [SELECT * FROM cart_items WHERE cart_id = ?] *)
Definition select_cart_items (cartId : string) (db : Db) : list CartItem :=
  filter (λ it, cart_id it = cartId) (cart_items db).

(** [SELECT * FROM discounts WHERE id = ? AND store_id = ?] *)
Definition select_discount (discountId storeId : string) (db : Db) : option Discount :=
  match discounts db !! discountId with
  | Some d => if decide (d_store_id d = storeId) then Some d else None
  | None => None
  end.

(** [SELECT * FROM discounts WHERE code = ? AND store_id = ?], first row. *)
Definition select_discount_by_code (c storeId : string) (db : Db) : option (string * Discount) :=
  head (map_to_list
    (filter (λ kd : string * Discount, code kd.2 = c ∧ d_store_id kd.2 = storeId)
       (discounts db))).

(** [items.reduce((sum, item) => sum + item.unit_price_cents * item.qty, 0)] *)
Definition subtotal (items : list CartItem) : Z :=
  foldl (λ sum item, sum + unit_price_cents item * qty item) 0 items.

(** ** Cart routes ([src/routes/checkout.ts]) *)

Record ItemView := {
  iv_sku : string;
  iv_title : string;
  iv_qty : Z;
  iv_unit_price_cents : Z;
}.

Record DiscountInfo := {
  di_code : string;
  di_type : DiscountType;
  di_amount_cents : Z;
}.

Record Totals := {
  t_subtotal_cents : Z;
  t_discount_cents : Z;
  t_shipping_cents : Z;
  t_tax_cents : Z;
  t_total_cents : Z;
}.

Record CartResp := {
  r_id : string;
  r_status : CartStatus;
  r_currency : string;
  r_customer_email : string;
  r_items : list ItemView;
  r_discount : option DiscountInfo;
  r_totals : Totals;
  r_expires_at : Z;
}.

Record DiscountResp := {
  dr_discount : option DiscountInfo;
  dr_totals : Totals;
}.

Record CheckoutResp := {
  checkout_url : string;
  cr_stripe_checkout_session_id : string;
}.

Definition totals (subtotalCents discountCents : Z) : Totals :=
  {| t_subtotal_cents := subtotalCents; t_discount_cents := discountCents;
     t_shipping_cents := 0; t_tax_cents := 0;
     t_total_cents := subtotalCents - discountCents |}.

Definition view_of (it : CartItem) : ItemView :=
  {| iv_sku := sku it; iv_title := title it; iv_qty := qty it;
     iv_unit_price_cents := unit_price_cents it |}.

Definition item_of (cartId : string) (v : ItemView) : CartItem :=
  {| cart_id := cartId; sku := iv_sku v; title := iv_title v; qty := iv_qty v;
     unit_price_cents := iv_unit_price_cents v |}.

Fixpoint includes (c : ascii) (s : string) : bool :=
  match s with
  | EmptyString => false
  | String c' r => bool_decide (c' = c) || includes c r
  end.

Definition THIRTY_MINUTES : Z := 30 * 60 * 1000.

(** [POST /v1/carts].  [id] is the uuid drawn for the cart; the columns the
    INSERT leaves out take their defaults (status open, currency USD, no
    discount, no session). *)
Definition create_cart (now : Z) (storeId id : string) (customerEmail : option string)
    (db : Db) : Db * (ApiError + CartResp) :=
  match customerEmail with
  | Some email =>
      if negb (String.eqb email "") && includes "@"%char email then
        let expiresAt := now + THIRTY_MINUTES in
        let row := {| store_id := storeId; customer_email := email; status := open;
                      expires_at := expiresAt; discount_code := None; discount_id := None;
                      discount_amount_cents := None; stripe_checkout_session_id := None;
                      currency := "USD" |} in
        (set_carts (insert id row) db,
         inr {| r_id := id; r_status := open; r_currency := "USD"; r_customer_email := email;
                r_items := []; r_discount := None; r_totals := totals 0 0;
                r_expires_at := expiresAt |})
      else (db, inl (invalidRequest "customer_email is required"))
  | None => (db, inl (invalidRequest "customer_email is required"))
  end.

Record ReqItem := {
  req_sku : string;
  req_qty : Z;
}.

(** The validation loop of [POST /v1/carts/:cartId/items]: the first failing
    item decides the error; nothing is written. *)
Fixpoint validate_items (storeId : string) (db : Db) (items : list ReqItem)
    : ApiError + list ItemView :=
  match items with
  | [] => inr []
  | it :: rest =>
      if String.eqb (req_sku it) "" || (req_qty it <? 1)
      then inl (invalidRequest "Each item needs sku and qty > 0")
      else
        match variants db !! (storeId, req_sku it) with
        | None => inl (notFound ("SKU not found: " +:+ req_sku it))
        | Some variant =>
            if negb (v_active variant)
            then inl (invalidRequest ("SKU not active: " +:+ req_sku it))
            else if available storeId (req_sku it) (inventory db) <? req_qty it
            then inl (insufficientInventory (req_sku it))
            else
              match validate_items storeId db rest with
              | inl e => inl e
              | inr validated =>
                  inr ({| iv_sku := req_sku it; iv_title := v_title variant;
                          iv_qty := req_qty it;
                          iv_unit_price_cents := price_cents variant |} :: validated)
              end
        end
  end.

(** The discount recalculation of the items route: an attached discount is
    re-validated; one that no longer validates (or no longer exists) is
    detached, without an error. *)
Definition recalc_discount (now : Z) (storeId cartId : string) (cart : Cart)
    (subtotalCents : Z) (db : Db) : Db * option DiscountInfo * Z :=
  match discount_id cart with
  | Some did =>
      if truthy (Some did) then
        match select_discount did storeId db with
        | Some discount =>
            if validateDiscount now db did discount subtotalCents (customer_email cart) then
              let discountAmountCents := calculateDiscount discount subtotalCents in
              (set_carts (alter (with_discount_amount discountAmountCents) cartId) db,
               Some {| di_code := code discount; di_type := type discount;
                       di_amount_cents := discountAmountCents |},
               discountAmountCents)
            else (set_carts (alter clear_discount cartId) db, None, 0)
        | None => (set_carts (alter clear_discount cartId) db, None, 0)
        end
      else (db, None, 0)
  | None => (db, None, 0)
  end.

(** [POST /v1/carts/:cartId/items] *)
Definition replace_items (now : Z) (storeId cartId : string) (items : option (list ReqItem))
    (db : Db) : Db * (ApiError + CartResp) :=
  match items with
  | None | Some [] => (db, inl (invalidRequest "items array is required"))
  | Some items =>
      match select_cart cartId storeId db with
      | None => (db, inl (notFound "Cart not found"))
      | Some cart =>
          if negb (bool_decide (status cart = open))
          then (db, inl (conflict "Cart is not open"))
          else
            match validate_items storeId db items with
            | inl e => (db, inl e)
            | inr validatedItems =>
                let db1 := set_cart_items (filter (λ it, cart_id it ≠ cartId)) db in
                let db2 :=
                  set_cart_items (λ t, t ++ (item_of cartId <$> validatedItems)) db1 in
                let allCartItems := select_cart_items cartId db2 in
                let subtotalCents := subtotal allCartItems in
                let '(db3, discountInfo, discountAmountCents) :=
                  recalc_discount now storeId cartId cart subtotalCents db2 in
                (db3,
                 inr {| r_id := cartId; r_status := status cart; r_currency := currency cart;
                        r_customer_email := customer_email cart;
                        r_items := view_of <$> allCartItems;
                        r_discount := discountInfo;
                        r_totals := totals subtotalCents discountAmountCents;
                        r_expires_at := expires_at cart |})
            end
      end
  end.

Record CheckoutBody := {
  success_url : option string;
  cancel_url : option string;
  collect_shipping : bool;
  shipping_countries : option (list string);
  shipping_options : option string;
}.

(** [releaseReservedInventory]: one floored decrement per tracked item, in the
    order the items were reserved; no log entry is written. *)
Definition releaseReservedInventory (now : Z) (storeId : string)
    (reservedItems : list (string * Z))
    (inv : gmap (string * string) Inventory) : gmap (string * string) Inventory :=
  foldl (λ inv item, (release now storeId item.1 item.2 inv).1) inv reservedItems.

(** The reservation loop of checkout.  [reservedItems] tracks the items
    reserved so far; on the first statement that changes no row they are
    released and the loop ends with the failing sku.  (The [catch] around the
    loop is for a statement that throws, which no statement of the model
    does.) *)
Fixpoint reserve_items (now : Z) (storeId : string) (items : list CartItem)
    (reservedItems : list (string * Z)) (inv : gmap (string * string) Inventory)
    : gmap (string * string) Inventory * (string + list (string * Z)) :=
  match items with
  | [] => (inv, inr reservedItems)
  | item :: rest =>
      let '(inv', changes) := reserve now storeId (sku item) (qty item) inv in
      if Nat.eqb changes 0
      then (releaseReservedInventory now storeId reservedItems inv', inl (sku item))
      else reserve_items now storeId rest (reservedItems ++ [(sku item, qty item)])%list inv'
  end.

(** The discount re-validation of checkout: a discount that no longer
    validates is detached and checkout goes on without it. *)
Definition checkout_discount (now : Z) (storeId cartId : string) (cart : Cart)
    (subtotalCents : Z) (db : Db) : Db * Z * option (string * Discount) :=
  match discount_id cart with
  | Some did =>
      if truthy (Some did) then
        match select_discount did storeId db with
        | Some discountRow =>
            if validateDiscount now db did discountRow subtotalCents (customer_email cart)
            then (db, calculateDiscount discountRow subtotalCents, Some (did, discountRow))
            else (set_carts (alter clear_discount cartId) db, 0, None)
        | None => (set_carts (alter clear_discount cartId) db, 0, None)
        end
      else (db, 0, None)
  | None => (db, 0, None)
  end.

Definition line_item_of (item : CartItem) : LineItem :=
  {| li_name := title item; unit_amount := unit_price_cents item; quantity := qty item |}.

Definition or_default (s d : string) : string := if String.eqb s "" then d else s.

(** [POST /v1/carts/:cartId/checkout] *)
Definition checkout (stripe : Stripe) (now : Z) (storeId : string) (store : Store)
    (cartId : string) (body : CheckoutBody) (db : Db) : Db * (ApiError + CheckoutResp) :=
  match success_url body, cancel_url body with
  | Some successUrl, Some cancelUrl =>
    if String.eqb successUrl "" then (db, inl (invalidRequest "success_url is required"))
    else if String.eqb cancelUrl "" then (db, inl (invalidRequest "cancel_url is required"))
    else if negb (truthy (stripe_secret_key store))
    then (db, inl (invalidRequest "Stripe not connected. POST /v1/setup/stripe first."))
    else
      match select_cart cartId storeId db with
      | None => (db, inl (notFound "Cart not found"))
      | Some cart =>
        if negb (bool_decide (status cart = open))
        then (db, inl (conflict "Cart is not open"))
        else
          let items := select_cart_items cartId db in
          if Nat.eqb (length items) 0 then (db, inl (invalidRequest "Cart is empty"))
          else
            let subtotalCents := subtotal items in
            let '(db1, discountAmountCents, discount) :=
              checkout_discount now storeId cartId cart subtotalCents db in
            match reserve_items now storeId items [] (inventory db1) with
            | (inv2, inl failing) =>
                (set_inventory (λ _, inv2) db1, inl (insufficientInventory failing))
            | (inv2, inr reservedItems) =>
                let db2 := set_inventory (λ _, inv2) db1 in
                let rollback :=
                  set_inventory (releaseReservedInventory now storeId reservedItems) db2 in
                let coupon : option (option string) :=
                  match discount with
                  | Some (_, d) =>
                      if 0 <? discountAmountCents then
                        match coupons_create stripe discountAmountCents
                                (or_default (code d) "Discount") with
                        | Some couponId => Some (Some couponId)
                        | None => None
                        end
                      else Some None
                  | None => Some None
                  end in
                match coupon with
                | None =>
                    (rollback, inl (invalidRequest "Failed to apply discount. Please try again."))
                | Some stripeCouponId =>
                    let params :=
                      {| sp_customer_email := customer_email cart;
                         sp_shipping_countries :=
                           if collect_shipping body
                           then Some (default ["US"] (shipping_countries body)) else None;
                         sp_shipping_options :=
                           if collect_shipping body then shipping_options body else None;
                         line_items := line_item_of <$> items;
                         sp_coupon := if truthy stripeCouponId then stripeCouponId else None;
                         sp_success_url := successUrl;
                         sp_cancel_url := cancelUrl;
                         md_cart_id := cartId;
                         md_store_id := storeId;
                         md_discount :=
                           match discount with
                           | Some (did, d) => Some (did, code d, type d)
                           | None => None
                           end |} in
                    match sessions_create stripe params with
                    | None =>
                        (rollback,
                         inl (invalidRequest "Payment processing error. Please try again."))
                    | Some session =>
                        (set_carts
                           (alter (with_checked_out (session_id session) discountAmountCents)
                              cartId) db2,
                         inr {| checkout_url := session_url session;
                                cr_stripe_checkout_session_id := session_id session |})
                    end
                end
            end
      end
  | None, _ => (db, inl (invalidRequest "success_url is required"))
  | Some successUrl, None =>
    if String.eqb successUrl "" then (db, inl (invalidRequest "success_url is required"))
    else (db, inl (invalidRequest "cancel_url is required"))
  end.

(** [POST /v1/carts/:cartId/apply-discount] *)
Definition apply_discount (now : Z) (storeId cartId : string) (code_in : option string)
    (db : Db) : Db * (ApiError + DiscountResp) :=
  if negb (truthy code_in) then (db, inl (invalidRequest "code is required"))
  else
    match select_cart cartId storeId db with
    | None => (db, inl (notFound "Cart not found"))
    | Some cart =>
      if negb (bool_decide (status cart = open))
      then (db, inl (conflict "Cart is not open"))
      else
        let normalizedCode := trim (toUpperCase (default "" code_in)) in
        match select_discount_by_code normalizedCode storeId db with
        | None => (db, inl (notFound "Discount code not found"))
        | Some (did, discount) =>
            let items := select_cart_items cartId db in
            if Nat.eqb (length items) 0 then (db, inl (invalidRequest "Cart is empty"))
            else
              let subtotalCents := subtotal items in
              if negb (validateDiscount now db did discount subtotalCents (customer_email cart))
              then (db, inl (ineligible "Discount is not valid for this cart"))
              else
                let discountAmountCents := calculateDiscount discount subtotalCents in
                (set_carts
                   (alter (with_discount (code discount) did discountAmountCents) cartId) db,
                 inr {| dr_discount :=
                          Some {| di_code := code discount; di_type := type discount;
                                  di_amount_cents := discountAmountCents |};
                        dr_totals := totals subtotalCents discountAmountCents |})
        end
    end.

(** [DELETE /v1/carts/:cartId/discount] *)
Definition remove_discount (storeId cartId : string) (db : Db)
    : Db * (ApiError + DiscountResp) :=
  match select_cart cartId storeId db with
  | None => (db, inl (notFound "Cart not found"))
  | Some cart =>
    if negb (bool_decide (status cart = open))
    then (db, inl (conflict "Cart is not open"))
    else
      let db1 := set_carts (alter clear_discount cartId) db in
      let subtotalCents := subtotal (select_cart_items cartId db1) in
      (db1, inr {| dr_discount := None; dr_totals := totals subtotalCents 0 |})
  end.

(** ** Order numbers: [`ORD-${String(n).padStart(4, '0')}`] *)

Fixpoint repeat_char (n : nat) (c : ascii) : string :=
  match n with
  | O => EmptyString
  | S n' => String c (repeat_char n' c)
  end.

Definition padStart (n : nat) (c : ascii) (s : string) : string :=
  repeat_char (n - String.length s) c +:+ s.

(** [SELECT COUNT( * ) FROM orders WHERE store_id = ?] *)
Definition count_orders (storeId : string) (db : Db) : nat :=
  length (filter (λ o, o_store_id o = storeId) (orders db)).

Definition next_order_number (storeId : string) (db : Db) : string :=
  "ORD-" +:+ padStart 4 "0"%char (pretty (count_orders storeId db + 1)%nat).

(** ** Webhook route ([src/routes/webhooks.ts]) *)

(** What the route reads of the unverified JSON body:
    [rawEvent.data?.object?.metadata?.store_id]. *)
Record RawEvent := {
  raw_store_id : option string;
}.

Record WebhookRequest := {
  signature : option string;
  body : string;
}.

(** [UPDATE discounts SET usage_count = usage_count + 1, updated_at = ?
     WHERE id = ? AND (usage_limit IS NULL OR usage_count < usage_limit)] *)
Definition count_usage (now : Z) (discountId : string)
    (t : gmap string Discount) : gmap string Discount * nat :=
  update_where discountId
    (λ d, below (usage_limit d) (usage_count d))
    (λ d, {| d_store_id := d_store_id d; code := code d; type := type d; value := value d;
             d_status := d_status d; min_purchase_cents := min_purchase_cents d;
             max_discount_cents := max_discount_cents d; starts_at := starts_at d;
             d_expires_at := d_expires_at d; usage_limit := usage_limit d;
             usage_limit_per_customer := usage_limit_per_customer d;
             usage_count := usage_count d + 1; d_updated_at := now |})
    t.

(** The discount block of the webhook: the code, id and amount the order will
    record, whether the usage is tracked, and the database after the
    conditional increment. *)
Definition webhook_discount (now : Z) (storeId : string) (session : SessionObject)
    (cart : Cart) (db : Db) : Db * option string * option string * Z * bool :=
  match so_discount_id session with
  | Some did =>
      if truthy (Some did) then
        match select_discount did storeId db with
        | Some discount =>
            let discountAmountCents := default 0 (discount_amount_cents cart) in
            let isValid :=
              bool_decide (d_status discount = active)
              && match starts_at discount with Some s => s <=? now | None => true end
              && match d_expires_at discount with Some e => now <=? e | None => true end in
            let shouldTrackUsage := isValid && (0 <? discountAmountCents) in
            let db1 :=
              if shouldTrackUsage
              then set_discounts (λ t, (count_usage now did t).1) db
              else db in
            (db1, Some (code discount), Some did, discountAmountCents, shouldTrackUsage)
        | None => (db, None, None, 0, false)
        end
      else (db, None, None, 0, false)
  | None => (db, None, None, 0, false)
  end.

(** One round of the "order items and inventory" loop: the order item, the
    unconditional sale update, the log entry. *)
Definition sell_item (now : Z) (storeId orderId : string) (db : Db) (item : CartItem) : Db :=
  let db1 := set_order_items (λ t, t ++ [{| oi_order_id := orderId; oi_sku := sku item;
                 oi_title := title item; oi_qty := qty item;
                 oi_unit_price_cents := unit_price_cents item |}])%list db in
  let db2 := set_inventory (λ inv, (sell now storeId (sku item) (qty item) inv).1) db1 in
  set_inventory_logs (λ t, t ++ [{| l_store_id := storeId; l_sku := sku item;
                 delta := - qty item; reason := "sale" |}])%list db2.

(** Order materialization for a [checkout.session.completed] event.
    [orderId] is the uuid drawn for the order. *)
Definition materialize_order (now : Z) (orderId storeId : string) (session : SessionObject)
    (db : Db) : Db :=
  match so_cart_id session with
  | Some cartId =>
      if truthy (Some cartId) then
        match carts db !! cartId with
        | Some cart =>
            let items := select_cart_items cartId db in
            let shippingCents := default 0 (amount_shipping session) in
            let '(db1, discountCode, discountId, discountAmountCents, shouldTrackUsage) :=
              webhook_discount now storeId session cart db in
            let subtotalCents := subtotal items in
            let orderNumber := next_order_number storeId db1 in
            let db2 := set_orders (λ t, t ++ [{|
                  o_id := orderId; o_store_id := storeId; number := orderNumber;
                  o_status := "paid"; o_customer_email := customer_email cart;
                  ship_to := shipping_address session;
                  subtotal_cents := subtotalCents;
                  tax_cents := default 0 (amount_tax session);
                  shipping_cents := shippingCents;
                  total_cents := default 0 (amount_total session);
                  o_currency := Some (currency cart);
                  o_discount_code := discountCode; o_discount_id := discountId;
                  o_discount_amount_cents := discountAmountCents;
                  o_stripe_checkout_session_id := Some (so_id session);
                  stripe_payment_intent_id := payment_intent session;
                  created_at := None |}])%list db1 in
            let db3 :=
              if shouldTrackUsage && truthy discountId then
                set_discount_usage (λ t, t ++ [{|
                  u_discount_id := default "" discountId; u_order_id := orderId;
                  u_customer_email := toLowerCase (customer_email cart);
                  u_discount_amount_cents := discountAmountCents |}])%list db2
              else db2 in
            let db4 := foldl (sell_item now storeId orderId) db3 items in
            set_outbox (λ t, t ++ [{| dp_store_id := storeId; dp_event := "order.created";
                                      dp_order_id := orderId |}])%list db4
        | None => db
        end
      else db
  | None => db
  end.

(** [SELECT id FROM events WHERE stripe_event_id = ?]: is there a row? *)
Definition event_seen (eventId : string) (db : Db) : bool :=
  bool_decide (Exists (λ e, stripe_event_id e = eventId) (events db)).

(** [POST /v1/webhooks/stripe]; the response of a success is [{ ok: true }]. *)
Definition stripe_webhook (stripe : Stripe) (JSON_parse : string → option RawEvent)
    (now : Z) (orderId : string) (req : WebhookRequest) (db : Db) : Db * (ApiError + unit) :=
  match signature req with
  | None => (db, inl (invalidRequest "Missing stripe-signature header"))
  | Some sig =>
    if String.eqb sig "" then (db, inl (invalidRequest "Missing stripe-signature header"))
    else
      match JSON_parse (body req) with
      | None => (db, inl (invalidRequest "Invalid JSON"))
      | Some rawEvent =>
        match raw_store_id rawEvent with
        | None => (db, inl (invalidRequest "Missing store_id in metadata"))
        | Some storeId =>
          if String.eqb storeId "" then (db, inl (invalidRequest "Missing store_id in metadata"))
          else
            match stores db !! storeId ≫= stripe_webhook_secret with
            | None => (db, inl (invalidRequest "Store not found or webhook secret missing"))
            | Some secret =>
              if String.eqb secret ""
              then (db, inl (invalidRequest "Store not found or webhook secret missing"))
              else
                match constructEventAsync stripe (body req) sig secret with
                | inl msg => (db, inl (webhook_signature_invalid msg))
                | inr event =>
                    if event_seen (ev_id event) db then (db, inr tt)
                    else
                      let db1 :=
                        if String.eqb (ev_type event) "checkout.session.completed"
                        then materialize_order now orderId storeId (ev_object event) db
                        else db in
                      (set_events (λ t, t ++ [{| e_store_id := storeId;
                                     stripe_event_id := ev_id event; e_type := ev_type event;
                                     payload := ev_payload event |}])%list db1,
                       inr tt)
                end
            end
        end
      end
  end.

(** ** Scheduled sweep ([handleCron]) *)

(** [SELECT * FROM carts WHERE status = 'open' AND expires_at < ?] *)
Definition expired_carts (currentTime : Z) (db : Db) : list (string * Cart) :=
  map_to_list
    (filter (λ kc : string * Cart, status kc.2 = open ∧ expires_at kc.2 < currentTime)
       (carts db)).

(** One round of the release loop of the sweep: the floored decrement and
    the log entry. *)
Definition release_item (currentTime : Z) (storeId : string) (db : Db) (item : CartItem) : Db :=
  let db1 :=
    set_inventory (λ inv, (release currentTime storeId (sku item) (qty item) inv).1) db in
  set_inventory_logs (λ t, t ++ [{| l_store_id := storeId; l_sku := sku item;
                 delta := - qty item; reason := "release" |}])%list db1.

Definition sweep_cart (currentTime : Z) (db : Db) (cart : string * Cart) : Db :=
  let items := select_cart_items cart.1 db in
  let db1 := foldl (release_item currentTime (store_id cart.2)) db items in
  set_carts (alter with_expired cart.1) db1.

(** The expired-cart part of [handleCron]; the retry of failed webhook
    deliveries that follows it belongs to [src/lib/webhooks]. *)
Definition handleCron (currentTime : Z) (db : Db) : Db :=
  foldl (sweep_cart currentTime) db (expired_carts currentTime db).

(** ** Test orders ([POST /v1/orders/test], [src/routes/orders.ts]) *)

Record TestOrderBody := {
  tb_customer_email : option string;
  tb_items : option (list ReqItem);
  tb_discount_code : option string;
}.

(** The validation loop of the test-order route: every availability check
    reads the inventory as it is before the route writes anything. *)
Fixpoint validate_test_items (storeId : string) (db : Db) (items : list ReqItem)
    (subtotal0 : Z) : ApiError + (Z * list ItemView) :=
  match items with
  | [] => inr (subtotal0, [])
  | it :: rest =>
      if String.eqb (req_sku it) "" || (req_qty it <? 1)
      then inl (invalidRequest "Each item needs sku and qty > 0")
      else
        match variants db !! (storeId, req_sku it) with
        | None => inl (notFound ("SKU not found: " +:+ req_sku it))
        | Some variant =>
            if available storeId (req_sku it) (inventory db) <? req_qty it
            then inl (insufficientInventory (req_sku it))
            else
              match validate_test_items storeId db rest
                      (subtotal0 + price_cents variant * req_qty it) with
              | inl e => inl e
              | inr (total, orderItems) =>
                  inr (total,
                       {| iv_sku := req_sku it; iv_title := v_title variant;
                          iv_qty := req_qty it;
                          iv_unit_price_cents := price_cents variant |} :: orderItems)
              end
        end
  end.

(** One round of the "order items and inventory" loop of the test-order
    route: the order item and the unconditional decrement of [on_hand]. *)
Definition deduct_item (timestamp : Z) (storeId orderId : string) (db : Db) (item : ItemView)
    : Db :=
  let db1 := set_order_items (λ t, t ++ [{| oi_order_id := orderId; oi_sku := iv_sku item;
                 oi_title := iv_title item; oi_qty := iv_qty item;
                 oi_unit_price_cents := iv_unit_price_cents item |}])%list db in
  set_inventory (λ inv, (deduct_on_hand timestamp storeId (iv_sku item) (iv_qty item) inv).1) db1.

(** [POST /v1/orders/test]; [orderId] is the uuid drawn for the order. *)
Definition test_order (now : Z) (storeId orderId : string) (body : TestOrderBody) (db : Db)
    : Db * (ApiError + (Order * list ItemView)) :=
  match tb_customer_email body with
  | None => (db, inl (invalidRequest "customer_email is required"))
  | Some customer_email =>
    if String.eqb customer_email "" then (db, inl (invalidRequest "customer_email is required"))
    else
      match tb_items body with
      | None | Some [] => (db, inl (invalidRequest "items array is required"))
      | Some items =>
        match validate_test_items storeId db items 0 with
        | inl e => (db, inl e)
        | inr (subtotal, orderItems) =>
          let discount : ApiError + option (string * Discount * Z) :=
            if truthy (tb_discount_code body) then
              let normalizedCode := trim (toUpperCase (default "" (tb_discount_code body))) in
              match select_discount_by_code normalizedCode storeId db with
              | Some (did, discountRow) =>
                  if validateDiscount now db did discountRow subtotal customer_email
                  then inr (Some (did, discountRow, calculateDiscount discountRow subtotal))
                  else inl (ineligible "Discount is not valid for this order")
              | None => inl (notFound "Discount code not found")
              end
            else inr None in
          match discount with
          | inl e => (db, inl e)
          | inr discount =>
            let discountAmountCents :=
              match discount with Some (_, _, a) => a | None => 0 end in
            let totalCents := subtotal - discountAmountCents in
            let order :=
              {| o_id := orderId; o_store_id := storeId;
                 number := next_order_number storeId db;
                 o_status := "paid"; o_customer_email := customer_email;
                 ship_to := None; subtotal_cents := subtotal; tax_cents := 0;
                 shipping_cents := 0; total_cents := totalCents; o_currency := None;
                 o_discount_code :=
                   match discount with Some (_, d, _) => Some (code d) | None => None end;
                 o_discount_id :=
                   match discount with Some (did, _, _) => Some did | None => None end;
                 o_discount_amount_cents := discountAmountCents;
                 o_stripe_checkout_session_id := None; stripe_payment_intent_id := None;
                 created_at := Some now |} in
            let db1 := set_orders (λ t, t ++ [order])%list db in
            let db2 := foldl (deduct_item now storeId orderId) db1 orderItems in
            let db3 :=
              match discount with
              | Some (did, _, a) =>
                  if 0 <? a then
                    set_discount_usage (λ t, t ++ [{|
                        u_discount_id := did; u_order_id := orderId;
                        u_customer_email := toLowerCase customer_email;
                        u_discount_amount_cents := a |}])%list
                      (set_discounts (λ t, (count_usage now did t).1) db2)
                  else db2
              | None => db2
              end in
            (db3, inr (order, orderItems))
          end
        end
      end
  end.

(** ** Order routes ([src/routes/orders.ts]) *)

(** The body [formatOrder] builds from an order row and its item rows.  The
    stored [ship_to] is the JSON text of the address; [JSON.parse] of it is
    kept as that text. *)
Record OrderDiscountView := {
  od_code : string;
  od_amount_cents : Z;
}.

Record OrderView := {
  ov_id : string;
  ov_number : string;
  ov_status : string;
  ov_customer_email : string;
  ov_ship_to : option string;
  ov_subtotal_cents : Z;
  ov_discount_cents : Z;
  ov_tax_cents : Z;
  ov_shipping_cents : Z;
  ov_total_cents : Z;
  ov_currency : option string;
  ov_discount : option OrderDiscountView;
  ov_checkout_session_id : option string;
  ov_payment_intent_id : option string;
  ov_items : list ItemView;
  ov_created_at : option Z;
}.

Definition formatOrder (order : Order) (items : list ItemView) : OrderView :=
  {| ov_id := o_id order; ov_number := number order; ov_status := o_status order;
     ov_customer_email := o_customer_email order;
     ov_ship_to := if truthy (ship_to order) then ship_to order else None;
     ov_subtotal_cents := subtotal_cents order;
     ov_discount_cents := o_discount_amount_cents order;
     ov_tax_cents := tax_cents order;
     ov_shipping_cents := shipping_cents order;
     ov_total_cents := total_cents order;
     ov_currency := o_currency order;
     ov_discount :=
       if truthy (o_discount_code order)
       then Some {| od_code := default "" (o_discount_code order);
                    od_amount_cents := o_discount_amount_cents order |}
       else None;
     ov_checkout_session_id := o_stripe_checkout_session_id order;
     ov_payment_intent_id := stripe_payment_intent_id order;
     ov_items := items;
     ov_created_at := created_at order |}.

(** [SELECT * FROM orders WHERE id = ? AND store_id = ?], first row. *)
Definition select_order (orderId storeId : string) (db : Db) : option Order :=
  head (filter (λ o, o_id o = orderId ∧ o_store_id o = storeId) (orders db)).

(** [SELECT * FROM order_items WHERE order_id = ?] *)
Definition select_order_items (orderId : string) (db : Db) : list OrderItem :=
  filter (λ i, oi_order_id i = orderId) (order_items db).

Definition view_of_order_item (i : OrderItem) : ItemView :=
  {| iv_sku := oi_sku i; iv_title := oi_title i; iv_qty := oi_qty i;
     iv_unit_price_cents := oi_unit_price_cents i |}.

(** [GET /v1/orders/:orderId] *)
Definition get_order (storeId orderId : string) (db : Db) : ApiError + OrderView :=
  match select_order orderId storeId db with
  | None => inl (notFound "Order not found")
  | Some order =>
      inr (formatOrder order (view_of_order_item <$> select_order_items (o_id order) db))
  end.

(** The body [POST /v1/orders/test] answers with: [formatOrder] of the row it
    reads back by id and of the lines it validated. *)
Definition test_order_response (orderId : string) (orderItems : list ItemView) (db : Db)
    : option OrderView :=
  (λ order, formatOrder order orderItems)
    <$> head (filter (λ o, o_id o = orderId) (orders db)).

(** Row of [refunds] (without its surrogate id). *)
Record RefundRow := {
  rf_order_id : string;
  stripe_refund_id : string;
  rf_amount_cents : Z;
  rf_status : string;
}.

(** What [stripe.refunds.create] returns. *)
Record StripeRefund := {
  refund_id : string;
  refund_amount : Z;
  refund_status : option string;
}.

Record RefundResp := {
  rr_stripe_refund_id : string;
  rr_status : option string;
}.

(** [UPDATE orders SET status = 'refunded' WHERE id = ?] *)
Definition mark_refunded (orderId : string) (o : Order) : Order :=
  if decide (o_id o = orderId) then
    {| o_id := o_id o; o_store_id := o_store_id o; number := number o;
       o_status := "refunded"; o_customer_email := o_customer_email o;
       ship_to := ship_to o; subtotal_cents := subtotal_cents o;
       tax_cents := tax_cents o; shipping_cents := shipping_cents o;
       total_cents := total_cents o; o_currency := o_currency o;
       o_discount_code := o_discount_code o; o_discount_id := o_discount_id o;
       o_discount_amount_cents := o_discount_amount_cents o;
       o_stripe_checkout_session_id := o_stripe_checkout_session_id o;
       stripe_payment_intent_id := stripe_payment_intent_id o;
       created_at := created_at o |}
  else o.

(** JavaScript falsiness of the optional [amount_cents] of the body. *)
Definition no_amount (amountCents : option Z) : bool :=
  match amountCents with
  | Some a => a =? 0
  | None => true
  end.

(** [POST /v1/orders/:orderId/refund].  [refunds_create] is
    [stripe.refunds.create] on the payment intent and the optional amount;
    [inl msg] is a thrown error with that message.  The table [refunds] is
    threaded beside the database. *)
Definition refund_order (refunds_create : string → option Z → string + StripeRefund)
    (storeId : string) (store : Store) (orderId : string) (amountCents : option Z)
    (st : Db * list RefundRow) : (Db * list RefundRow) * (ApiError + RefundResp) :=
  let '(db, refunds) := st in
  if negb (truthy (stripe_secret_key store))
  then (st, inl (invalidRequest "Stripe not connected"))
  else
    match select_order orderId storeId db with
    | None => (st, inl (notFound "Order not found"))
    | Some order =>
        if String.eqb (o_status order) "refunded"
        then (st, inl (conflict "Order already refunded"))
        else
          match stripe_payment_intent_id order with
          | None =>
              (st, inl (invalidRequest "Cannot refund test orders (no Stripe payment)"))
          | Some pi =>
              if String.eqb pi ""
              then (st, inl (invalidRequest "Cannot refund test orders (no Stripe payment)"))
              else
                match refunds_create pi amountCents with
                | inl msg => (st, inl (stripeError (or_default msg "Refund failed")))
                | inr refund =>
                    let refunds' :=
                      refunds ++ [{| rf_order_id := o_id order;
                                     stripe_refund_id := refund_id refund;
                                     rf_amount_cents := refund_amount refund;
                                     rf_status := default "succeeded" (refund_status refund) |}] in
                    let db' :=
                      if no_amount amountCents
                         || (total_cents order <=? default 0 amountCents)
                      then set_orders (fmap (mark_refunded orderId)) db
                      else db in
                    ((db', refunds'),
                     inr {| rr_stripe_refund_id := refund_id refund;
                            rr_status := refund_status refund |})
                end
          end
    end.

(** ** Vocabulary of the properties *)

(** The invariant of an inventory record, and of the whole table. *)
Definition inv_ok (r : Inventory) : Prop := 0 ≤ reserved r ≤ on_hand r.

#[global] Instance inv_ok_dec r : Decision (inv_ok r).
Proof. unfold inv_ok. apply _. Defined.

Definition ledger_ok (inv : gmap (string * string) Inventory) : Prop :=
  map_Forall (λ _, inv_ok) inv.

#[global] Instance ledger_ok_dec inv : Decision (ledger_ok inv).
Proof. unfold ledger_ok. apply _. Defined.

(** The two counters of a record, without the timestamp of its last write. *)
Definition counters (r : Inventory) : Z * Z := (on_hand r, reserved r).


(** The quantity a list of tracked reservations holds of one sku. *)
Definition sku_qty (k : string) (items : list (string * Z)) : Z :=
  foldr (λ item acc, if decide (item.1 = k) then item.2 + acc else acc) 0 items.

Definition tracked (item : CartItem) : string * Z := (sku item, qty item).

(** [inv] is [inv0] with the reservations [acc] of store [s] added on top. *)
Definition held (s : string) (acc : list (string * Z))
    (inv0 inv : gmap (string * string) Inventory) : Prop :=
  ∀ key,
    match inv0 !! key with
    | Some r0 =>
        ∃ r, inv !! key = Some r ∧ on_hand r = on_hand r0 ∧
             reserved r = reserved r0 + (if decide (key.1 = s) then sku_qty key.2 acc else 0)
    | None => inv !! key = None
    end.

(** The releases a sweep at [currentTime] performs, in order: for every
    selected cart, one (store, sku, qty) per item of the cart. *)
Definition releases_of (items : list CartItem) (cart : string * Cart)
    : list (string * string * Z) :=
  (λ item, (store_id cart.2, sku item, qty item)) <$> filter (λ it, cart_id it = cart.1) items.

Definition sweep_releases (currentTime : Z) (db : Db) : list (string * string * Z) :=
  expired_carts currentTime db ≫= releases_of (cart_items db).

Definition release_all (now : Z) (rs : list (string * string * Z))
    (inv : gmap (string * string) Inventory) : gmap (string * string) Inventory :=
  foldl (λ inv r, (release now r.1.1 r.1.2 r.2 inv).1) inv rs.

Definition release_log (r : string * string * Z) : InventoryLog :=
  {| l_store_id := r.1.1; l_sku := r.1.2; delta := - r.2; reason := "release" |}.

(** The cart selected by the sweep: still open and past its expiry. *)
Definition sweepable (currentTime : Z) (c : Cart) : Prop :=
  status c = open ∧ expires_at c < currentTime.

#[global] Instance sweepable_dec t c : Decision (sweepable t c).
Proof. unfold sweepable. apply _. Defined.

(** The checks of the webhook route that come before the deduplication:
    the store the request resolves to and the event it verifies to. *)
Definition verified (stripe : Stripe) (JSON_parse : string → option RawEvent)
    (req : WebhookRequest) (db : Db) : option (string * StripeEvent) :=
  sig ← signature req;
  rawEvent ← JSON_parse (body req);
  storeId ← raw_store_id rawEvent;
  secret ← stores db !! storeId ≫= stripe_webhook_secret;
  if String.eqb sig "" || String.eqb storeId "" || String.eqb secret "" then None
  else
    match constructEventAsync stripe (body req) sig secret with
    | inr event => Some (storeId, event)
    | inl _ => None
    end.

Definition event_row (storeId : string) (event : StripeEvent) : EventRow :=
  {| e_store_id := storeId; stripe_event_id := ev_id event; e_type := ev_type event;
     payload := ev_payload event |}.

Definition order_item_of (orderId : string) (item : CartItem) : OrderItem :=
  {| oi_order_id := orderId; oi_sku := sku item; oi_title := title item;
     oi_qty := qty item; oi_unit_price_cents := unit_price_cents item |}.

Definition sale_log (storeId : string) (item : CartItem) : InventoryLog :=
  {| l_store_id := storeId; l_sku := sku item; delta := - qty item; reason := "sale" |}.

Definition sell_all (now : Z) (storeId : string) (items : list CartItem)
    (inv : gmap (string * string) Inventory) : gmap (string * string) Inventory :=
  foldl (λ inv item, (sell now storeId (sku item) (qty item) inv).1) inv items.

(** A cart row with another expiry. *)
Definition with_expires_at (e : Z) (c : Cart) : Cart :=
  {| store_id := store_id c; customer_email := customer_email c; status := status c;
     expires_at := e; discount_code := discount_code c;
     discount_id := discount_id c; discount_amount_cents := discount_amount_cents c;
     stripe_checkout_session_id := stripe_checkout_session_id c; currency := currency c |}.

Definition set_expires (e : Z) (cartId : string) (db : Db) : Db :=
  set_carts (alter (with_expires_at e) cartId) db.

(** The decrements of a test order, in order. *)
Definition deduct_all (now : Z) (storeId : string) (orderItems : list ItemView)
    (inv : gmap (string * string) Inventory) : gmap (string * string) Inventory :=
  foldl (λ inv item, (deduct_on_hand now storeId (iv_sku item) (iv_qty item) inv).1)
    inv orderItems.

Definition ordered (item : ItemView) : string * Z := (iv_sku item, iv_qty item).

Definition requested (item : ReqItem) : string * Z := (req_sku item, req_qty item).

(** What changing the expiry of cart [c] does to the row read for
    [cartId], and to the response of the items route, which echoes the expiry
    of the row it read. *)
Definition touch (e : Z) (c cartId : string) (cart : Cart) : Cart :=
  if decide (c = cartId) then with_expires_at e cart else cart.

Definition echo_expires (e : Z) (c cartId : string) (res : ApiError + CartResp)
    : ApiError + CartResp :=
  match res with
  | inr r =>
      inr (if decide (c = cartId)
           then {| r_id := r_id r; r_status := r_status r; r_currency := r_currency r;
                   r_customer_email := r_customer_email r; r_items := r_items r;
                   r_discount := r_discount r; r_totals := r_totals r;
                   r_expires_at := e |}
           else r)
  | inl err => inl err
  end.

(** A call of the ledger against one (store, sku). *)
Inductive LedgerOp :=
| Reserve (q : Z)
| Release (q : Z)
| Sell (q : Z).

Definition op_qty (op : LedgerOp) : Z :=
  match op with Reserve q | Release q | Sell q => q end.

Definition is_sale (op : LedgerOp) : bool :=
  match op with Sell _ => true | _ => false end.

Definition is_reserve (op : LedgerOp) : bool :=
  match op with Reserve _ => true | _ => false end.

Definition apply_op (now : Z) (store sku : string) (op : LedgerOp)
    (inv : gmap (string * string) Inventory) : gmap (string * string) Inventory * nat :=
  match op with
  | Reserve q => reserve now store sku q inv
  | Release q => release now store sku q inv
  | Sell q => sell now store sku q inv
  end.

(** Runs the calls in order; the second component is the sum of the
    quantities of the reservations that succeeded. *)
Fixpoint run_ops (now : Z) (store sku : string) (ops : list LedgerOp)
    (inv : gmap (string * string) Inventory) : gmap (string * string) Inventory * Z :=
  match ops with
  | [] => (inv, 0)
  | op :: rest =>
      let '(inv1, changes) := apply_op now store sku op inv in
      let '(inv2, total) := run_ops now store sku rest inv1 in
      (inv2, if is_reserve op && negb (Nat.eqb changes 0) then op_qty op + total else total)
  end.

(** The orders of a store, in the order of their insertion. *)
Definition store_orders (storeId : string) (db : Db) : list Order :=
  filter (λ o, o_store_id o = storeId) (orders db).

(** Every order of a store carries the number of its position among the
    orders of the store: ORD-0001 for the first, and so on. *)
Definition numbered (db : Db) : Prop :=
  ∀ s i o, store_orders s db !! i = Some o →
    number o = "ORD-" +:+ padStart 4 "0"%char (pretty (i + 1)%nat).

(** The decimal value of a string of digits. *)
Definition digit (c : ascii) : N := (N_of_ascii c - 48)%N.

Fixpoint decimal (s : string) : N :=
  match s with
  | EmptyString => 0%N
  | String c r => (digit c * 10 ^ N.of_nat (String.length r) + decimal r)%N
  end.

(** A refund asks for the whole order: no amount, or an amount that
    reaches the total of the order. *)
Definition full_refund (amountCents : option Z) (order : Order) : bool :=
  no_amount amountCents || (total_cents order <=? default 0 amountCents).

(** The row of [refunds] written for one refund the processor granted. *)
Definition refund_row (orderId : string) (refund : StripeRefund) : RefundRow :=
  {| rf_order_id := orderId; stripe_refund_id := refund_id refund;
     rf_amount_cents := refund_amount refund;
     rf_status := default "succeeded" (refund_status refund) |}.

(** The refunds the processor grants in a run of requests on one payment
    intent, one amount each. *)
Definition granted (refunds_create : string → option Z → string + StripeRefund)
    (pi : string) (amounts : list Z) : list StripeRefund :=
  omap (λ a, match refunds_create pi (Some a) with
             | inr refund => Some refund
             | inl _ => None
             end) amounts.

(** A run of refund requests against one order, one amount each. *)
Definition refund_many (refunds_create : string → option Z → string + StripeRefund)
    (storeId : string) (store : Store) (orderId : string) (amounts : list Z)
    (st : Db * list RefundRow) : Db * list RefundRow :=
  foldl (λ st a, (refund_order refunds_create storeId store orderId (Some a) st).1)
    st amounts.

(** A line the items route accepts: the variant exists and is active, the
    quantity is at least one and available, and the line carries the title
    and the price of the variant. *)
Definition valid_line (storeId : string) (db : Db) (v : ItemView) : Prop :=
  ∃ variant, variants db !! (storeId, iv_sku v) = Some variant ∧ v_active variant = true ∧
    iv_title v = v_title variant ∧ iv_unit_price_cents v = price_cents variant ∧
    1 ≤ iv_qty v ≤ available storeId (iv_sku v) (inventory db).

(** Two databases that differ in the carts and the cart items at most. *)
Definition cart_tables_only (db db' : Db) : Prop :=
  stores db' = stores db ∧ variants db' = variants db ∧ inventory db' = inventory db ∧
  inventory_logs db' = inventory_logs db ∧ discounts db' = discounts db ∧
  discount_usage db' = discount_usage db ∧ orders db' = orders db ∧
  order_items db' = order_items db ∧ events db' = events db ∧ outbox db' = outbox db.

(** A discount within its global usage limit, and a table of such. *)
Definition within_limit (d : Discount) : Prop :=
  ∀ l, usage_limit d = Some l → usage_count d ≤ l.

Definition limits_ok (db : Db) : Prop :=
  ∀ did d, discounts db !! did = Some d → within_limit d.

(** Two inventories with the same records and the same on_hand in each. *)
Definition same_on_hand (inv inv' : gmap (string * string) Inventory) : Prop :=
  ∀ key, on_hand <$> inv' !! key = on_hand <$> inv !! key.

(** ** Sample data

    A store with two variants, used to run the routes on concrete inputs. *)
Module Sample.

Definition s1 : Store :=
  {| stripe_secret_key := Some "sk_test"; stripe_webhook_secret := Some "whsec" |}.

Definition inv_row (h r : Z) : Inventory :=
  {| on_hand := h; reserved := r; updated_at := 0 |}.

Definition db0 : Db :=
  {| stores := {[ "s1" := s1 ]};
     variants := {[ ("s1", "A") := {| v_title := "Alpha"; price_cents := 1000; v_active := true |};
                    ("s1", "B") := {| v_title := "Beta"; price_cents := 250; v_active := true |} ]};
     inventory := {[ ("s1", "A") := inv_row 5 0; ("s1", "B") := inv_row 3 0 ]};
     inventory_logs := []; carts := ∅; cart_items := []; discounts := ∅;
     discount_usage := []; orders := []; order_items := []; events := []; outbox := [] |}.

(** A processor that accepts every call; the verified event is read off the
    body: its id is the body text, and it completes the session of cart
    "c1", or of the discounted carts "k1" and "k2". *)
Definition completed (eventId cartId : string) (did : option string) : StripeEvent :=
  {| ev_id := eventId; ev_type := "checkout.session.completed";
     ev_object := {| so_id := "cs_1"; so_cart_id := Some cartId; so_discount_id := did;
                     amount_total := Some 5000; amount_subtotal := Some 5000;
                     amount_tax := None; amount_shipping := None;
                     shipping_address := None; payment_intent := Some "pi_1" |};
     ev_payload := "{}" |}.

Definition event_of_body (body : string) : StripeEvent :=
  if String.eqb body "evt_k1" then completed body "k1" (Some "d1")
  else if String.eqb body "evt_k2" then completed body "k2" (Some "d1")
  else completed body "c1" None.

Definition stripe_ok : Stripe :=
  {| coupons_create := λ _ _, Some "coupon_1";
     sessions_create := λ _, Some {| session_id := "cs_1"; session_url := "https://pay/cs_1" |};
     constructEventAsync := λ body sig secret,
       if String.eqb sig "valid" then inr (event_of_body body)
       else inl "No signatures found matching the expected signature" |}.

(** The same processor with [sessions.create] failing. *)
Definition stripe_down : Stripe :=
  {| coupons_create := coupons_create stripe_ok;
     sessions_create := λ _, None;
     constructEventAsync := constructEventAsync stripe_ok |}.

Definition parse_s1 (_ : string) : option RawEvent := Some {| raw_store_id := Some "s1" |}.

Definition urls : CheckoutBody :=
  {| success_url := Some "https://shop/ok"; cancel_url := Some "https://shop/cancel";
     collect_shipping := false; shipping_countries := None; shipping_options := None |}.

Definition item (s : string) (q : Z) : ReqItem := {| req_sku := s; req_qty := q |}.

(** Two carts created at T = 0, each asking for all five units of A. *)
Definition db1 : Db := (create_cart 0 "s1" "c1" (Some "Ann@Example.com") db0).1.
Definition db2 : Db := (create_cart 0 "s1" "c2" (Some "bob@example.com") db1).1.
Definition db3 : Db := (replace_items 10 "s1" "c1" (Some [item "A" 5]) db2).1.
Definition db4 : Db := (replace_items 20 "s1" "c2" (Some [item "A" 5]) db3).1.

(** Cart c1 checks out; 31 minutes after T the sweep runs; then the
    payment of c1 completes. *)
Definition db5 : Db := (checkout stripe_ok 1000 "s1" s1 "c1" urls db4).1.
Definition T31 : Z := 31 * 60 * 1000.
Definition T29 : Z := 29 * 60 * 1000.
Definition db6 : Db := handleCron T31 db5.
Definition paid (eventId : string) : WebhookRequest :=
  {| signature := Some "valid"; body := eventId |}.
Definition db7 : Db := (stripe_webhook stripe_ok parse_s1 T31 "o1" (paid "evt_1") db6).1.

(** The rollback example: cart c3 asks for A x 5 (five available) and
    B x 3; cart c4 then reserves one B, which leaves two. *)
Definition dbA : Db := (create_cart 0 "s1" "c3" (Some "cy@example.com") db0).1.
Definition dbB : Db :=
  (replace_items 5 "s1" "c3" (Some [item "A" 5; item "B" 3]) dbA).1.
Definition dbC : Db := (create_cart 6 "s1" "c4" (Some "di@example.com") dbB).1.
Definition dbD : Db := (replace_items 7 "s1" "c4" (Some [item "B" 1]) dbC).1.
Definition dbE : Db := (checkout stripe_ok 8 "s1" s1 "c4" urls dbD).1.


(** The discount example: SAVE5 takes 500 off and may be used once.  Two
    carts apply it and check out while it is still unused; then both
    payments complete. *)
Definition save5 : Discount :=
  {| d_store_id := "s1"; code := "SAVE5"; type := fixed_amount; value := 500;
     d_status := active; min_purchase_cents := 0; max_discount_cents := None;
     starts_at := None; d_expires_at := None; usage_limit := Some 1;
     usage_limit_per_customer := None; usage_count := 0; d_updated_at := 0 |}.

Definition dk0 : Db := set_discounts (insert "d1" save5) db0.
Definition dk1 : Db := (create_cart 0 "s1" "k1" (Some "Ann@Example.com") dk0).1.
Definition dk2 : Db := (create_cart 0 "s1" "k2" (Some "bob@example.com") dk1).1.
Definition dk3 : Db := (replace_items 1 "s1" "k1" (Some [item "A" 1]) dk2).1.
Definition dk4 : Db := (replace_items 2 "s1" "k2" (Some [item "A" 1]) dk3).1.
Definition dk5 : Db := (apply_discount 3 "s1" "k1" (Some "save5") dk4).1.
Definition dk6 : Db := (apply_discount 4 "s1" "k2" (Some " SAVE5 ") dk5).1.
Definition dk7 : Db := (checkout stripe_ok 5 "s1" s1 "k1" urls dk6).1.
Definition dk8 : Db := (checkout stripe_ok 6 "s1" s1 "k2" urls dk7).1.
Definition dk9 : Db := (stripe_webhook stripe_ok parse_s1 7 "o1" (paid "evt_k1") dk8).1.
Definition dk10 : Db := (stripe_webhook stripe_ok parse_s1 8 "o2" (paid "evt_k2") dk9).1.

(** [baseDiscount] of [tests/discounts.test.ts], with the type, the value
    and the cap each test sets. *)
Definition test_discount (ty : DiscountType) (v : Z) (cap : option Z) : Discount :=
  {| d_store_id := "store-id"; code := "TEST10"; type := ty; value := v;
     d_status := active; min_purchase_cents := 0; max_discount_cents := cap;
     starts_at := None; d_expires_at := None; usage_limit := None;
     usage_limit_per_customer := None; usage_count := 0; d_updated_at := 0 |}.

(** A test order with two lines of the same sku. *)
Definition twice_A : TestOrderBody :=
  {| tb_customer_email := Some "eve@example.com";
     tb_items := Some [item "A" 3; item "A" 3];
     tb_discount_code := None |}.

(** Two test orders of one unit of A each. *)
Definition one_A : TestOrderBody :=
  {| tb_customer_email := Some "eve@example.com";
     tb_items := Some [item "A" 1];
     tb_discount_code := None |}.

Definition dbT1 : Db := (test_order 5 "s1" "t1" one_A db0).1.
Definition dbT2 : Db := (test_order 6 "s1" "t2" one_A dbT1).1.

(** A processor that grants every refund, of the amount asked for or of the
    5000 that were paid. *)
Definition refunds_ok (pi : string) (amount : option Z) : string + StripeRefund :=
  inr {| refund_id := "re_1"; refund_amount := default 5000 amount;
         refund_status := Some "succeeded" |}.

End Sample.

(** * Properties *)

(** Two databases with the same tables are the same database. *)
Lemma Db_ext (a b : Db) :
  stores a = stores b → variants a = variants b → inventory a = inventory b →
  inventory_logs a = inventory_logs b → carts a = carts b → cart_items a = cart_items b →
  discounts a = discounts b → discount_usage a = discount_usage b → orders a = orders b →
  order_items a = order_items b → events a = events b → outbox a = outbox b →
  a = b.
Proof. destruct a, b. simpl. by intros -> -> -> -> -> -> -> -> -> -> -> ->. Qed.

(** ** The conditional update *)

Section update_where.
Context {K V : Type} `{Countable K}.
Implicit Types (t : gmap K V) (k : K) (cond : V → bool) (set : V → V).

Lemma update_where_lookup k cond set t k' :
  (update_where k cond set t).1 !! k' =
    if decide (k = k')
    then (λ r, if cond r then set r else r) <$> t !! k'
    else t !! k'.
Proof.
  unfold update_where. destruct (t !! k) as [r|] eqn:E.
  - destruct (cond r) eqn:C; simpl.
    + rewrite lookup_insert. case_decide; subst; [rewrite E; simpl; rewrite C|]; done.
    + case_decide; subst; [rewrite E; simpl; rewrite C|]; done.
  - simpl. case_decide; subst; [rewrite E|]; done.
Qed.

Lemma update_where_changes k cond set t :
  (update_where k cond set t).2 =
    match t !! k with
    | Some r => if cond r then 1%nat else 0%nat
    | None => 0%nat
    end.
Proof. unfold update_where. destruct (t !! k) as [r|]; [destruct (cond r)|]; done. Qed.

Lemma update_where_unchanged k cond set t :
  (update_where k cond set t).2 = 0%nat → (update_where k cond set t).1 = t.
Proof.
  unfold update_where. destruct (t !! k) as [r|]; [destruct (cond r)|]; simpl; done.
Qed.

End update_where.

(** ** Inventory ledger *)

Lemma reserve_lookup now s k q inv key :
  (reserve now s k q inv).1 !! key =
    if decide ((s, k) = key)
    then (λ r, if q <=? on_hand r - reserved r
               then {| on_hand := on_hand r; reserved := reserved r + q; updated_at := now |}
               else r) <$> inv !! key
    else inv !! key.
Proof. unfold reserve. by rewrite update_where_lookup. Qed.

Lemma release_lookup now s k q inv key :
  (release now s k q inv).1 !! key =
    if decide ((s, k) = key)
    then (λ r, {| on_hand := on_hand r; reserved := Z.max (reserved r - q) 0;
                  updated_at := now |}) <$> inv !! key
    else inv !! key.
Proof. unfold release. by rewrite update_where_lookup. Qed.

Lemma sell_lookup now s k q inv key :
  (sell now s k q inv).1 !! key =
    if decide ((s, k) = key)
    then (λ r, {| on_hand := on_hand r - q; reserved := reserved r - q;
                  updated_at := now |}) <$> inv !! key
    else inv !! key.
Proof. unfold sell. by rewrite update_where_lookup. Qed.


Lemma reserve_changes now s k q inv :
  (reserve now s k q inv).2 =
    match inv !! (s, k) with
    | Some r => if q <=? on_hand r - reserved r then 1%nat else 0%nat
    | None => 0%nat
    end.
Proof. unfold reserve. by rewrite update_where_changes. Qed.

Lemma reserve_succeeds_iff now s k q inv :
  (reserve now s k q inv).2 ≠ 0%nat ↔
  ∃ r, inv !! (s, k) = Some r ∧ q ≤ on_hand r - reserved r.
Proof.
  rewrite reserve_changes. destruct (inv !! (s, k)) as [r|] eqn:E.
  - destruct (Z.leb_spec q (on_hand r - reserved r)); split.
    + intros _. exists r. split; [done | lia].
    + done.
    + done.
    + intros (r' & [= <-] & ?). lia.
  - split; [done | intros (r & ? & _); done].
Qed.

Lemma reserve_unchanged now s k q inv :
  (reserve now s k q inv).2 = 0%nat → (reserve now s k q inv).1 = inv.
Proof. apply update_where_unchanged. Qed.

Lemma reserve_preserves_ok now s k q inv :
  0 ≤ q → ledger_ok inv → ledger_ok (reserve now s k q inv).1.
Proof.
  intros Hq Hok key r. rewrite reserve_lookup. case_decide; [|apply Hok].
  destruct (inv !! key) as [r0|] eqn:E; [|done]. simpl. intros [= <-].
  specialize (Hok _ _ E). unfold inv_ok in *.
  destruct (Z.leb_spec q (on_hand r0 - reserved r0)); simpl; lia.
Qed.

Lemma release_preserves_ok now s k q inv :
  0 ≤ q → ledger_ok inv → ledger_ok (release now s k q inv).1.
Proof.
  intros Hq Hok key r. rewrite release_lookup. case_decide; [|apply Hok].
  destruct (inv !! key) as [r0|] eqn:E; [|done]. simpl. intros [= <-].
  specialize (Hok _ _ E). unfold inv_ok in *. simpl. lia.
Qed.

Lemma sell_preserves_ok now s k q inv :
  0 ≤ q → (∀ r, inv !! (s, k) = Some r → q ≤ reserved r) →
  ledger_ok inv → ledger_ok (sell now s k q inv).1.
Proof.
  intros Hq Hcov Hok key r. rewrite sell_lookup. case_decide as Hk; [|apply Hok].
  destruct (inv !! key) as [r0|] eqn:E; [|done]. simpl. intros [= <-].
  subst key. specialize (Hok _ _ E). specialize (Hcov _ E).
  unfold inv_ok in *. simpl. lia.
Qed.

Lemma apply_op_preserves_ok now s k op inv :
  0 ≤ op_qty op → is_sale op = false →
  ledger_ok inv → ledger_ok (apply_op now s k op inv).1.
Proof.
  destruct op; simpl; intros Hq Hs Hok; try done.
  - by apply reserve_preserves_ok.
  - by apply release_preserves_ok.
Qed.

Lemma run_ops_preserves_ok now s k ops : ∀ inv,
  Forall (λ op, 0 ≤ op_qty op ∧ is_sale op = false) ops →
  ledger_ok inv → ledger_ok (run_ops now s k ops inv).1.
Proof.
  induction ops as [|op ops IH]; intros inv HF Hok; simpl; [done|].
  apply Forall_cons in HF as [[Hq Hs] HF].
  pose proof (apply_op_preserves_ok now s k op inv Hq Hs Hok) as H1.
  destruct (apply_op now s k op inv) as [inv1 ch].
  specialize (IH inv1 HF H1).
  destruct (run_ops now s k ops inv1) as [inv2 tot]. done.
Qed.

Lemma run_ops_reserved_sum now s k ops : ∀ inv r,
  Forall (λ op, is_reserve op = true) ops →
  inv !! (s, k) = Some r → reserved r ≤ on_hand r →
  (run_ops now s k ops inv).2 ≤ on_hand r - reserved r.
Proof.
  induction ops as [|op ops IH]; intros inv r HF Hr Hle; simpl; [lia|].
  apply Forall_cons in HF as [Hres HF].
  destruct op as [q| |]; try done. simpl.
  pose proof (reserve_lookup now s k q inv (s, k)) as Hl.
  pose proof (reserve_changes now s k q inv) as Hc.
  rewrite decide_True, Hr in Hl by done. rewrite Hr in Hc. simpl in Hl.
  destruct (reserve now s k q inv) as [inv1 ch]. simpl in Hl, Hc.
  destruct (Z.leb_spec q (on_hand r - reserved r)).
  - specialize (IH inv1 _ HF Hl). simpl in IH.
    destruct (run_ops now s k ops inv1) as [inv2 tot]. subst ch. simpl in *. lia.
  - specialize (IH inv1 _ HF Hl Hle).
    destruct (run_ops now s k ops inv1) as [inv2 tot]. subst ch. simpl in *. lia.
Qed.

(** ** The reservation loop and its rollback *)

Lemma sku_qty_app k l1 l2 : sku_qty k (l1 ++ l2) = sku_qty k l1 + sku_qty k l2.
Proof.
  unfold sku_qty. induction l1 as [|x l1 IH]; simpl; [done|].
  case_decide; lia.
Qed.

Lemma sku_qty_nonneg k l : Forall (λ it : string * Z, 0 ≤ it.2) l → 0 ≤ sku_qty k l.
Proof.
  unfold sku_qty. induction 1 as [|x l Hx _ IH]; simpl; [done|].
  case_decide; lia.
Qed.

Lemma releaseReservedInventory_cons now s item items inv :
  releaseReservedInventory now s (item :: items) inv =
  releaseReservedInventory now s items (release now s item.1 item.2 inv).1.
Proof. done. Qed.



Lemma held_refl s inv : held s [] inv inv.
Proof.
  intros key. destruct (inv !! key) as [r|] eqn:E; [|done].
  exists r. split; [done|]. split; [done|]. simpl. case_decide; lia.
Qed.


Lemma reserve_held now s acc inv0 inv item :
  held s acc inv0 inv →
  (reserve now s (sku item) (qty item) inv).2 ≠ 0%nat →
  held s (acc ++ [tracked item]) inv0 (reserve now s (sku item) (qty item) inv).1.
Proof.
  intros Hheld Hch key. specialize (Hheld key).
  apply reserve_succeeds_iff in Hch as (rk & Hrk & Hav).
  rewrite reserve_lookup, sku_qty_app.
  destruct (inv0 !! key) as [r0|] eqn:E0.
  - destruct Hheld as (r & Hr & Hoh & Hres). rewrite Hr. simpl.
    destruct key as [s' k']. simpl in *.
    destruct (decide ((s, sku item) = (s', k'))) as [Hkey|Hkey].
    + injection Hkey as <- <-. assert (r = rk) as -> by congruence.
      destruct (Z.leb_spec (qty item) (on_hand rk - reserved rk)); [|lia].
      eexists. split; [done|]. simpl. split; [done|].
      rewrite Hres. rewrite !decide_True by done. lia.
    + exists r. split; [done|]. split; [done|]. rewrite Hres.
      destruct (decide (s' = s)) as [->|]; [|done].
      rewrite decide_False by congruence. lia.
  - rewrite Hheld. by case_decide.
Qed.

Lemma reserve_changes_01 now s k q inv :
  (reserve now s k q inv).2 = 0%nat ∨ (reserve now s k q inv).2 = 1%nat.
Proof.
  rewrite reserve_changes. destruct (inv !! (s, k)) as [r|]; [|by left].
  destruct (q <=? on_hand r - reserved r); auto.
Qed.

Lemma reserve_items_cons now s item items acc inv :
  reserve_items now s (item :: items) acc inv =
    if Nat.eqb (reserve now s (sku item) (qty item) inv).2 0
    then (releaseReservedInventory now s acc (reserve now s (sku item) (qty item) inv).1,
          inl (sku item))
    else reserve_items now s items (acc ++ [tracked item])%list
           (reserve now s (sku item) (qty item) inv).1.
Proof. simpl. by destruct (reserve now s (sku item) (qty item) inv). Qed.

(** A loop that ends well has tracked every item and holds all of them. *)
Lemma reserve_items_ok now s items : ∀ acc inv0 inv inv' reservedItems,
  held s acc inv0 inv →
  reserve_items now s items acc inv = (inv', inr reservedItems) →
  reservedItems = (acc ++ (tracked <$> items))%list ∧ held s reservedItems inv0 inv'.
Proof.
  induction items as [|item items IH]; intros acc inv0 inv inv' res Hheld Hrun.
  - simpl in Hrun. injection Hrun as <- <-. by rewrite app_nil_r.
  - rewrite reserve_items_cons in Hrun.
    destruct (Nat.eqb_spec (reserve now s (sku item) (qty item) inv).2 0) as [|Hne]; [done|].
    destruct (IH _ _ _ _ _ (reserve_held now s acc inv0 inv item Hheld Hne) Hrun) as [-> H].
    split; [|done]. by rewrite <- app_assoc.
Qed.



Lemma releaseReservedInventory_preserves_ok now s items : ∀ inv,
  Forall (λ it : string * Z, 0 ≤ it.2) items →
  ledger_ok inv → ledger_ok (releaseReservedInventory now s items inv).
Proof.
  induction items as [|item items IH]; intros inv HF Hok; [done|].
  apply Forall_cons in HF as [Hq HF].
  rewrite releaseReservedInventory_cons. apply IH; [done|].
  by apply release_preserves_ok.
Qed.

Lemma reserve_items_preserves_ok now s items : ∀ acc inv,
  Forall (λ it : string * Z, 0 ≤ it.2) acc →
  Forall (λ it, 0 ≤ qty it) items →
  ledger_ok inv → ledger_ok (reserve_items now s items acc inv).1.
Proof.
  induction items as [|item items IH]; intros acc inv Hacc Hitems Hok; [done|].
  apply Forall_cons in Hitems as [Hq Hitems].
  rewrite reserve_items_cons.
  pose proof (reserve_preserves_ok now s (sku item) (qty item) inv Hq Hok) as H1.
  destruct (Nat.eqb_spec (reserve now s (sku item) (qty item) inv).2 0).
  - simpl. by apply releaseReservedInventory_preserves_ok.
  - apply IH; [|done|done]. apply Forall_app. split; [done|]. by apply Forall_singleton.
Qed.

(** ** Checkout *)

Lemma status_alter (f : Cart → Cart) cartId (t : gmap string Cart) c :
  (∀ x, status (f x) = status x) →
  status <$> alter f cartId t !! c = status <$> t !! c.
Proof.
  intros Hf. rewrite lookup_alter. case_decide; [|done]. subst.
  destruct (t !! c); simpl; [|done]. by rewrite Hf.
Qed.

(** The discount re-validation writes the cart row only, and only to detach
    the discount. *)
Lemma checkout_discount_frame now storeId cartId cart sub db db1 a d :
  checkout_discount now storeId cartId cart sub db = (db1, a, d) →
  (db1 = db ∨ db1 = set_carts (alter clear_discount cartId) db).
Proof.
  unfold checkout_discount. intros H.
  repeat case_match; simplify_eq; auto.
Qed.

Lemma checkout_discount_tables now storeId cartId cart sub db db1 a d :
  checkout_discount now storeId cartId cart sub db = (db1, a, d) →
  inventory db1 = inventory db ∧ inventory_logs db1 = inventory_logs db ∧
  cart_items db1 = cart_items db ∧
  (∀ c, status <$> carts db1 !! c = status <$> carts db !! c).
Proof.
  intros H. destruct (checkout_discount_frame _ _ _ _ _ _ _ _ _ H) as [->| ->]; [done|].
  simpl. repeat split. intros c. by apply status_alter.
Qed.

Lemma select_cart_items_Forall (P : CartItem → Prop) cartId db :
  Forall P (cart_items db) → Forall P (select_cart_items cartId db).
Proof.
  unfold select_cart_items. rewrite !Forall_forall.
  intros H x [_ Hx]%list_elem_of_filter. auto.
Qed.

Lemma Forall_tracked items :
  Forall (λ it, 0 ≤ qty it) items →
  Forall (λ it : string * Z, 0 ≤ it.2) (tracked <$> items).
Proof. intros H. apply Forall_fmap. eapply Forall_impl; [exact H|]. done. Qed.

Lemma select_cart_Some cartId storeId db cart :
  select_cart cartId storeId db = Some cart →
  carts db !! cartId = Some cart ∧ store_id cart = storeId.
Proof.
  unfold select_cart. destruct (carts db !! cartId) as [c|]; [|done].
  case_decide; [|done]. by intros [= ->].
Qed.




(** The failing call of the rollback example left A with nothing reserved. *)
Example checkout_rollback_example :
  inventory (checkout Sample.stripe_ok 9 "s1" Sample.s1 "c3" Sample.urls Sample.dbE).1
    !! ("s1", "A") = Some {| on_hand := 5; reserved := 0; updated_at := 9 |}.
Proof. vm_compute. reflexivity. Qed.

(** With the processor refusing the session, the checkout of c1 fails, the
    five units it had reserved are released and the cart is still open. *)
Example checkout_session_failure_example :
  (checkout Sample.stripe_down 1000 "s1" Sample.s1 "c1" Sample.urls Sample.db4).2
    = inl (invalidRequest "Payment processing error. Please try again.") ∧
  reserved <$> inventory
    (checkout Sample.stripe_down 1000 "s1" Sample.s1 "c1" Sample.urls Sample.db4).1
      !! ("s1", "A") = Some 0 ∧
  status <$> carts
    (checkout Sample.stripe_down 1000 "s1" Sample.s1 "c1" Sample.urls Sample.db4).1
      !! "c1" = Some open.
Proof. repeat split; vm_compute; reflexivity. Qed.

(** The inventory a checkout leaves behind is the inventory it found, the
    outcome of the reservation loop, or that outcome rolled back; and no
    checkout writes the inventory log. *)
Lemma checkout_inventory stripe now storeId store cartId body db :
  let db' := (checkout stripe now storeId store cartId body db).1 in
  let items := select_cart_items cartId db in
  inventory_logs db' = inventory_logs db ∧
  (inventory db' = inventory db ∨
   inventory db' = (reserve_items now storeId items [] (inventory db)).1 ∨
   ∃ inv2, reserve_items now storeId items [] (inventory db)
             = (inv2, inr (tracked <$> items)) ∧
           inventory db' = releaseReservedInventory now storeId (tracked <$> items) inv2).
Proof.
  unfold checkout.
  destruct (success_url body) as [successUrl|]; [|by auto].
  destruct (cancel_url body) as [cancelUrl|];
    [|destruct (String.eqb successUrl ""); by auto].
  destruct (String.eqb successUrl ""); [by auto|].
  destruct (String.eqb cancelUrl ""); [by auto|].
  destruct (negb (truthy (stripe_secret_key store))); [by auto|].
  destruct (select_cart cartId storeId db) as [cart|]; [|by auto].
  destruct (negb (bool_decide (status cart = open))); [by auto|].
  destruct (Nat.eqb (length (select_cart_items cartId db)) 0); [by auto|].
  set (items := select_cart_items cartId db).
  destruct (checkout_discount now storeId cartId cart (subtotal items) db)
    as [[db1 amount] discount] eqn:Hdisc.
  destruct (checkout_discount_tables _ _ _ _ _ _ _ _ _ Hdisc) as (Hinv & Hlogs & _ & _).
  rewrite Hinv.
  destruct (reserve_items now storeId items [] (inventory db)) as [inv2 [failing|reservedItems]]
    eqn:Hloop.
  - simpl. auto.
  - destruct (reserve_items_ok _ _ _ _ _ _ _ _ (held_refl storeId (inventory db)) Hloop)
      as [-> _]. simpl.
    match goal with |- context [match ?c with Some _ => _ | None => _ end] =>
      destruct c as [stripeCouponId|] end.
    + match goal with |- context [sessions_create stripe ?p] =>
        destruct (sessions_create stripe p) as [session|] end; simpl; eauto 6.
    + simpl. eauto 6.
Qed.

Lemma checkout_preserves_ok stripe now storeId store cartId body db :
  Forall (λ it, 0 ≤ qty it) (cart_items db) →
  ledger_ok (inventory db) →
  ledger_ok (inventory (checkout stripe now storeId store cartId body db).1).
Proof.
  intros Hq Hok.
  pose proof (select_cart_items_Forall _ cartId db Hq) as Hitems.
  destruct (checkout_inventory stripe now storeId store cartId body db)
    as (_ & [-> | [-> | (inv2 & Hloop & ->)]]).
  - done.
  - by apply reserve_items_preserves_ok.
  - apply releaseReservedInventory_preserves_ok; [by apply Forall_tracked|].
    pose proof (reserve_items_preserves_ok now storeId _ [] _ (Forall_nil_2 _) Hitems Hok) as H.
    by rewrite Hloop in H.
Qed.

(** ** The expiry sweep *)

Lemma release_all_app now l1 l2 inv :
  release_all now (l1 ++ l2) inv = release_all now l2 (release_all now l1 inv).
Proof. unfold release_all. by rewrite foldl_app. Qed.

Lemma release_all_preserves_ok now rs : ∀ inv,
  Forall (λ r : string * string * Z, 0 ≤ r.2) rs →
  ledger_ok inv → ledger_ok (release_all now rs inv).
Proof.
  induction rs as [|r rs IH]; intros inv HF Hok; [done|].
  apply Forall_cons in HF as [Hq HF]. simpl. apply IH; [done|].
  by apply release_preserves_ok.
Qed.

(** The release loop of one cart: it writes the inventory and the log. *)
Lemma release_items_spec now s items : ∀ db,
  foldl (release_item now s) db items =
    set_inventory_logs (λ t, t ++ (release_log <$> ((λ it, (s, sku it, qty it)) <$> items)))
      (set_inventory (release_all now ((λ it, (s, sku it, qty it)) <$> items)) db).
Proof.
  induction items as [|item items IH]; intros db.
  - apply Db_ext; simpl; try done. by rewrite app_nil_r.
  - simpl. rewrite IH. apply Db_ext; simpl; try done. by rewrite <- app_assoc.
Qed.

Lemma sweep_cart_spec now db cart :
  sweep_cart now db cart =
    set_carts (alter with_expired cart.1)
      (set_inventory_logs (λ t, t ++ (release_log <$> releases_of (cart_items db) cart))
        (set_inventory (release_all now (releases_of (cart_items db) cart)) db)).
Proof. unfold sweep_cart, select_cart_items. by rewrite release_items_spec. Qed.

Lemma sweep_carts_spec now carts0 : ∀ db,
  foldl (sweep_cart now) db carts0 =
    set_carts (λ t, foldl (λ t cart, alter with_expired cart.1 t) t carts0)
      (set_inventory_logs
         (λ t, t ++ (release_log <$> (carts0 ≫= releases_of (cart_items db))))
         (set_inventory (release_all now (carts0 ≫= releases_of (cart_items db))) db)).
Proof.
  induction carts0 as [|cart carts0 IH]; intros db.
  - apply Db_ext; simpl; try done. by rewrite app_nil_r.
  - cbn [foldl]. rewrite IH, sweep_cart_spec, bind_cons.
    apply Db_ext; simpl; try done.
    + by rewrite release_all_app.
    + by rewrite fmap_app, app_assoc.
Qed.

Lemma handleCron_spec now db :
  handleCron now db =
    set_carts (λ t, foldl (λ t cart, alter with_expired cart.1 t) t (expired_carts now db))
      (set_inventory_logs (λ t, t ++ (release_log <$> sweep_releases now db))
         (set_inventory (release_all now (sweep_releases now db)) db)).
Proof. unfold handleCron. by rewrite sweep_carts_spec. Qed.

Lemma with_expired_idemp c : with_expired (with_expired c) = with_expired c.
Proof. done. Qed.

Lemma foldl_alter_lookup (f : Cart → Cart) (l : list (string * Cart)) :
  (∀ c, f (f c) = f c) →
  ∀ (t : gmap string Cart) k,
    foldl (λ t cart, alter f cart.1 t) t l !! k =
      if decide (k ∈ l.*1) then f <$> t !! k else t !! k.
Proof.
  intros Hf. induction l as [|[k' c'] l IH]; intros t k.
  - done.
  - rewrite fmap_cons. cbn [foldl fst]. rewrite IH, lookup_alter.
    destruct (decide (k' = k)) as [->|Hne].
    + rewrite (decide_True (P := k ∈ k :: l.*1)) by apply list_elem_of_here.
      case_decide; [|done]. destruct (t !! k); simpl; [|done]. by rewrite Hf.
    + destruct (decide (k ∈ l.*1)) as [Hin|Hnin].
      * rewrite decide_True; [done|]. by apply list_elem_of_further.
      * rewrite decide_False; [done|]. intros [?|?]%elem_of_cons; congruence.
Qed.

Lemma elem_of_expired_carts now db k :
  k ∈ (expired_carts now db).*1 ↔ ∃ c, carts db !! k = Some c ∧ sweepable now c.
Proof.
  unfold expired_carts. rewrite list_elem_of_fmap. split.
  - intros ([k' c] & -> & Hin). apply elem_of_map_to_list in Hin.
    apply map_lookup_filter_Some in Hin as [Hc HP]. by exists c.
  - intros (c & Hc & HP). exists (k, c). split; [done|].
    apply elem_of_map_to_list. by apply map_lookup_filter_Some.
Qed.

(** The carts after a sweep, row by row. *)
Lemma handleCron_carts now db k :
  carts (handleCron now db) !! k =
    (λ c, if decide (sweepable now c) then with_expired c else c) <$> carts db !! k.
Proof.
  rewrite handleCron_spec. simpl.
  rewrite (foldl_alter_lookup with_expired _ with_expired_idemp).
  destruct (carts db !! k) as [c|] eqn:Hc; simpl.
  - destruct (decide (sweepable now c)) as [HP|HP].
    + rewrite decide_True; [done|]. apply elem_of_expired_carts. eauto.
    + rewrite decide_False; [done|]. intros (c' & Hc' & HP')%elem_of_expired_carts.
      congruence.
  - by case_decide.
Qed.

Lemma sweep_releases_nonneg now db :
  Forall (λ it, 0 ≤ qty it) (cart_items db) →
  Forall (λ r : string * string * Z, 0 ≤ r.2) (sweep_releases now db).
Proof.
  rewrite !Forall_forall. intros Hq r.
  unfold sweep_releases, releases_of.
  intros (cart & Hr & _)%list_elem_of_bind.
  apply list_elem_of_fmap in Hr as (it & -> & Hit).
  apply list_elem_of_filter in Hit as [_ Hit]. simpl. auto.
Qed.

Lemma handleCron_preserves_ok now db :
  Forall (λ it, 0 ≤ qty it) (cart_items db) →
  ledger_ok (inventory db) → ledger_ok (inventory (handleCron now db)).
Proof.
  intros Hq Hok. rewrite handleCron_spec. simpl.
  apply release_all_preserves_ok; [by apply sweep_releases_nonneg | done].
Qed.

(** Every row the items route writes has a quantity of at least one. *)
Lemma validate_items_positive storeId db items validated :
  validate_items storeId db items = inr validated →
  Forall (λ v, 1 ≤ iv_qty v) validated.
Proof.
  revert validated. induction items as [|it items IH]; intros validated; simpl.
  - by intros [= <-].
  - destruct (String.eqb (req_sku it) ""); [done|]. simpl.
    destruct (Z.ltb_spec (req_qty it) 1); [done|].
    destruct (variants db !! (storeId, req_sku it)); [|done].
    destruct (negb (v_active v)); [done|].
    destruct (available storeId (req_sku it) (inventory db) <? req_qty it); [done|].
    destruct (validate_items storeId db items); [done|].
    intros [= <-]. constructor; [done|]. by apply IH.
Qed.

Lemma replace_items_positive now storeId cartId items db :
  Forall (λ it, 1 ≤ qty it) (cart_items db) →
  Forall (λ it, 1 ≤ qty it) (cart_items (replace_items now storeId cartId items db).1).
Proof.
  intros Hq. unfold replace_items.
  destruct items as [[|it items]|]; [done| |done].
  destruct (select_cart cartId storeId db) as [cart|]; [|done].
  destruct (negb (bool_decide (status cart = open))); [done|].
  destruct (validate_items storeId db (it :: items)) as [e|validated] eqn:Hv; [done|].
  apply validate_items_positive in Hv.
  match goal with |- context [recalc_discount ?a ?b ?c ?d ?e ?f] =>
    assert (cart_items (recalc_discount a b c d e f).1.1 = cart_items f) as Hci;
    [unfold recalc_discount; repeat case_match; done|];
    destruct (recalc_discount a b c d e f) as [[db3 info] amount] end.
  simpl in *. rewrite Hci. simpl.
  apply Forall_app. split.
  - rewrite Forall_forall in Hq |- *. intros x [_ Hx]%list_elem_of_filter. auto.
  - apply Forall_fmap. eapply Forall_impl; [exact Hv|]. done.
Qed.

(** ** The conditional reservation *)

(** C2 (as amended): the conditional update of checkout changes a row if and
    only if the row exists and [on_hand - reserved >= qty] holds in it; it
    then replaces the row by the row with reserved incremented by exactly
    qty, on_hand as it was and updated_at set to the time of the update, and
    leaves every other row as it was; otherwise the inventory is unchanged.
    The number of rows changed is 0 or 1, and it is what the reservation loop
    of checkout branches on. *)
Theorem reserve_conditional_update now s k q inv :
  ((reserve now s k q inv).2 ≠ 0%nat ↔
     ∃ r, inv !! (s, k) = Some r ∧ q ≤ on_hand r - reserved r) ∧
  (∀ r, inv !! (s, k) = Some r → q ≤ on_hand r - reserved r →
     reserve now s k q inv =
       (<[(s, k) := {| on_hand := on_hand r; reserved := reserved r + q;
                       updated_at := now |}]> inv, 1%nat)) ∧
  ((reserve now s k q inv).2 = 0%nat → (reserve now s k q inv).1 = inv) ∧
  (∀ key, key ≠ (s, k) → (reserve now s k q inv).1 !! key = inv !! key) ∧
  ((reserve now s k q inv).2 = 0%nat ∨ (reserve now s k q inv).2 = 1%nat) ∧
  (∀ item items acc,
     sku item = k → qty item = q →
     reserve_items now s (item :: items) acc inv =
       if Nat.eqb (reserve now s k q inv).2 0
       then (releaseReservedInventory now s acc (reserve now s k q inv).1, inl k)
       else reserve_items now s items (acc ++ [tracked item]) (reserve now s k q inv).1).
Proof.
  split; [apply reserve_succeeds_iff|].
  split.
  { intros r Hr Hq. unfold reserve, update_where. rewrite Hr.
    destruct (Z.leb_spec q (on_hand r - reserved r)); [done | lia]. }
  split; [apply reserve_unchanged|].
  split.
  { intros key Hne. rewrite reserve_lookup. by rewrite decide_False. }
  split; [apply reserve_changes_01|].
  intros item items acc <- <-. apply reserve_items_cons.
Qed.

(** The theorem at a reservation of three A out of five. *)
Lemma reserve_conditional_update_witness :
  inventory Sample.db0 !! ("s1", "A") = Some (Sample.inv_row 5 0) ∧
  reserve 1000 "s1" "A" 3 (inventory Sample.db0) =
    (<[("s1", "A") := {| on_hand := 5; reserved := 3; updated_at := 1000 |}]>
       (inventory Sample.db0), 1%nat).
Proof.
  split; [reflexivity|].
  destruct (reserve_conditional_update 1000 "s1" "A" 3 (inventory Sample.db0))
    as (_ & H & _).
  apply (H (Sample.inv_row 5 0)); [reflexivity | vm_compute; discriminate].
Defined.

(** C2, as stated, fails in its frame: a reservation that succeeds changes
    one more column than reserved, the timestamp of the row. *)
Lemma reserve_touches_updated_at :
  ∃ r r',
    inventory Sample.db0 !! ("s1", "A") = Some r ∧
    (reserve 1000 "s1" "A" 3 (inventory Sample.db0)).2 = 1%nat ∧
    (reserve 1000 "s1" "A" 3 (inventory Sample.db0)).1 !! ("s1", "A") = Some r' ∧
    r' ≠ {| on_hand := on_hand r; reserved := reserved r + 3; updated_at := updated_at r |}.
Proof.
  exists (Sample.inv_row 5 0), {| on_hand := 5; reserved := 3; updated_at := 1000 |}.
  split; [reflexivity|]. split; [reflexivity|]. split; [vm_compute; reflexivity|].
  discriminate.
Qed.

(** ** Release, its log, and the sweep *)

Lemma release_item_spec now s db item :
  inventory (release_item now s db item)
    = (release now s (sku item) (qty item) (inventory db)).1 ∧
  inventory_logs (release_item now s db item) =
    inventory_logs db ++ [{| l_store_id := s; l_sku := sku item; delta := - qty item;
                             reason := "release" |}].
Proof. done. Qed.

(** C8 (as amended): every release, in the rollback of checkout and in the
    sweep, is the same floored decrement: reserved becomes
    [max(reserved - qty, 0)], on_hand stays.  The sweep appends, for each
    release, a log entry with reason "release" and delta [-qty]; the rollback
    of checkout appends none: no checkout changes the inventory log. *)
Theorem release_floors_and_sweep_logs now s :
  (∀ k q inv,
     (release now s k q inv).1 !! (s, k) =
       (λ r, {| on_hand := on_hand r; reserved := Z.max (reserved r - q) 0;
                updated_at := now |}) <$> inv !! (s, k)) ∧
  (∀ item reservedItems inv,
     releaseReservedInventory now s (item :: reservedItems) inv =
       releaseReservedInventory now s reservedItems (release now s item.1 item.2 inv).1) ∧
  (∀ db item,
     inventory (release_item now s db item)
       = (release now s (sku item) (qty item) (inventory db)).1 ∧
     inventory_logs (release_item now s db item)
       = inventory_logs db ++ [{| l_store_id := s; l_sku := sku item; delta := - qty item;
                                  reason := "release" |}]) ∧
  (∀ db,
     inventory (handleCron now db) = release_all now (sweep_releases now db) (inventory db) ∧
     inventory_logs (handleCron now db)
       = inventory_logs db ++ (release_log <$> sweep_releases now db)) ∧
  (∀ stripe store cartId body db,
     inventory_logs (checkout stripe now s store cartId body db).1 = inventory_logs db).
Proof.
  split. { intros k q inv. rewrite release_lookup. by rewrite decide_True. }
  split; [done|].
  split; [intros; apply release_item_spec|].
  split. { intros db. by rewrite handleCron_spec. }
  intros. apply checkout_inventory.
Qed.

(** C8, as stated, fails for the rollback: the failing checkout of the
    rollback example reserved five A, released them again, and the log has
    no entry for it. *)
Lemma rollback_release_not_logged :
  let r := checkout Sample.stripe_ok 9 "s1" Sample.s1 "c3" Sample.urls Sample.dbE in
  r.2 = inl (insufficientInventory "B") ∧
  inventory r.1 =
    releaseReservedInventory 9 "s1" [("A", 5)]
      (reserve 9 "s1" "A" 5 (inventory Sample.dbE)).1 ∧
  (release 9 "s1" "A" 5 (reserve 9 "s1" "A" 5 (inventory Sample.dbE)).1).2 = 1%nat ∧
  ¬ ∃ entry, entry ∈ inventory_logs r.1 ∧ reason entry = "release".
Proof.
  split; [vm_compute; reflexivity|].
  split; [vm_compute; reflexivity|].
  split; [vm_compute; reflexivity|].
  intros (entry & Hin & _). vm_compute in Hin. by apply elem_of_nil in Hin.
Qed.

(** C6: the sweep moves to expired exactly the carts that are open and past
    their expiry, and leaves every other cart row as it is; in the pass of
    one cart the releases of its items come first and the transition last;
    each release is the floored decrement of reserved by the quantity of the
    item. *)
Theorem sweep_expires_exactly now db :
  (∀ k, carts (handleCron now db) !! k =
          (λ c, if decide (status c = open ∧ expires_at c < now)
                then with_expired c else c) <$> carts db !! k) ∧
  (∀ k c, carts db !! k = Some c → ¬ (status c = open ∧ expires_at c < now) →
          carts (handleCron now db) !! k = Some c) ∧
  (∀ k c, carts db !! k = Some c → status c = open → expires_at c < now →
          carts (handleCron now db) !! k = Some (with_expired c)) ∧
  (∀ c, status (with_expired c) = expired) ∧
  handleCron now db = foldl (sweep_cart now) db (expired_carts now db) ∧
  (∀ db0 cart,
     sweep_cart now db0 cart =
       set_carts (alter with_expired cart.1)
         (foldl (release_item now (store_id cart.2)) db0 (select_cart_items cart.1 db0))) ∧
  inventory (handleCron now db) = release_all now (sweep_releases now db) (inventory db) ∧
  (∀ s k q inv,
     (release now s k q inv).1 !! (s, k) =
       (λ r, {| on_hand := on_hand r; reserved := Z.max (reserved r - q) 0;
                updated_at := now |}) <$> inv !! (s, k)) ∧
  cart_items (handleCron now db) = cart_items db.
Proof.
  split; [apply handleCron_carts|].
  split. { intros k c Hc Hn. rewrite handleCron_carts, Hc. simpl. by rewrite decide_False. }
  split. { intros k c Hc Ho He. rewrite handleCron_carts, Hc. simpl. by rewrite decide_True. }
  split; [done|]. split; [done|]. split; [done|].
  split. { by rewrite handleCron_spec. }
  split. { intros s k q inv. rewrite release_lookup. by rewrite decide_True. }
  by rewrite handleCron_spec.
Qed.

(** The cart created at T: a sweep at T + 29 min changes nothing at all; a
    sweep at T + 31 min expires the open cart c2 and releases its five units,
    and does not touch the checked-out cart c1. *)
Example sweep_29_31 :
  expires_at <$> carts Sample.db5 !! "c2" = Some (0 + THIRTY_MINUTES) ∧
  handleCron Sample.T29 Sample.db5 = Sample.db5 ∧
  status <$> carts (handleCron Sample.T31 Sample.db5) !! "c2" = Some expired ∧
  carts (handleCron Sample.T31 Sample.db5) !! "c1" = carts Sample.db5 !! "c1" ∧
  status <$> carts Sample.db5 !! "c1" = Some checked_out ∧
  reserved <$> inventory Sample.db5 !! ("s1", "A") = Some 5 ∧
  reserved <$> inventory (handleCron Sample.T31 Sample.db5) !! ("s1", "A") = Some 0.
Proof. repeat split; vm_compute; reflexivity. Qed.

(** ** The webhook *)

Lemma stripe_webhook_verified stripe parse now oid req db storeId event :
  verified stripe parse req db = Some (storeId, event) →
  stripe_webhook stripe parse now oid req db =
    if event_seen (ev_id event) db then (db, inr tt)
    else
      (set_events (λ t, t ++ [event_row storeId event])
         (if String.eqb (ev_type event) "checkout.session.completed"
          then materialize_order now oid storeId (ev_object event) db else db),
       inr tt).
Proof.
  unfold verified, stripe_webhook.
  destruct (signature req) as [sig|]; [|done]. simpl.
  destruct (parse (body req)) as [raw|]; [|by destruct (String.eqb sig "")]. simpl.
  destruct (raw_store_id raw) as [sid|]; [|by destruct (String.eqb sig "")]. simpl.
  destruct (stores db !! sid ≫= stripe_webhook_secret) as [secret|];
    [|by destruct (String.eqb sig ""), (String.eqb sid "")]. simpl.
  destruct (String.eqb sig ""); [done|].
  destruct (String.eqb sid ""); [done|].
  destruct (String.eqb secret ""); [done|]. simpl.
  destruct (constructEventAsync stripe (body req) sig secret) as [msg|ev]; [done|].
  by intros [= <- <-].
Qed.

Lemma stripe_webhook_rejected stripe parse now oid req db :
  verified stripe parse req db = None →
  ∃ e, stripe_webhook stripe parse now oid req db = (db, inl e).
Proof.
  unfold verified, stripe_webhook.
  destruct (signature req) as [sig|]; [|by eauto]. simpl.
  destruct (String.eqb sig ""); [by eauto|].
  destruct (parse (body req)) as [raw|]; [|by eauto]. simpl.
  destruct (raw_store_id raw) as [sid|]; [|by eauto]. simpl.
  destruct (String.eqb sid ""); [by eauto|].
  destruct (stores db !! sid ≫= stripe_webhook_secret) as [secret|]; [|by eauto]. simpl.
  destruct (String.eqb secret ""); [by eauto|]. simpl.
  destruct (constructEventAsync stripe (body req) sig secret) as [msg|ev]; [by eauto|done].
Qed.

Lemma verified_stores stripe parse req db db' :
  stores db' = stores db → verified stripe parse req db' = verified stripe parse req db.
Proof. unfold verified. by intros ->. Qed.

(** The sale loop: it writes the order items, the inventory and the log. *)
Lemma sell_items_spec now s oid items : ∀ db,
  foldl (sell_item now s oid) db items =
    set_inventory_logs (λ t, t ++ (sale_log s <$> items))
      (set_inventory (sell_all now s items)
         (set_order_items (λ t, t ++ (order_item_of oid <$> items)) db)).
Proof.
  induction items as [|item items IH]; intros db.
  - apply Db_ext; simpl; try done; by rewrite app_nil_r.
  - simpl. rewrite IH. apply Db_ext; simpl; try done; by rewrite <- app_assoc.
Qed.

Lemma webhook_discount_frame now s session cart db db1 dc di amt track :
  webhook_discount now s session cart db = (db1, dc, di, amt, track) →
  db1 = db ∨ ∃ did, db1 = set_discounts (λ t, (count_usage now did t).1) db.
Proof.
  unfold webhook_discount. intros H.
  repeat case_match; simplify_eq; eauto.
Qed.

(** Materialization never writes [stores] or [events], and appends at most
    one order. *)
Lemma materialize_order_frame now oid s session db :
  stores (materialize_order now oid s session db) = stores db ∧
  events (materialize_order now oid s session db) = events db ∧
  (orders (materialize_order now oid s session db) = orders db ∨
   ∃ o, orders (materialize_order now oid s session db) = orders db ++ [o] ∧ o_id o = oid).
Proof.
  unfold materialize_order.
  destruct (so_cart_id session) as [cartId|]; [|by auto].
  destruct (truthy (Some cartId)); [|by auto].
  destruct (carts db !! cartId) as [cart|]; [|by auto].
  destruct (webhook_discount now s session cart db) as [[[[db1 dc] di] amt] track] eqn:Hd.
  rewrite sell_items_spec.
  destruct (webhook_discount_frame _ _ _ _ _ _ _ _ _ _ Hd) as [->|[did ->]];
    destruct (track && truthy di); simpl;
    (split; [done|]; split; [done|]; right; eexists; split; [reflexivity|done]).
Qed.

Lemma event_seen_append eventId row db :
  stripe_event_id row = eventId →
  event_seen eventId (set_events (λ t, t ++ [row]) db) = true.
Proof.
  intros H. unfold event_seen. apply bool_decide_eq_true. simpl.
  apply Exists_app. right. by constructor.
Qed.

Lemma materialize_order_found now oid s session db cartId cart :
  so_cart_id session = Some cartId → cartId ≠ "" → carts db !! cartId = Some cart →
  ∃ db1 dc di amt track,
    webhook_discount now s session cart db = (db1, dc, di, amt, track) ∧
    (db1 = db ∨ ∃ did, db1 = set_discounts (λ t, (count_usage now did t).1) db) ∧
    materialize_order now oid s session db =
      set_outbox (λ t, t ++ [{| dp_store_id := s; dp_event := "order.created";
                                dp_order_id := oid |}])
        (set_inventory_logs (λ t, t ++ (sale_log s <$> select_cart_items cartId db))
          (set_inventory (sell_all now s (select_cart_items cartId db))
            (set_order_items (λ t, t ++ (order_item_of oid <$> select_cart_items cartId db))
              (set_discount_usage
                 (λ t, t ++ (if track && truthy di
                             then [{| u_discount_id := default "" di; u_order_id := oid;
                                      u_customer_email := toLowerCase (customer_email cart);
                                      u_discount_amount_cents := amt |}]
                             else []))
                 (set_orders (λ t, t ++ [{|
                    o_id := oid; o_store_id := s; number := next_order_number s db1;
                    o_status := "paid"; o_customer_email := customer_email cart;
                    ship_to := shipping_address session;
                    subtotal_cents := subtotal (select_cart_items cartId db);
                    tax_cents := default 0 (amount_tax session);
                    shipping_cents := default 0 (amount_shipping session);
                    total_cents := default 0 (amount_total session);
                    o_currency := Some (currency cart);
                    o_discount_code := dc; o_discount_id := di;
                    o_discount_amount_cents := amt;
                    o_stripe_checkout_session_id := Some (so_id session);
                    stripe_payment_intent_id := payment_intent session;
                    created_at := None |}]) db1))))).
Proof.
  intros Hc Hne Hcart. unfold materialize_order. rewrite Hc.
  assert (truthy (Some cartId) = true) as ->.
  { simpl. apply negb_true_iff. by apply String.eqb_neq. }
  rewrite Hcart.
  destruct (webhook_discount now s session cart db) as [[[[db1 dc] di] amt] track] eqn:Hd.
  exists db1, dc, di, amt, track. split; [done|].
  split; [by eapply webhook_discount_frame|].
  rewrite sell_items_spec.
  destruct (track && truthy di); [done|].
  apply Db_ext; simpl; try done. by rewrite app_nil_r.
Qed.

(** C4: webhook processing is idempotent per processor event id.  A delivery
    that was processed to success is a no-op when it is delivered again:
    same database, success; and so is any later delivery that verifies to an
    event with the same id.  The first processing of a verified event
    appends its Event row, whether or not an order was created, and creates
    at most one order; for a completed checkout of a known cart it creates
    exactly one order, with the items of the cart under the id of that
    order. *)
Theorem webhook_idempotent stripe parse now oid req db :
  let r := stripe_webhook stripe parse now oid req db in
  (r.2 = inr tt →
     ∀ now' oid', stripe_webhook stripe parse now' oid' req r.1 = (r.1, inr tt)) ∧
  (∀ storeId event req' storeId' event' now' oid',
     verified stripe parse req db = Some (storeId, event) →
     verified stripe parse req' r.1 = Some (storeId', event') →
     ev_id event' = ev_id event →
     stripe_webhook stripe parse now' oid' req' r.1 = (r.1, inr tt)) ∧
  (∀ storeId event,
     verified stripe parse req db = Some (storeId, event) →
     event_seen (ev_id event) db = false →
     r.2 = inr tt ∧ events r.1 = events db ++ [event_row storeId event]) ∧
  (orders r.1 = orders db ∨ ∃ o, orders r.1 = orders db ++ [o] ∧ o_id o = oid) ∧
  (∀ storeId event cartId cart,
     verified stripe parse req db = Some (storeId, event) →
     event_seen (ev_id event) db = false →
     ev_type event = "checkout.session.completed" →
     so_cart_id (ev_object event) = Some cartId → cartId ≠ "" →
     carts db !! cartId = Some cart →
     (∃ o, orders r.1 = orders db ++ [o] ∧ o_id o = oid) ∧
     order_items r.1 = order_items db ++ (order_item_of oid <$> select_cart_items cartId db)).
Proof.
  simpl.
  destruct (verified stripe parse req db) as [[storeId event]|] eqn:Hv.
  - rewrite (stripe_webhook_verified _ _ _ _ _ _ _ _ Hv).
    pose proof (materialize_order_frame now oid storeId (ev_object event) db)
      as (Hstores & Hevents & Horders).
    destruct (event_seen (ev_id event) db) eqn:Hseen.
    + split.
      { intros _ now' oid'. simpl.
        by rewrite (stripe_webhook_verified _ _ _ _ _ _ _ _ Hv), Hseen. }
      split.
      { intros ? ? req' sid' ev' now' oid' [= <- <-] Hv' Hid. simpl in *.
        by rewrite (stripe_webhook_verified _ _ _ _ _ _ _ _ Hv'), Hid, Hseen. }
      split; [intros ? ? [= <- <-] Hf; congruence|].
      split; [by left|]. intros ? ? ? ? [= <- <-] Hf. congruence.
    + split.
      { intros _ now' oid'. simpl.
        erewrite stripe_webhook_verified.
        2:{ rewrite <- Hv. apply verified_stores. simpl. by destruct (String.eqb _ _). }
        by rewrite event_seen_append. }
      split.
      { intros ? ? req' sid' ev' now' oid' [= <- <-] Hv' Hid. simpl in *.
        rewrite (stripe_webhook_verified _ _ _ _ _ _ _ _ Hv'), Hid.
        by rewrite event_seen_append. }
      split.
      { intros ? ? [= <- <-] _. split; [done|]. simpl.
        destruct (String.eqb _ _); simpl; by rewrite ?Hevents. }
      split.
      { simpl. destruct (String.eqb _ _); simpl; [done | by left]. }
      intros sid ev cartId cart [= <- <-] _ Hty Hc Hne Hcart. rewrite Hty. simpl.
      destruct (materialize_order_found now oid storeId _ db cartId cart Hc Hne Hcart)
        as (db1 & dc & di & amt & track & _ & Hfr & ->). simpl.
      destruct Hfr as [->|[did ->]]; simpl; eauto.
  - destruct (stripe_webhook_rejected stripe parse now oid req db Hv) as [e ->]. simpl.
    split; [done|]. split; [done|]. split; [done|]. split; [by left|]. done.
Qed.

(** The theorem at the second delivery of the event of cart c1. *)
Lemma webhook_idempotent_witness :
  (stripe_webhook Sample.stripe_ok Sample.parse_s1 Sample.T31 "o1"
     (Sample.paid "evt_1") Sample.db6).2 = inr tt ∧
  stripe_webhook Sample.stripe_ok Sample.parse_s1 (Sample.T31 + 5) "o2"
     (Sample.paid "evt_1") Sample.db7 = (Sample.db7, inr tt).
Proof.
  assert ((stripe_webhook Sample.stripe_ok Sample.parse_s1 Sample.T31 "o1"
     (Sample.paid "evt_1") Sample.db6).2 = inr tt) as H by (vm_compute; reflexivity).
  split; [exact H|].
  destruct (webhook_idempotent Sample.stripe_ok Sample.parse_s1 Sample.T31 "o1"
              (Sample.paid "evt_1") Sample.db6) as (Hidem & _).
  exact (Hidem H (Sample.T31 + 5) "o2").
Defined.

(** Delivered twice, the event of the first trace leaves one order and one
    order item. *)
Example redelivery_one_order :
  length (orders Sample.db6) = 0%nat ∧
  length (orders Sample.db7) = 1%nat ∧
  length (order_items Sample.db7) = 1%nat ∧
  (stripe_webhook Sample.stripe_ok Sample.parse_s1 (Sample.T31 + 5) "o2"
     (Sample.paid "evt_1") Sample.db7) = (Sample.db7, inr tt).
Proof. repeat split; vm_compute; reflexivity. Qed.

(** ** Discount accounting of the webhook *)

Lemma select_discount_Some did s db d :
  select_discount did s db = Some d → discounts db !! did = Some d.
Proof.
  unfold select_discount. destruct (discounts db !! did) as [d'|]; [|done].
  case_decide; [|done]. by intros [= ->].
Qed.

Lemma webhook_discount_found now s session cart db did d :
  so_discount_id session = Some did → did ≠ "" → select_discount did s db = Some d →
  let amount := default 0 (discount_amount_cents cart) in
  let tracked :=
    bool_decide (d_status d = active) && within (starts_at d) (d_expires_at d) now
    && (0 <? amount) in
  webhook_discount now s session cart db =
    (if tracked then set_discounts (λ t, (count_usage now did t).1) db else db,
     Some (code d), Some did, amount, tracked).
Proof.
  intros Hd Hne Hsel. unfold webhook_discount. rewrite Hd.
  assert (truthy (Some did) = true) as ->.
  { simpl. apply negb_true_iff. by apply String.eqb_neq. }
  rewrite Hsel. unfold within. simpl.
  by rewrite <- (andb_assoc (bool_decide (d_status d = active))).
Qed.

Lemma count_usage_lookup now did t d :
  t !! did = Some d →
  usage_count <$> (count_usage now did t).1 !! did =
    Some (usage_count d + if below (usage_limit d) (usage_count d) then 1 else 0).
Proof.
  intros Hd. unfold count_usage. rewrite update_where_lookup, decide_True, Hd by done.
  simpl. destruct (below (usage_limit d) (usage_count d)); simpl; f_equal; lia.
Qed.

(** C5 (as amended): when the webhook materializes the order of a cart whose
    session names a discount that still exists, the order records the amount
    stored on the cart at checkout.  The usage is tracked when the discount
    is active, inside its window, and the amount is positive; usage_count is
    incremented when the usage is tracked and the conditional update matches
    ([usage_limit] null or [usage_count < usage_limit]), so it never passes a
    limit it was within.  The DiscountUsage row, with the lower-cased email,
    is appended when the usage is tracked, whether or not the conditional
    update counted it. *)
Theorem order_discount_accounting now oid s session db cartId cart did d :
  so_cart_id session = Some cartId → cartId ≠ "" → carts db !! cartId = Some cart →
  so_discount_id session = Some did → did ≠ "" → select_discount did s db = Some d →
  let db' := materialize_order now oid s session db in
  let amount := default 0 (discount_amount_cents cart) in
  let tracked :=
    bool_decide (d_status d = active) && within (starts_at d) (d_expires_at d) now
    && (0 <? amount) in
  let counted := tracked && below (usage_limit d) (usage_count d) in
  (∃ o, orders db' = orders db ++ [o] ∧ o_id o = oid ∧
        o_discount_amount_cents o = amount ∧
        o_discount_id o = Some did ∧ o_discount_code o = Some (code d)) ∧
  usage_count <$> discounts db' !! did
    = Some (usage_count d + if counted then 1 else 0) ∧
  (∀ l n, usage_limit d = Some l → usage_count d ≤ l →
          usage_count <$> discounts db' !! did = Some n → n ≤ l) ∧
  discount_usage db' =
    discount_usage db ++
      (if tracked
       then [{| u_discount_id := did; u_order_id := oid;
                u_customer_email := toLowerCase (customer_email cart);
                u_discount_amount_cents := amount |}]
       else []).
Proof.
  intros Hc Hcne Hcart Hd Hdne Hsel. simpl.
  destruct (materialize_order_found now oid s session db cartId cart Hc Hcne Hcart)
    as (db1 & dc & di & amt & track & Hwd & _ & ->).
  rewrite (webhook_discount_found now s session cart db did d Hd Hdne Hsel) in Hwd.
  simpl in Hwd. injection Hwd as <- <- <- <- <-.
  assert (truthy (Some did) = true) as Htr.
  { simpl. apply negb_true_iff. by apply String.eqb_neq. }
  apply select_discount_Some in Hsel.
  set (tracked := bool_decide (d_status d = active)
                  && within (starts_at d) (d_expires_at d) now
                  && (0 <? default 0 (discount_amount_cents cart))).
  assert (usage_count <$>
            discounts (if tracked then set_discounts (λ t, (count_usage now did t).1) db
                       else db) !! did
          = Some (usage_count d +
                  if tracked && below (usage_limit d) (usage_count d) then 1 else 0)) as Hcount.
  { destruct tracked; simpl.
    - by apply count_usage_lookup.
    - rewrite Hsel. simpl. f_equal. lia. }
  clearbody tracked.
  split.
  { destruct tracked; simpl; (eexists; split; [reflexivity | done]). }
  split; [by destruct tracked|].
  split.
  { intros l n Hl Hle. simpl. rewrite Hcount. intros [= <-].
    unfold below. rewrite Hl.
    destruct tracked; simpl; [|lia].
    destruct (Z.ltb_spec (usage_count d) l); lia. }
  simpl in Htr |- *. rewrite Htr, andb_true_r. by destruct tracked.
Qed.

(** The theorem at the first payment of the discount example. *)
Lemma order_discount_accounting_witness :
  let session := ev_object (Sample.event_of_body "evt_k1") in
  carts Sample.dk8 !! "k1" ≫= discount_amount_cents = Some 500 ∧
  ∃ o, orders (materialize_order 7 "o1" "s1" session Sample.dk8)
         = orders Sample.dk8 ++ [o] ∧
       o_discount_amount_cents o = 500.
Proof.
  split; [vm_compute; reflexivity|].
  assert (∃ cart, carts Sample.dk8 !! "k1" = Some cart ∧
                  discount_amount_cents cart = Some 500) as (cart & Hcart & Hamt).
  { eexists. split; [vm_compute; reflexivity | reflexivity]. }
  destruct (order_discount_accounting 7 "o1" "s1"
              (ev_object (Sample.event_of_body "evt_k1")) Sample.dk8 "k1" cart "d1"
              Sample.save5) as ((o & Ho & _ & Ha & _) & _);
    [reflexivity | discriminate | exact Hcart | reflexivity | discriminate
     | vm_compute; reflexivity |].
  exists o. split; [exact Ho|]. rewrite Ha, Hamt. reflexivity.
Defined.

(** C5, as stated, fails in its last part.  SAVE5 may be used once; two
    carts checked out with it while it was unused.  The first payment counts
    the usage; the second finds the limit reached and does not count, and yet
    a second DiscountUsage row is appended.  Both orders record the 500
    charged. *)
Lemma usage_row_without_count :
  usage_count <$> discounts Sample.dk8 !! "d1" = Some 0 ∧
  usage_count <$> discounts Sample.dk9 !! "d1" = Some 1 ∧
  usage_count <$> discounts Sample.dk10 !! "d1" = Some 1 ∧
  discount_usage Sample.dk10 =
    discount_usage Sample.dk9 ++
      [{| u_discount_id := "d1"; u_order_id := "o2";
          u_customer_email := "bob@example.com"; u_discount_amount_cents := 500 |}] ∧
  o_discount_amount_cents <$> orders Sample.dk10 = [500; 500].
Proof. repeat split; vm_compute; reflexivity. Qed.

(** ** Discount calculation *)

(** The cases of [tests/discounts.test.ts], run on the model. *)
Example calculateDiscount_tests :
  calculateDiscount (Sample.test_discount percentage 10 None) 10000 = 1000 ∧
  calculateDiscount (Sample.test_discount percentage 25 None) 4000 = 1000 ∧
  calculateDiscount (Sample.test_discount percentage 100 None) 5000 = 5000 ∧
  calculateDiscount (Sample.test_discount percentage 15 None) 999 = 149 ∧
  calculateDiscount (Sample.test_discount percentage 50 (Some 1000)) 10000 = 1000 ∧
  calculateDiscount (Sample.test_discount percentage 10 (Some 5000)) 10000 = 1000 ∧
  calculateDiscount (Sample.test_discount fixed_amount 500 None) 2000 = 500 ∧
  calculateDiscount (Sample.test_discount fixed_amount 5000 None) 2000 = 2000 ∧
  calculateDiscount (Sample.test_discount fixed_amount 1000 None) 1000 = 1000 ∧
  calculateDiscount (Sample.test_discount percentage 10 None) 0 = 0 ∧
  calculateDiscount (Sample.test_discount percentage 0 None) 10000 = 0.
Proof. repeat split. Qed.

(** C7: [calculateDiscount] over integer cents.  A percentage discount gives
    the floor of [subtotal * value / 100], capped by [max_discount_cents]
    when that is set; a fixed-amount discount gives [min(value, subtotal)],
    never more than the subtotal; with amounts that are not negative, a zero
    subtotal or a zero value gives zero; and the three sample values are 149,
    2000 and 1000. *)
Theorem calculateDiscount_spec d subtotalCents :
  let floor_pct := (subtotalCents * value d) `div` 100 in
  (100 * floor_pct ≤ subtotalCents * value d < 100 * floor_pct + 100) ∧
  (type d = percentage → max_discount_cents d = None →
     calculateDiscount d subtotalCents = floor_pct) ∧
  (type d = percentage → ∀ cap, max_discount_cents d = Some cap →
     calculateDiscount d subtotalCents = Z.min floor_pct cap ∧
     calculateDiscount d subtotalCents ≤ cap) ∧
  (type d = fixed_amount →
     calculateDiscount d subtotalCents = Z.min (value d) subtotalCents ∧
     calculateDiscount d subtotalCents ≤ subtotalCents) ∧
  (0 ≤ subtotalCents → 0 ≤ value d →
   (∀ cap, max_discount_cents d = Some cap → 0 ≤ cap) →
   subtotalCents = 0 ∨ value d = 0 → calculateDiscount d subtotalCents = 0) ∧
  calculateDiscount (Sample.test_discount percentage 15 None) 999 = 149 ∧
  calculateDiscount (Sample.test_discount fixed_amount 5000 None) 2000 = 2000 ∧
  calculateDiscount (Sample.test_discount percentage 50 (Some 1000)) 10000 = 1000.
Proof.
  simpl.
  split.
  { pose proof (Z.div_mod (subtotalCents * value d) 100 ltac:(lia)) as Hdm.
    pose proof (Z.mod_pos_bound (subtotalCents * value d) 100 ltac:(lia)). lia. }
  unfold calculateDiscount.
  split. { by intros -> ->. }
  split. { intros -> cap ->. split; [done | lia]. }
  split. { intros ->. split; [done | lia]. }
  split; [|done].
  intros Hsub Hval Hcap Hz. destruct (type d).
  - assert (subtotalCents * value d = 0) as -> by (destruct Hz as [-> | ->]; lia).
    change (0 `div` 100) with 0.
    destruct (max_discount_cents d) as [cap|] eqn:E; [|done].
    specialize (Hcap cap eq_refl). lia.
  - destruct Hz as [-> | ->]; lia.
Qed.

(** The theorem at a capped percentage discount and an empty cart. *)
Lemma calculateDiscount_spec_witness :
  0 ≤ 0 ∧ 0 ≤ value (Sample.test_discount percentage 10 (Some 300)) ∧
  calculateDiscount (Sample.test_discount percentage 10 (Some 300)) 0 = 0.
Proof.
  split; [lia|]. split; [simpl; lia|].
  destruct (calculateDiscount_spec (Sample.test_discount percentage 10 (Some 300)) 0)
    as (_ & _ & _ & _ & H & _).
  apply H; [lia | simpl; lia | intros cap [= <-]; lia | by left].
Defined.

(** ** Test orders *)

Lemma deduct_items_spec now s oid items : ∀ db,
  foldl (deduct_item now s oid) db items =
    set_inventory (deduct_all now s items)
      (set_order_items
         (λ t, t ++ ((λ item, {| oi_order_id := oid; oi_sku := iv_sku item;
                                 oi_title := iv_title item; oi_qty := iv_qty item;
                                 oi_unit_price_cents := iv_unit_price_cents item |})
                     <$> items)) db).
Proof.
  induction items as [|item items IH]; intros db.
  - apply Db_ext; simpl; try done. by rewrite app_nil_r.
  - simpl. rewrite IH. apply Db_ext; simpl; try done. by rewrite <- app_assoc.
Qed.

Lemma sku_qty_cons k x l :
  sku_qty k (x :: l) = (if decide (x.1 = k) then x.2 else 0) + sku_qty k l.
Proof. unfold sku_qty. simpl. case_decide; lia. Qed.




(** Two lines of three A when five are on hand: each line passes the read,
    and on_hand ends below zero. *)
Example test_order_twice_A :
  available "s1" "A" (inventory Sample.db0) = 5 ∧
  (∃ res, (test_order 50 "s1" "t1" Sample.twice_A Sample.db0).2 = inr res) ∧
  inventory (test_order 50 "s1" "t1" Sample.twice_A Sample.db0).1 !! ("s1", "A")
    = Some {| on_hand := -1; reserved := 0; updated_at := 50 |} ∧
  inventory_logs (test_order 50 "s1" "t1" Sample.twice_A Sample.db0).1 = [].
Proof.
  split; [reflexivity|]. split; [eexists; vm_compute; reflexivity|].
  split; vm_compute; reflexivity.
Qed.

(** ** Cart operations and the expiry *)

Lemma alter_with_expires_comm (f : Cart → Cart) e c cartId (t : gmap string Cart) :
  (∀ x, f (with_expires_at e x) = with_expires_at e (f x)) →
  alter f cartId (alter (with_expires_at e) c t) =
  alter (with_expires_at e) c (alter f cartId t).
Proof.
  intros Hf. apply map_eq. intros k. rewrite !lookup_alter.
  destruct (decide (cartId = k)) as [->|]; destruct (decide (c = k)) as [->|];
    rewrite ?lookup_alter, ?decide_True, ?decide_False by done; try done.
  destruct (t !! k) as [x|]; simpl; [|done]. by rewrite Hf.
Qed.

Lemma set_carts_set_expires (f : Cart → Cart) e c cartId db :
  (∀ x, f (with_expires_at e x) = with_expires_at e (f x)) →
  set_carts (alter f cartId) (set_expires e c db) =
  set_expires e c (set_carts (alter f cartId) db).
Proof.
  intros Hf. unfold set_expires, set_carts. simpl.
  by rewrite alter_with_expires_comm.
Qed.

Lemma select_cart_set_expires e c cartId s db :
  select_cart cartId s (set_expires e c db) = touch e c cartId <$> select_cart cartId s db.
Proof.
  unfold select_cart, set_expires, touch. simpl. rewrite lookup_alter.
  destruct (decide (c = cartId)) as [->|]; destruct (carts db !! cartId) as [x|]; simpl;
    try done; by case_decide.
Qed.

Lemma validate_items_set_expires e c s db items :
  validate_items s (set_expires e c db) items = validate_items s db items.
Proof. induction items as [|it items IH]; simpl; [done|]. by rewrite IH. Qed.

Lemma checkout_discount_set_expires now s cartId cart sub e c db :
  checkout_discount now s cartId (touch e c cartId cart) sub (set_expires e c db) =
    let '(db1, a, d) := checkout_discount now s cartId cart sub db in
    (set_expires e c db1, a, d).
Proof.
  unfold checkout_discount.
  assert (discount_id (touch e c cartId cart) = discount_id cart) as ->
    by (unfold touch; by case_decide).
  assert (customer_email (touch e c cartId cart) = customer_email cart) as ->
    by (unfold touch; by case_decide).
  destruct (discount_id cart) as [did|]; [|done].
  destruct (truthy (Some did)); [|done].
  change (select_discount did s (set_expires e c db)) with (select_discount did s db).
  destruct (select_discount did s db) as [d|].
  - change (validateDiscount now (set_expires e c db) did d sub (customer_email cart))
      with (validateDiscount now db did d sub (customer_email cart)).
    destruct (validateDiscount now db did d sub (customer_email cart)); [done|].
    by rewrite set_carts_set_expires.
  - by rewrite set_carts_set_expires.
Qed.

Lemma recalc_discount_set_expires now s cartId cart sub e c db :
  recalc_discount now s cartId (touch e c cartId cart) sub (set_expires e c db) =
    let '(db1, info, a) := recalc_discount now s cartId cart sub db in
    (set_expires e c db1, info, a).
Proof.
  unfold recalc_discount.
  assert (discount_id (touch e c cartId cart) = discount_id cart) as ->
    by (unfold touch; by case_decide).
  assert (customer_email (touch e c cartId cart) = customer_email cart) as ->
    by (unfold touch; by case_decide).
  destruct (discount_id cart) as [did|]; [|done].
  destruct (truthy (Some did)); [|done].
  change (select_discount did s (set_expires e c db)) with (select_discount did s db).
  destruct (select_discount did s db) as [d|].
  - change (validateDiscount now (set_expires e c db) did d sub (customer_email cart))
      with (validateDiscount now db did d sub (customer_email cart)).
    destruct (validateDiscount now db did d sub (customer_email cart)).
    + by rewrite set_carts_set_expires.
    + by rewrite set_carts_set_expires.
  - by rewrite set_carts_set_expires.
Qed.

Lemma remove_discount_set_expires e c s cartId db :
  remove_discount s cartId (set_expires e c db) =
    (set_expires e c (remove_discount s cartId db).1, (remove_discount s cartId db).2).
Proof.
  unfold remove_discount. rewrite select_cart_set_expires.
  destruct (select_cart cartId s db) as [cart|]; simpl; [|done].
  assert (status (touch e c cartId cart) = status cart) as ->
    by (unfold touch; by case_decide).
  destruct (bool_decide (status cart = open)); simpl; [|done].
  by rewrite set_carts_set_expires.
Qed.

Lemma apply_discount_set_expires e c now s cartId code_in db :
  apply_discount now s cartId code_in (set_expires e c db) =
    (set_expires e c (apply_discount now s cartId code_in db).1,
     (apply_discount now s cartId code_in db).2).
Proof.
  unfold apply_discount. destruct (negb (truthy code_in)); [done|].
  rewrite select_cart_set_expires.
  destruct (select_cart cartId s db) as [cart|]; simpl; [|done].
  assert (status (touch e c cartId cart) = status cart) as ->
    by (unfold touch; by case_decide).
  assert (customer_email (touch e c cartId cart) = customer_email cart) as ->
    by (unfold touch; by case_decide).
  destruct (bool_decide (status cart = open)); simpl; [|done].
  change (select_discount_by_code ?x s (set_expires e c db))
    with (select_discount_by_code x s db).
  destruct (select_discount_by_code _ s db) as [[did d]|]; [|done].
  change (select_cart_items cartId (set_expires e c db)) with (select_cart_items cartId db).
  destruct (Nat.eqb (length (select_cart_items cartId db)) 0); [done|].
  change (validateDiscount now (set_expires e c db)) with (validateDiscount now db).
  destruct (validateDiscount now db did d _ (customer_email cart)); simpl; [|done].
  by rewrite set_carts_set_expires.
Qed.

Lemma set_inventory_set_expires f e c db :
  set_inventory f (set_expires e c db) = set_expires e c (set_inventory f db).
Proof. done. Qed.

Lemma checkout_set_expires e c stripe now s store cartId body db :
  checkout stripe now s store cartId body (set_expires e c db) =
    (set_expires e c (checkout stripe now s store cartId body db).1,
     (checkout stripe now s store cartId body db).2).
Proof.
  unfold checkout.
  destruct (success_url body) as [successUrl|]; [|done].
  destruct (cancel_url body) as [cancelUrl|]; [|by destruct (String.eqb successUrl "")].
  destruct (String.eqb successUrl ""); [done|].
  destruct (String.eqb cancelUrl ""); [done|].
  destruct (negb (truthy (stripe_secret_key store))); [done|].
  rewrite select_cart_set_expires.
  destruct (select_cart cartId s db) as [cart|]; simpl; [|done].
  assert (status (touch e c cartId cart) = status cart) as ->
    by (unfold touch; by case_decide).
  assert (customer_email (touch e c cartId cart) = customer_email cart) as ->
    by (unfold touch; by case_decide).
  destruct (bool_decide (status cart = open)); simpl; [|done].
  change (select_cart_items cartId (set_expires e c db)) with (select_cart_items cartId db).
  destruct (Nat.eqb (length (select_cart_items cartId db)) 0); [done|].
  rewrite checkout_discount_set_expires.
  destruct (checkout_discount now s cartId cart (subtotal (select_cart_items cartId db)) db)
    as [[db1 amount] discount].
  change (inventory (set_expires e c db1)) with (inventory db1).
  destruct (reserve_items now s (select_cart_items cartId db) [] (inventory db1))
    as [inv2 [failing|reservedItems]]; [done|].
  destruct discount as [[did d]|];
    [destruct (0 <? amount);
       [destruct (coupons_create stripe amount (or_default (code d) "Discount"))|]|];
    try done;
    (match goal with |- context [sessions_create stripe ?p] =>
       destruct (sessions_create stripe p) as [session|] end;
     simpl; rewrite ?set_inventory_set_expires, ?set_carts_set_expires by done; done).
Qed.

Lemma replace_items_set_expires e c now s cartId items db :
  replace_items now s cartId items (set_expires e c db) =
    (set_expires e c (replace_items now s cartId items db).1,
     echo_expires e c cartId (replace_items now s cartId items db).2).
Proof.
  unfold replace_items.
  destruct items as [[|it items]|]; [done| |done].
  generalize (it :: items). clear it items. intros items.
  rewrite select_cart_set_expires.
  destruct (select_cart cartId s db) as [cart|]; [|done].
  cbn [fmap option_fmap option_map].
  assert (status (touch e c cartId cart) = status cart) as Hst
    by (unfold touch; by case_decide).
  assert (customer_email (touch e c cartId cart) = customer_email cart) as Hem
    by (unfold touch; by case_decide).
  assert (currency (touch e c cartId cart) = currency cart) as Hcu
    by (unfold touch; by case_decide).
  rewrite Hst, Hem, Hcu.
  destruct (negb (bool_decide (status cart = open))); [done|].
  rewrite validate_items_set_expires.
  destruct (validate_items s db items) as [err|validated]; [done|].
  set (db2 := set_cart_items (λ t, t ++ (item_of cartId <$> validated))
                (set_cart_items (filter (λ it0, cart_id it0 ≠ cartId)) db)).
  change (set_cart_items (λ t, t ++ (item_of cartId <$> validated))
            (set_cart_items (filter (λ it0, cart_id it0 ≠ cartId)) (set_expires e c db)))
    with (set_expires e c db2).
  change (select_cart_items cartId (set_expires e c db2))
    with (select_cart_items cartId db2).
  rewrite recalc_discount_set_expires.
  destruct (recalc_discount now s cartId cart (subtotal (select_cart_items cartId db2)) db2)
    as [[db3 info] amount].
  simpl. unfold touch. by destruct (decide (c = cartId)).
Qed.

(** C9: no cart operation but the sweep looks at expires_at.  Whatever the
    expiry of any cart is set to, the items route, apply-discount,
    remove-discount and checkout take the same path to the same outcome: the
    same writes, the same success or error (the items route echoes the expiry
    of the cart it read, nothing more).  A cart past its expiry that the
    sweep has not yet visited is an open cart like any other. *)
Theorem cart_operations_ignore_expiry e c now s cartId db :
  (∀ items,
     replace_items now s cartId items (set_expires e c db) =
       (set_expires e c (replace_items now s cartId items db).1,
        echo_expires e c cartId (replace_items now s cartId items db).2)) ∧
  (∀ code_in,
     apply_discount now s cartId code_in (set_expires e c db) =
       (set_expires e c (apply_discount now s cartId code_in db).1,
        (apply_discount now s cartId code_in db).2)) ∧
  remove_discount s cartId (set_expires e c db) =
    (set_expires e c (remove_discount s cartId db).1, (remove_discount s cartId db).2) ∧
  (∀ stripe store body,
     checkout stripe now s store cartId body (set_expires e c db) =
       (set_expires e c (checkout stripe now s store cartId body db).1,
        (checkout stripe now s store cartId body db).2)).
Proof.
  split; [intros; apply replace_items_set_expires|].
  split; [intros; apply apply_discount_set_expires|].
  split; [apply remove_discount_set_expires|].
  intros; apply checkout_set_expires.
Qed.

(** Cart c1 expired at T + 30 min; at T + 31 min, not yet swept, it still
    takes new items, a checkout reserves its five units and moves it to
    checked_out. *)
Example late_checkout :
  expires_at <$> carts Sample.db4 !! "c1" = Some THIRTY_MINUTES ∧
  (∃ resp, (replace_items Sample.T31 "s1" "c1" (Some [Sample.item "A" 5]) Sample.db4).2
             = inr resp) ∧
  (checkout Sample.stripe_ok Sample.T31 "s1" Sample.s1 "c1" Sample.urls Sample.db4).2
    = inr {| checkout_url := "https://pay/cs_1"; cr_stripe_checkout_session_id := "cs_1" |} ∧
  status <$> carts (checkout Sample.stripe_ok Sample.T31 "s1" Sample.s1 "c1" Sample.urls
                      Sample.db4).1 !! "c1" = Some checked_out ∧
  reserved <$> inventory (checkout Sample.stripe_ok Sample.T31 "s1" Sample.s1 "c1"
                            Sample.urls Sample.db4).1 !! ("s1", "A") = Some 5.
Proof.
  split; [vm_compute; reflexivity|]. split; [eexists; vm_compute; reflexivity|].
  repeat split; vm_compute; reflexivity.
Qed.

(** ** The inventory invariant *)

Lemma sell_all_cons now s item items inv :
  sell_all now s (item :: items) inv =
  sell_all now s items (sell now s (sku item) (qty item) inv).1.
Proof. done. Qed.

(** The sales of a cart keep the invariant when the records still hold what
    the cart reserved. *)
Lemma sell_all_preserves_ok now s items : ∀ inv,
  Forall (λ it, 0 ≤ qty it) items →
  (∀ k r, inv !! (s, k) = Some r → sku_qty k (tracked <$> items) ≤ reserved r) →
  ledger_ok inv → ledger_ok (sell_all now s items inv).
Proof.
  induction items as [|item items IH]; intros inv HF Hcov Hok; [done|].
  apply Forall_cons in HF as [Hq HF].
  pose proof (λ k, sku_qty_nonneg k (tracked <$> items) (Forall_tracked items HF)) as Hnn.
  rewrite sell_all_cons. apply IH; [done| |].
  - intros k r. rewrite sell_lookup.
    destruct (decide ((s, sku item) = (s, k))) as [Hk|Hk].
    + injection Hk as <-. destruct (inv !! (s, sku item)) as [r0|] eqn:E; [|done].
      simpl. intros [= <-]. simpl. specialize (Hcov _ _ E).
      rewrite fmap_cons, sku_qty_cons in Hcov. simpl in Hcov.
      rewrite decide_True in Hcov by done. lia.
    + intros Hr. specialize (Hcov _ _ Hr).
      rewrite fmap_cons, sku_qty_cons in Hcov. simpl in Hcov.
      rewrite decide_False in Hcov by congruence. lia.
  - apply sell_preserves_ok; [done| |done].
    intros r Hr. specialize (Hcov _ _ Hr). specialize (Hnn (sku item)).
    rewrite fmap_cons, sku_qty_cons in Hcov. simpl in Hcov.
    rewrite decide_True in Hcov by done. lia.
Qed.

(** The inventory after a materialization is the inventory before, or the
    inventory before with the items of the cart sold. *)
Lemma materialize_order_inventory now oid s session db :
  inventory (materialize_order now oid s session db) = inventory db ∨
  ∃ cartId, so_cart_id session = Some cartId ∧
    inventory (materialize_order now oid s session db)
      = sell_all now s (select_cart_items cartId db) (inventory db).
Proof.
  destruct (so_cart_id session) as [cartId|] eqn:Hc;
    [|left; unfold materialize_order; by rewrite Hc].
  destruct (decide (cartId = "")) as [->|Hne];
    [left; unfold materialize_order; by rewrite Hc|].
  destruct (carts db !! cartId) as [cart|] eqn:Hcart.
  - right. exists cartId. split; [done|].
    destruct (materialize_order_found now oid s session db cartId cart Hc Hne Hcart)
      as (db1 & dc & di & amt & track & _ & Hfr & ->).
    by destruct Hfr as [->|[did ->]].
  - left. unfold materialize_order. rewrite Hc, Hcart. by destruct (truthy (Some cartId)).
Qed.

Lemma stripe_webhook_preserves_ok stripe parse now oid req db :
  Forall (λ it, 0 ≤ qty it) (cart_items db) →
  (∀ cartId s k r, inventory db !! (s, k) = Some r →
     sku_qty k (tracked <$> select_cart_items cartId db) ≤ reserved r) →
  ledger_ok (inventory db) →
  ledger_ok (inventory (stripe_webhook stripe parse now oid req db).1).
Proof.
  intros Hq Hcov Hok.
  destruct (verified stripe parse req db) as [[storeId event]|] eqn:Hv.
  - rewrite (stripe_webhook_verified _ _ _ _ _ _ _ _ Hv).
    destruct (event_seen (ev_id event) db); [done|]. simpl.
    destruct (String.eqb (ev_type event) "checkout.session.completed"); [|done].
    destruct (materialize_order_inventory now oid storeId (ev_object event) db)
      as [->|(cartId & _ & ->)]; [done|].
    apply sell_all_preserves_ok; [by apply select_cart_items_Forall | | done].
    intros k r. apply Hcov.
  - by destruct (stripe_webhook_rejected stripe parse now oid req db Hv) as [e ->].
Qed.

(** C1 (as amended): reservation and release keep [0 <= reserved <= on_hand]
    on every inventory record, call by call, over every sequence of reserve
    and release calls against one sku, and through the checkout route and the
    sweep; over a sequence of reserve calls the quantities that were reserved
    sum to at most [on_hand - reserved] of the start, hence to at most
    on_hand.  The sale of the webhook keeps the invariant when the record
    holds at least the quantity sold ([qty <= reserved]), and so does the
    webhook route when the records hold what the carts ask for; the update of
    the sale is neither conditional nor floored. *)
Theorem ledger_invariant_preserved now s k :
  (∀ q inv, 0 ≤ q → ledger_ok inv → ledger_ok (reserve now s k q inv).1) ∧
  (∀ q inv, 0 ≤ q → ledger_ok inv → ledger_ok (release now s k q inv).1) ∧
  (∀ q inv, 0 ≤ q → (∀ r, inv !! (s, k) = Some r → q ≤ reserved r) →
     ledger_ok inv → ledger_ok (sell now s k q inv).1) ∧
  (∀ ops inv, Forall (λ op, 0 ≤ op_qty op ∧ is_sale op = false) ops →
     ledger_ok inv → ledger_ok (run_ops now s k ops inv).1) ∧
  (∀ ops inv r, Forall (λ op, is_reserve op = true) ops →
     inv !! (s, k) = Some r → inv_ok r →
     (run_ops now s k ops inv).2 ≤ on_hand r - reserved r ≤ on_hand r) ∧
  (∀ stripe store cartId body db,
     Forall (λ it, 0 ≤ qty it) (cart_items db) → ledger_ok (inventory db) →
     ledger_ok (inventory (checkout stripe now s store cartId body db).1)) ∧
  (∀ db, Forall (λ it, 0 ≤ qty it) (cart_items db) → ledger_ok (inventory db) →
     ledger_ok (inventory (handleCron now db))) ∧
  (∀ stripe parse oid req db,
     Forall (λ it, 0 ≤ qty it) (cart_items db) →
     (∀ cartId s' k' r, inventory db !! (s', k') = Some r →
        sku_qty k' (tracked <$> select_cart_items cartId db) ≤ reserved r) →
     ledger_ok (inventory db) →
     ledger_ok (inventory (stripe_webhook stripe parse now oid req db).1)).
Proof.
  split; [intros; by apply reserve_preserves_ok|].
  split; [intros; by apply release_preserves_ok|].
  split; [intros; by apply sell_preserves_ok|].
  split; [intros; by apply run_ops_preserves_ok|].
  split.
  { intros ops inv r HF Hr [H0 Hle]. split; [by apply run_ops_reserved_sum | lia]. }
  split; [intros; by apply checkout_preserves_ok|].
  split; [intros; by apply handleCron_preserves_ok|].
  intros; by apply stripe_webhook_preserves_ok.
Qed.

(** The theorem at the checkout of cart c1. *)
Lemma ledger_invariant_preserved_witness :
  Forall (λ it, 0 ≤ qty it) (cart_items Sample.db4) ∧
  ledger_ok (inventory Sample.db4) ∧
  ledger_ok (inventory
    (checkout Sample.stripe_ok 1000 "s1" Sample.s1 "c1" Sample.urls Sample.db4).1).
Proof.
  assert (Forall (λ it, 0 ≤ qty it) (cart_items Sample.db4)) as H1
    by (vm_compute; repeat constructor; discriminate).
  assert (ledger_ok (inventory Sample.db4)) as H2 by compute_done.
  split; [exact H1|]. split; [exact H2|].
  destruct (ledger_invariant_preserved 1000 "s1" "A") as (_ & _ & _ & _ & _ & H & _).
  apply H; [exact H1 | exact H2].
Defined.

(** C1, as stated, fails.  Two carts are filled with the five units of A;
    the first checks out (five reserved); the sweep expires the second, still
    open, and releases its five; the payment of the first completes and the
    sale takes five from a record that holds none: reserved is -5. *)
Lemma webhook_sale_breaks_invariant :
  Forall (λ db, ledger_ok (inventory db))
    [Sample.db0; Sample.db1; Sample.db2; Sample.db3; Sample.db4; Sample.db5; Sample.db6] ∧
  (checkout Sample.stripe_ok 1000 "s1" Sample.s1 "c1" Sample.urls Sample.db4).2
    = inr {| checkout_url := "https://pay/cs_1"; cr_stripe_checkout_session_id := "cs_1" |} ∧
  counters <$> inventory Sample.db5 !! ("s1", "A") = Some (5, 5) ∧
  status <$> carts Sample.db5 !! "c2" = Some open ∧
  counters <$> inventory Sample.db6 !! ("s1", "A") = Some (5, 0) ∧
  status <$> carts Sample.db6 !! "c1" = Some checked_out ∧
  (stripe_webhook Sample.stripe_ok Sample.parse_s1 Sample.T31 "o1"
     (Sample.paid "evt_1") Sample.db6).2 = inr tt ∧
  inventory Sample.db7 !! ("s1", "A")
    = Some {| on_hand := 0; reserved := -5; updated_at := Sample.T31 |} ∧
  ¬ ledger_ok (inventory Sample.db7).
Proof.
  split; [compute_done|].
  repeat (split; [vm_compute; reflexivity|]).
  compute_done.
Qed.


(** * Further properties of the routes *)

(** ** The gate of the cart routes *)

Lemma select_cart_None cartId storeId db :
  select_cart cartId storeId db = None ↔
  carts db !! cartId = None ∨
  ∃ cart, carts db !! cartId = Some cart ∧ store_id cart ≠ storeId.
Proof.
  unfold select_cart. destruct (carts db !! cartId) as [c|]; [|by split; auto].
  case_decide; split; try done.
  - intros [?|(c' & [= <-] & ?)]; done.
  - intros _. right. by exists c.
Qed.

(** X1: a cart that does not exist, or that belongs to another store, is
    "not found" for the items route, apply-discount, remove-discount and
    checkout alike, and none of them writes anything. *)
Theorem foreign_cart_not_found now storeId cartId db :
  (carts db !! cartId = None ∨
   ∃ cart, carts db !! cartId = Some cart ∧ store_id cart ≠ storeId) →
  (∀ it items,
     replace_items now storeId cartId (Some (it :: items)) db
       = (db, inl (notFound "Cart not found"))) ∧
  (∀ code_in, code_in ≠ "" →
     apply_discount now storeId cartId (Some code_in) db
       = (db, inl (notFound "Cart not found"))) ∧
  remove_discount storeId cartId db = (db, inl (notFound "Cart not found")) ∧
  (∀ stripe store body successUrl cancelUrl key,
     success_url body = Some successUrl → successUrl ≠ "" →
     cancel_url body = Some cancelUrl → cancelUrl ≠ "" →
     stripe_secret_key store = Some key → key ≠ "" →
     checkout stripe now storeId store cartId body db
       = (db, inl (notFound "Cart not found"))).
Proof.
  intros Hnone%select_cart_None.
  split; [|split; [|split]].
  - intros it items. unfold replace_items. by rewrite Hnone.
  - intros code_in Hne. unfold apply_discount. simpl.
    apply String.eqb_neq in Hne. rewrite Hne. simpl. by rewrite Hnone.
  - unfold remove_discount. by rewrite Hnone.
  - intros stripe store body su cu key Hs Hsu Hc Hcu Hkey Hk. unfold checkout.
    apply String.eqb_neq in Hsu, Hcu, Hk. rewrite Hs, Hc, Hsu, Hcu, Hkey. simpl.
    rewrite Hk. simpl. by rewrite Hnone.
Qed.

Lemma foreign_cart_not_found_witness :
  (∃ cart, carts Sample.db4 !! "c1" = Some cart ∧ store_id cart ≠ "s2") ∧
  remove_discount "s2" "c1" Sample.db4 = (Sample.db4, inl (notFound "Cart not found")).
Proof.
  assert (∃ cart, carts Sample.db4 !! "c1" = Some cart ∧ store_id cart ≠ "s2") as H.
  { eexists. split; [vm_compute; reflexivity | discriminate]. }
  split; [exact H|].
  destruct (foreign_cart_not_found 0 "s2" "c1" Sample.db4 (or_intror H)) as (_ & _ & Hr & _).
  exact Hr.
Defined.

(** X2: once a cart is checked out or expired, the items route,
    apply-discount, remove-discount and checkout all answer Conflict and
    write nothing. *)
Theorem closed_cart_refuses now storeId cartId db cart :
  select_cart cartId storeId db = Some cart → status cart ≠ open →
  (∀ it items,
     replace_items now storeId cartId (Some (it :: items)) db
       = (db, inl (conflict "Cart is not open"))) ∧
  (∀ code_in, code_in ≠ "" →
     apply_discount now storeId cartId (Some code_in) db
       = (db, inl (conflict "Cart is not open"))) ∧
  remove_discount storeId cartId db = (db, inl (conflict "Cart is not open")) ∧
  (∀ stripe store body successUrl cancelUrl key,
     success_url body = Some successUrl → successUrl ≠ "" →
     cancel_url body = Some cancelUrl → cancelUrl ≠ "" →
     stripe_secret_key store = Some key → key ≠ "" →
     checkout stripe now storeId store cartId body db
       = (db, inl (conflict "Cart is not open"))).
Proof.
  intros Hsel Hst.
  assert (bool_decide (status cart = open) = false) as Hb by by apply bool_decide_eq_false.
  split; [|split; [|split]].
  - intros it items. unfold replace_items. by rewrite Hsel, Hb.
  - intros code_in Hne. unfold apply_discount. simpl.
    apply String.eqb_neq in Hne. rewrite Hne. simpl. by rewrite Hsel, Hb.
  - unfold remove_discount. by rewrite Hsel, Hb.
  - intros stripe store body su cu key Hs Hsu Hc Hcu Hkey Hk. unfold checkout.
    apply String.eqb_neq in Hsu, Hcu, Hk. rewrite Hs, Hc, Hsu, Hcu, Hkey. simpl.
    rewrite Hk. simpl. by rewrite Hsel, Hb.
Qed.

Lemma closed_cart_refuses_witness :
  (∃ cart, select_cart "c1" "s1" Sample.db5 = Some cart ∧ status cart ≠ open) ∧
  remove_discount "s1" "c1" Sample.db5 = (Sample.db5, inl (conflict "Cart is not open")).
Proof.
  assert (∃ cart, select_cart "c1" "s1" Sample.db5 = Some cart ∧ status cart ≠ open)
    as (cart & Hsel & Hst).
  { eexists. split; [vm_compute; reflexivity | discriminate]. }
  split; [by exists cart|].
  destruct (closed_cart_refuses 0 "s1" "c1" Sample.db5 cart Hsel Hst) as (_ & _ & Hr & _).
  exact Hr.
Defined.

(** ** Closed carts *)

Lemma alter_closed (f : Cart → Cart) cartId storeId db c cart cart0 :
  carts db !! c = Some cart → status cart ≠ open →
  select_cart cartId storeId db = Some cart0 → status cart0 = open →
  alter f cartId (carts db) !! c = Some cart.
Proof.
  intros Hc Hst [Hc0 _]%select_cart_Some H0.
  rewrite lookup_alter_ne; [done|]. intros ->. congruence.
Qed.

Lemma recalc_discount_frame now s cartId cart sub db :
  (recalc_discount now s cartId cart sub db).1.1 = db ∨
  ∃ f, (recalc_discount now s cartId cart sub db).1.1 = set_carts (alter f cartId) db.
Proof. unfold recalc_discount. repeat case_match; simpl; eauto. Qed.

Lemma replace_items_closed now s cartId items db c cart :
  carts db !! c = Some cart → status cart ≠ open →
  carts (replace_items now s cartId items db).1 !! c = Some cart.
Proof.
  intros Hc Hst. unfold replace_items.
  destruct items as [[|it items]|]; [done| |done].
  destruct (select_cart cartId s db) as [cart0|] eqn:Hsel; [|done].
  destruct (decide (status cart0 = open)) as [Hopen|Hn];
    [rewrite (bool_decide_eq_true_2 _ Hopen) | by rewrite (bool_decide_eq_false_2 _ Hn)].
  cbn [negb].
  destruct (validate_items s db (it :: items)) as [e|validated]; [done|].
  match goal with |- context [recalc_discount ?a ?b ?c0 ?d ?e0 ?f] =>
    pose proof (recalc_discount_frame a b c0 d e0 f) as Hfr;
    destruct (recalc_discount a b c0 d e0 f) as [[db3 info] amount] end.
  simpl in *. destruct Hfr as [->|[f ->]]; simpl; [done|].
  by eapply alter_closed.
Qed.

Lemma apply_discount_closed now s cartId code_in db c cart :
  carts db !! c = Some cart → status cart ≠ open →
  carts (apply_discount now s cartId code_in db).1 !! c = Some cart.
Proof.
  intros Hc Hst. unfold apply_discount.
  destruct (negb (truthy code_in)); [done|].
  destruct (select_cart cartId s db) as [cart0|] eqn:Hsel; [|done].
  destruct (decide (status cart0 = open)) as [Hopen|Hn];
    [rewrite (bool_decide_eq_true_2 _ Hopen) | by rewrite (bool_decide_eq_false_2 _ Hn)].
  cbn [negb].
  destruct (select_discount_by_code _ s db) as [[did d]|]; [|done].
  destruct (Nat.eqb _ 0); [done|].
  destruct (validateDiscount _ _ _ _ _ _); [|done]. simpl.
  by eapply alter_closed.
Qed.

Lemma remove_discount_closed s cartId db c cart :
  carts db !! c = Some cart → status cart ≠ open →
  carts (remove_discount s cartId db).1 !! c = Some cart.
Proof.
  intros Hc Hst. unfold remove_discount.
  destruct (select_cart cartId s db) as [cart0|] eqn:Hsel; [|done].
  destruct (decide (status cart0 = open)) as [Hopen|Hn];
    [rewrite (bool_decide_eq_true_2 _ Hopen) | by rewrite (bool_decide_eq_false_2 _ Hn)].
  cbn [negb].
  by eapply alter_closed.
Qed.

Lemma checkout_closed stripe now s store cartId body db c cart :
  carts db !! c = Some cart → status cart ≠ open →
  carts (checkout stripe now s store cartId body db).1 !! c = Some cart.
Proof.
  intros Hc Hst. unfold checkout.
  destruct (success_url body) as [successUrl|]; [|done].
  destruct (cancel_url body) as [cancelUrl|]; [|by destruct (String.eqb successUrl "")].
  destruct (String.eqb successUrl ""); [done|].
  destruct (String.eqb cancelUrl ""); [done|].
  destruct (negb (truthy (stripe_secret_key store))); [done|].
  destruct (select_cart cartId s db) as [cart0|] eqn:Hsel; [|done].
  destruct (decide (status cart0 = open)) as [Hopen|Hn];
    [rewrite (bool_decide_eq_true_2 _ Hopen) | by rewrite (bool_decide_eq_false_2 _ Hn)].
  cbn [negb].
  destruct (Nat.eqb (length (select_cart_items cartId db)) 0); [done|].
  destruct (checkout_discount now s cartId cart0 (subtotal (select_cart_items cartId db)) db)
    as [[db1 amount] discount] eqn:Hdisc.
  assert (carts db1 !! c = Some cart ∧
          ∀ f, alter f cartId (carts db1) !! c = Some cart) as [H1 H2].
  { destruct (checkout_discount_frame _ _ _ _ _ _ _ _ _ Hdisc) as [->| ->]; simpl.
    - split; [done|]. intros f. by eapply alter_closed.
    - assert (c ≠ cartId) as Hne.
      { intros ->. apply select_cart_Some in Hsel as [Hsel _]. congruence. }
      split; [by rewrite lookup_alter_ne|]. intros f. by rewrite !lookup_alter_ne. }
  destruct (reserve_items now s (select_cart_items cartId db) [] (inventory db1))
    as [inv2 [failing|reservedItems]]; [done|].
  destruct discount as [[did d]|];
    [destruct (0 <? amount);
       [destruct (coupons_create stripe amount (or_default (code d) "Discount"))|]|];
    try done;
    (match goal with |- context [sessions_create stripe ?p] =>
       destruct (sessions_create stripe p) as [session|] end; simpl; [apply H2 | done]).
Qed.

Lemma webhook_discount_carts now s session cart db :
  carts (webhook_discount now s session cart db).1.1.1.1 = carts db ∧
  cart_items (webhook_discount now s session cart db).1.1.1.1 = cart_items db.
Proof. unfold webhook_discount. by repeat case_match. Qed.

(** The webhook never writes a cart or a cart item. *)
Lemma stripe_webhook_carts stripe parse now oid req db :
  carts (stripe_webhook stripe parse now oid req db).1 = carts db ∧
  cart_items (stripe_webhook stripe parse now oid req db).1 = cart_items db.
Proof.
  destruct (verified stripe parse req db) as [[storeId event]|] eqn:Hv.
  - rewrite (stripe_webhook_verified _ _ _ _ _ _ _ _ Hv).
    destruct (event_seen (ev_id event) db); [done|]. simpl.
    destruct (String.eqb (ev_type event) "checkout.session.completed"); [|done].
    unfold materialize_order.
    destruct (so_cart_id (ev_object event)) as [cartId|]; [|done].
    destruct (truthy (Some cartId)); [|done].
    destruct (carts db !! cartId) as [cart|]; [|done].
    pose proof (webhook_discount_carts now storeId (ev_object event) cart db) as Hc.
    destruct (webhook_discount now storeId (ev_object event) cart db)
      as [[[[db1 dc] di] amt] track].
    rewrite sell_items_spec. simpl in *. by destruct (track && truthy di).
  - by destruct (stripe_webhook_rejected stripe parse now oid req db Hv) as [e ->].
Qed.

Lemma test_order_carts now s oid body db :
  carts (test_order now s oid body db).1 = carts db ∧
  cart_items (test_order now s oid body db).1 = cart_items db.
Proof.
  unfold test_order.
  destruct (tb_customer_email body) as [email|]; [|done].
  destruct (String.eqb email ""); [done|].
  destruct (tb_items body) as [[|it items]|]; [done| |done].
  destruct (validate_test_items s db (it :: items) 0) as [e|[sub orderItems]]; [done|].
  match goal with |- context [match ?disc with inl _ => _ | inr _ => _ end] =>
    destruct disc as [e|discount] end; [done|].
  rewrite deduct_items_spec.
  destruct discount as [[[did dd] a]|]; [|done]. by destruct (0 <? a).
Qed.

(** X3: no route changes the row of a cart that is checked out or expired:
    not the four cart routes (whatever cart they are called on), not the
    sweep, not the webhook, not a test order, not the creation of a cart
    under another id. *)
Theorem closed_cart_is_final db c cart :
  carts db !! c = Some cart → status cart ≠ open →
  (∀ now s cartId items, carts (replace_items now s cartId items db).1 !! c = Some cart) ∧
  (∀ now s cartId code_in,
     carts (apply_discount now s cartId code_in db).1 !! c = Some cart) ∧
  (∀ s cartId, carts (remove_discount s cartId db).1 !! c = Some cart) ∧
  (∀ stripe now s store cartId body,
     carts (checkout stripe now s store cartId body db).1 !! c = Some cart) ∧
  (∀ now, carts (handleCron now db) !! c = Some cart) ∧
  (∀ stripe parse now oid req,
     carts (stripe_webhook stripe parse now oid req db).1 !! c = Some cart) ∧
  (∀ now s oid body, carts (test_order now s oid body db).1 !! c = Some cart) ∧
  (∀ now s id email, id ≠ c → carts (create_cart now s id email db).1 !! c = Some cart).
Proof.
  intros Hc Hst.
  split; [intros; by apply replace_items_closed|].
  split; [intros; by apply apply_discount_closed|].
  split; [intros; by apply remove_discount_closed|].
  split; [intros; by apply checkout_closed|].
  split.
  { intros now. rewrite handleCron_carts, Hc. simpl.
    rewrite decide_False; [done|]. by intros [? _]. }
  split. { intros. by rewrite (proj1 (stripe_webhook_carts _ _ _ _ _ _)). }
  split. { intros. by rewrite (proj1 (test_order_carts _ _ _ _ _)). }
  intros now s id email Hne. unfold create_cart.
  destruct email as [email|]; [|done].
  destruct (negb (String.eqb email "") && includes "@"%char email); [|done].
  simpl. by rewrite lookup_insert_ne.
Qed.

Lemma closed_cart_is_final_witness :
  (∃ cart, carts Sample.db5 !! "c1" = Some cart ∧ status cart ≠ open ∧
           carts (handleCron Sample.T31 Sample.db5) !! "c1" = Some cart).
Proof.
  assert (∃ cart, carts Sample.db5 !! "c1" = Some cart ∧ status cart ≠ open)
    as (cart & Hc & Hst).
  { eexists. split; [vm_compute; reflexivity | discriminate]. }
  exists cart. split; [exact Hc|]. split; [exact Hst|].
  destruct (closed_cart_is_final Sample.db5 "c1" cart Hc Hst) as (_ & _ & _ & _ & H & _).
  apply H.
Defined.

(** ** A cart is closed once *)

Lemma replace_items_not_open now s cartId items db cart :
  select_cart cartId s db = Some cart → status cart ≠ open →
  ∃ e, replace_items now s cartId items db = (db, inl e).
Proof.
  intros Hsel Hst. unfold replace_items.
  destruct items as [[|it items]|]; [eauto| |eauto].
  rewrite Hsel, (bool_decide_eq_false_2 _ Hst). eauto.
Qed.

Lemma apply_discount_not_open now s cartId code_in db cart :
  select_cart cartId s db = Some cart → status cart ≠ open →
  ∃ e, apply_discount now s cartId code_in db = (db, inl e).
Proof.
  intros Hsel Hst. unfold apply_discount.
  destruct (negb (truthy code_in)); [eauto|].
  rewrite Hsel, (bool_decide_eq_false_2 _ Hst). eauto.
Qed.

Lemma remove_discount_not_open s cartId db cart :
  select_cart cartId s db = Some cart → status cart ≠ open →
  ∃ e, remove_discount s cartId db = (db, inl e).
Proof.
  intros Hsel Hst. unfold remove_discount.
  rewrite Hsel, (bool_decide_eq_false_2 _ Hst). eauto.
Qed.

Lemma checkout_not_open stripe now s store cartId body db cart :
  select_cart cartId s db = Some cart → status cart ≠ open →
  ∃ e, checkout stripe now s store cartId body db = (db, inl e).
Proof.
  intros Hsel Hst. unfold checkout.
  destruct (success_url body) as [successUrl|]; [|eauto].
  destruct (cancel_url body) as [cancelUrl|];
    [|destruct (String.eqb successUrl ""); eauto].
  destruct (String.eqb successUrl ""); [eauto|].
  destruct (String.eqb cancelUrl ""); [eauto|].
  destruct (negb (truthy (stripe_secret_key store))); [eauto|].
  rewrite Hsel, (bool_decide_eq_false_2 _ Hst). eauto.
Qed.

(** What a successful checkout did: the cart was open and not empty, the
    reservation loop reserved every item, and the cart row was moved to
    checked_out on top of the re-validation of its discount. *)
Lemma checkout_success stripe now s store cartId body db db' resp :
  checkout stripe now s store cartId body db = (db', inr resp) →
  ∃ cart db1 amount inv2 session,
    select_cart cartId s db = Some cart ∧ status cart = open ∧
    (db1 = db ∨ db1 = set_carts (alter clear_discount cartId) db) ∧
    reserve_items now s (select_cart_items cartId db) [] (inventory db)
      = (inv2, inr (tracked <$> select_cart_items cartId db)) ∧
    held s (tracked <$> select_cart_items cartId db) (inventory db) inv2 ∧
    db' = set_carts (alter (with_checked_out (session_id session) amount) cartId)
            (set_inventory (λ _, inv2) db1).
Proof.
  unfold checkout.
  destruct (success_url body) as [successUrl|]; [|done].
  destruct (cancel_url body) as [cancelUrl|]; [|by destruct (String.eqb successUrl "")].
  destruct (String.eqb successUrl ""); [done|].
  destruct (String.eqb cancelUrl ""); [done|].
  destruct (negb (truthy (stripe_secret_key store))); [done|].
  destruct (select_cart cartId s db) as [cart|] eqn:Hsel; [|done].
  destruct (decide (status cart = open)) as [Hopen|Hn];
    [rewrite (bool_decide_eq_true_2 _ Hopen) | by rewrite (bool_decide_eq_false_2 _ Hn)].
  cbn [negb].
  destruct (Nat.eqb (length (select_cart_items cartId db)) 0); [done|].
  destruct (checkout_discount now s cartId cart (subtotal (select_cart_items cartId db)) db)
    as [[db1 amount] discount] eqn:Hdisc.
  pose proof (checkout_discount_frame _ _ _ _ _ _ _ _ _ Hdisc) as Hfr.
  destruct (checkout_discount_tables _ _ _ _ _ _ _ _ _ Hdisc) as (Hinv & _).
  rewrite Hinv.
  destruct (reserve_items now s (select_cart_items cartId db) [] (inventory db))
    as [inv2 [failing|reservedItems]] eqn:Hloop; [done|].
  destruct (reserve_items_ok _ _ _ _ _ _ _ _ (held_refl s (inventory db)) Hloop)
    as [-> Hheld]. simpl in Hheld.
  match goal with |- context [match ?c with Some _ => _ | None => _ end = _] =>
    destruct c as [stripeCouponId|] end; [|done].
  match goal with |- context [sessions_create stripe ?p] =>
    destruct (sessions_create stripe p) as [session|] end; [|done].
  intros [= <- <-]. exists cart, db1, amount, inv2, session. done.
Qed.

Lemma checkout_success_cart stripe now s store cartId body db db' resp :
  checkout stripe now s store cartId body db = (db', inr resp) →
  ∃ cart', select_cart cartId s db' = Some cart' ∧ status cart' = checked_out ∧
           cart_items db' = cart_items db.
Proof.
  intros (cart & db1 & amount & inv2 & session & Hsel & Hopen & Hdb1 & _ & _ & ->)
    %checkout_success.
  apply select_cart_Some in Hsel as [Hc Hs].
  unfold select_cart. simpl.
  destruct Hdb1 as [-> | ->]; simpl.
  - rewrite lookup_alter_eq, Hc. simpl. rewrite decide_True by done. eauto.
  - rewrite !lookup_alter_eq, Hc. simpl. rewrite decide_True by done. eauto.
Qed.

Lemma not_open_not_swept now db cartId cart0 cart :
  carts db !! cartId = Some cart0 → status cart0 ≠ open →
  (cartId, cart) ∉ expired_carts now db.
Proof.
  intros Hc Hst Hin. unfold expired_carts in Hin.
  apply elem_of_map_to_list in Hin.
  apply map_lookup_filter_Some in Hin as [Hc' [Ho _]]. simpl in *. congruence.
Qed.

(** X4: a cart is checked out at most once.  After a checkout that
    succeeded, every further checkout of the cart (any body, any clock, any
    answer of the payment processor) fails and writes nothing, so nothing is
    reserved a second time; the items route, apply-discount and
    remove-discount fail and write nothing as well; and no later sweep
    selects the cart. *)
Theorem checkout_once stripe now s store cartId body db db' resp :
  checkout stripe now s store cartId body db = (db', inr resp) →
  (∀ stripe' now' store' body',
     ∃ e, checkout stripe' now' s store' cartId body' db' = (db', inl e)) ∧
  (∀ now' items, ∃ e, replace_items now' s cartId items db' = (db', inl e)) ∧
  (∀ now' code_in, ∃ e, apply_discount now' s cartId code_in db' = (db', inl e)) ∧
  (∃ e, remove_discount s cartId db' = (db', inl e)) ∧
  (∀ now' cart, (cartId, cart) ∉ expired_carts now' db').
Proof.
  intros (cart' & Hsel & Hst & _)%checkout_success_cart.
  assert (status cart' ≠ open) as Hn by (rewrite Hst; discriminate).
  split; [intros; by eapply checkout_not_open|].
  split; [intros; by eapply replace_items_not_open|].
  split; [intros; by eapply apply_discount_not_open|].
  split; [by eapply remove_discount_not_open|].
  intros now' cart. apply select_cart_Some in Hsel as [Hc _].
  by eapply not_open_not_swept.
Qed.

Lemma checkout_once_witness :
  checkout Sample.stripe_ok 1000 "s1" Sample.s1 "c1" Sample.urls Sample.db4
    = (Sample.db5, inr {| checkout_url := "https://pay/cs_1";
                          cr_stripe_checkout_session_id := "cs_1" |}) ∧
  ∃ e, checkout Sample.stripe_ok 2000 "s1" Sample.s1 "c1" Sample.urls Sample.db5
       = (Sample.db5, inl e).
Proof.
  assert (checkout Sample.stripe_ok 1000 "s1" Sample.s1 "c1" Sample.urls Sample.db4
    = (Sample.db5, inr {| checkout_url := "https://pay/cs_1";
                          cr_stripe_checkout_session_id := "cs_1" |})) as H.
  { rewrite (surjective_pairing (checkout _ _ _ _ _ _ _)). f_equal;
    vm_compute; reflexivity. }
  split; [exact H|].
  destruct (checkout_once _ _ _ _ _ _ _ _ _ H) as [Hc _]. apply Hc.
Defined.

(** ** The sweep runs once per cart *)

Lemma expired_carts_after_sweep now now' db :
  now' ≤ now → expired_carts now' (handleCron now db) = [].
Proof.
  intros Hle. unfold expired_carts.
  match goal with |- map_to_list ?m = [] => assert (m = ∅) as -> end;
    [|apply map_to_list_empty].
  apply map_empty. intros k. apply map_lookup_filter_None. right.
  intros c' Hc' [Hopen Hexp]. simpl in *.
  rewrite handleCron_carts in Hc'.
  destruct (carts db !! k) as [c|]; [|done]. simpl in Hc'.
  destruct (decide (sweepable now c)) as [Hs|Hs].
  - by injection Hc' as <-.
  - injection Hc' as <-. apply Hs. split; [done | lia].
Qed.

(** X5: a sweep leaves no cart for a sweep at the same or an earlier instant
    to select: run again, the sweep releases nothing, logs nothing and
    changes no cart, so no cart is released twice. *)
Theorem sweep_once now now' db :
  now' ≤ now →
  expired_carts now' (handleCron now db) = [] ∧
  handleCron now' (handleCron now db) = handleCron now db.
Proof.
  intros Hle. split; [by apply expired_carts_after_sweep|].
  unfold handleCron at 1. by rewrite expired_carts_after_sweep.
Qed.

Lemma sweep_once_witness :
  Sample.T29 ≤ Sample.T31 ∧
  handleCron Sample.T29 (handleCron Sample.T31 Sample.db5) = handleCron Sample.T31 Sample.db5.
Proof.
  assert (Sample.T29 ≤ Sample.T31) as H by (vm_compute; discriminate).
  split; [exact H|]. apply (sweep_once Sample.T31 Sample.T29 Sample.db5 H).
Defined.

(** X6: a cart the sweep has selected is closed for good.  After the sweep
    its row is the row it had with status expired, and the items route,
    apply-discount, remove-discount and checkout fail on it and write
    nothing, whatever they are called with. *)
Theorem swept_cart_is_closed now db cartId cart :
  carts db !! cartId = Some cart → status cart = open → expires_at cart < now →
  carts (handleCron now db) !! cartId = Some (with_expired cart) ∧
  (∀ stripe now' store body,
     ∃ e, checkout stripe now' (store_id cart) store cartId body (handleCron now db)
          = (handleCron now db, inl e)) ∧
  (∀ now' items,
     ∃ e, replace_items now' (store_id cart) cartId items (handleCron now db)
          = (handleCron now db, inl e)) ∧
  (∀ now' code_in,
     ∃ e, apply_discount now' (store_id cart) cartId code_in (handleCron now db)
          = (handleCron now db, inl e)) ∧
  (∃ e, remove_discount (store_id cart) cartId (handleCron now db)
        = (handleCron now db, inl e)).
Proof.
  intros Hc Hopen Hexp.
  assert (carts (handleCron now db) !! cartId = Some (with_expired cart)) as Hc'.
  { rewrite handleCron_carts, Hc. simpl. by rewrite decide_True. }
  assert (select_cart cartId (store_id cart) (handleCron now db) = Some (with_expired cart))
    as Hsel.
  { unfold select_cart. rewrite Hc'. simpl. by rewrite decide_True. }
  assert (status (with_expired cart) ≠ open) as Hn by discriminate.
  split; [done|].
  split; [intros; by eapply checkout_not_open|].
  split; [intros; by eapply replace_items_not_open|].
  split; [intros; by eapply apply_discount_not_open|].
  by eapply remove_discount_not_open.
Qed.

Lemma swept_cart_is_closed_witness :
  ∃ cart, carts Sample.db5 !! "c2" = Some cart ∧ status cart = open ∧
          expires_at cart < Sample.T31 ∧
          carts (handleCron Sample.T31 Sample.db5) !! "c2" = Some (with_expired cart).
Proof.
  assert (∃ cart, carts Sample.db5 !! "c2" = Some cart ∧ status cart = open ∧
                  expires_at cart < Sample.T31) as (cart & Hc & Ho & He).
  { eexists. split; [vm_compute; reflexivity|]. split; [reflexivity|]. vm_compute. reflexivity. }
  exists cart. split; [exact Hc|]. split; [exact Ho|]. split; [exact He|].
  destruct (swept_cart_is_closed Sample.T31 Sample.db5 "c2" cart Hc Ho He) as [H _].
  exact H.
Defined.

(** ** The webhook: refusals, other events, available stock *)

(** X7: a webhook request that is answered with an error wrote nothing.
    The error is webhook_signature_invalid only when the store named in the
    body exists with a webhook secret and the verification of the body
    against that secret failed, with the message of that failure; a request
    that names a store without a row is refused as an invalid request, and
    the processor is not asked. *)
Theorem webhook_refusal_writes_nothing stripe parse now oid req db :
  (∀ e, (stripe_webhook stripe parse now oid req db).2 = inl e →
     (stripe_webhook stripe parse now oid req db).1 = db ∧
     verified stripe parse req db = None) ∧
  (∀ msg,
     (stripe_webhook stripe parse now oid req db).2 = inl (webhook_signature_invalid msg) →
     ∃ sig rawEvent storeId store secret,
       signature req = Some sig ∧ parse (body req) = Some rawEvent ∧
       raw_store_id rawEvent = Some storeId ∧ stores db !! storeId = Some store ∧
       stripe_webhook_secret store = Some secret ∧
       constructEventAsync stripe (body req) sig secret = inl msg) ∧
  (∀ rawEvent storeId,
     parse (body req) = Some rawEvent → raw_store_id rawEvent = Some storeId →
     stores db !! storeId = None →
     ∃ text, stripe_webhook stripe parse now oid req db = (db, inl (invalidRequest text))).
Proof.
  split; [|split].
  - intros e He.
    destruct (verified stripe parse req db) as [[storeId event]|] eqn:Hv.
    + rewrite (stripe_webhook_verified _ _ _ _ _ _ _ _ Hv) in He.
      by destruct (event_seen (ev_id event) db).
    + destruct (stripe_webhook_rejected stripe parse now oid req db Hv) as [e' ->]. done.
  - intros msg. unfold stripe_webhook.
    destruct (signature req) as [sig|] eqn:Hsig; [|done].
    destruct (String.eqb sig ""); [done|].
    destruct (parse (body req)) as [raw|] eqn:Hp; [|done].
    destruct (raw_store_id raw) as [sid|] eqn:Hr; [|done].
    destruct (String.eqb sid ""); [done|].
    destruct (stores db !! sid) as [store|] eqn:Hs; [|done]. simpl.
    destruct (stripe_webhook_secret store) as [secret|] eqn:Hsec; [|done].
    destruct (String.eqb secret ""); [done|].
    destruct (constructEventAsync stripe (body req) sig secret) as [m|ev] eqn:Hc.
    + intros [= ->]. by exists sig, raw, sid, store, secret.
    + by destruct (event_seen (ev_id ev) db).
  - intros raw sid Hp Hr Hs. unfold stripe_webhook. rewrite Hp, Hr, Hs. simpl.
    destruct (signature req) as [sig|]; [|eauto].
    destruct (String.eqb sig ""); [eauto|].
    destruct (String.eqb sid ""); eauto.
Qed.

(** A bad signature on a request for store s1: refused, nothing written. *)
Example webhook_bad_signature :
  stripe_webhook Sample.stripe_ok Sample.parse_s1 Sample.T31 "o1"
    {| signature := Some "forged"; body := "evt_1" |} Sample.db6
  = (Sample.db6,
     inl (webhook_signature_invalid "No signatures found matching the expected signature")).
Proof. reflexivity. Qed.

(** X8: a verified event that is new and is not the completion of a
    checkout of a known cart (another event type, no cart id in the metadata,
    or a cart id without a row) is recorded and nothing else: the Event row
    is the only write, so no order is created and no inventory is touched. *)
Theorem webhook_records_other_events stripe parse now oid req db storeId event :
  verified stripe parse req db = Some (storeId, event) →
  event_seen (ev_id event) db = false →
  ev_type event ≠ "checkout.session.completed" ∨
  so_cart_id (ev_object event) = None ∨
  so_cart_id (ev_object event) = Some "" ∨
  (∃ cartId, so_cart_id (ev_object event) = Some cartId ∧ carts db !! cartId = None) →
  stripe_webhook stripe parse now oid req db
    = (set_events (λ t, t ++ [event_row storeId event]) db, inr tt).
Proof.
  intros Hv Hseen Hother.
  rewrite (stripe_webhook_verified _ _ _ _ _ _ _ _ Hv), Hseen.
  destruct (String.eqb_spec (ev_type event) "checkout.session.completed") as [Hty|Hty];
    [|done].
  destruct Hother as [Hne|[Hnone|[Hempty|(cartId & Hc & Hrow)]]]; [done| | |];
    unfold materialize_order.
  - by rewrite Hnone.
  - by rewrite Hempty.
  - rewrite Hc, Hrow. by destruct (truthy (Some cartId)).
Qed.

Lemma webhook_records_other_events_witness :
  stripe_webhook Sample.stripe_ok Sample.parse_s1 5 "o9" (Sample.paid "evt_1") Sample.db0
    = (set_events (λ t, t ++ [event_row "s1" (Sample.event_of_body "evt_1")]) Sample.db0,
       inr tt).
Proof.
  apply (webhook_records_other_events Sample.stripe_ok Sample.parse_s1 5 "o9"
           (Sample.paid "evt_1") Sample.db0 "s1" (Sample.event_of_body "evt_1")).
  - reflexivity.
  - reflexivity.
  - right. right. right. exists "c1". split; reflexivity.
Defined.

Lemma sell_all_lookup now s items : ∀ inv key,
  counters <$> sell_all now s items inv !! key =
    (λ r, (on_hand r - (if decide (key.1 = s) then sku_qty key.2 (tracked <$> items) else 0),
           reserved r - (if decide (key.1 = s) then sku_qty key.2 (tracked <$> items) else 0)))
      <$> inv !! key.
Proof.
  induction items as [|item items IH]; intros inv key.
  - unfold sell_all. simpl. destruct (inv !! key) as [r|]; simpl; [|done].
    unfold counters. f_equal. f_equal; case_decide; lia.
  - rewrite sell_all_cons, IH, sell_lookup, fmap_cons, sku_qty_cons.
    destruct key as [s' k']. simpl.
    destruct (decide ((s, sku item) = (s', k'))) as [[= <- <-]|Hne].
    + rewrite !decide_True by done. destruct (inv !! (s, sku item)) as [r|]; simpl; [|done].
      f_equal. f_equal; lia.
    + destruct (inv !! (s', k')) as [r|]; simpl; [|done].
      f_equal. destruct (decide (s' = s)) as [->|]; [|done].
      rewrite decide_False by congruence. f_equal; lia.
Qed.

(** X9: the webhook never changes the available quantity of a sku.
    Whatever the request, [on_hand - reserved] of every inventory record is
    after the call what it was before: the sale takes the same quantity from
    both counters, and no other statement of the route writes the
    inventory. *)
Theorem webhook_keeps_available stripe parse now oid req db s k :
  available s k (inventory (stripe_webhook stripe parse now oid req db).1)
    = available s k (inventory db).
Proof.
  assert (∀ items s',
    available s k (sell_all now s' items (inventory db)) = available s k (inventory db))
    as Hsell.
  { intros items s'. unfold available.
    pose proof (sell_all_lookup now s' items (inventory db) (s, k)) as H.
    destruct (inventory db !! (s, k)) as [r0|],
             (sell_all now s' items (inventory db) !! (s, k)) as [r|]; simpl in H; try done.
    unfold counters in H. injection H as H1 H2. lia. }
  destruct (verified stripe parse req db) as [[storeId event]|] eqn:Hv.
  - rewrite (stripe_webhook_verified _ _ _ _ _ _ _ _ Hv).
    destruct (event_seen (ev_id event) db); [done|]. simpl.
    destruct (String.eqb (ev_type event) "checkout.session.completed"); [|done].
    destruct (materialize_order_inventory now oid storeId (ev_object event) db)
      as [-> | (cartId & _ & ->)]; [done|]. apply Hsell.
  - by destruct (stripe_webhook_rejected stripe parse now oid req db Hv) as [e ->].
Qed.

(** ** From checkout to payment *)

(** X10: checkout followed by the payment webhook of the same cart and
    store.  Taken together the two calls take the quantities of the cart
    from on_hand and leave reserved of every record as it was before the
    checkout; the inventory log gains one 'sale' entry per item of the cart
    and nothing else, the order has the items of the cart, and the cart row
    and the cart items are not touched by the webhook. *)
Theorem checkout_then_payment stripe now s store cartId body db db' resp
    stripe' parse now' oid req event :
  checkout stripe now s store cartId body db = (db', inr resp) →
  verified stripe' parse req db' = Some (s, event) →
  event_seen (ev_id event) db' = false →
  ev_type event = "checkout.session.completed" →
  so_cart_id (ev_object event) = Some cartId → cartId ≠ "" →
  let db'' := (stripe_webhook stripe' parse now' oid req db').1 in
  (∀ key, counters <$> inventory db'' !! key =
            (λ r0, (on_hand r0 - (if decide (key.1 = s)
                                  then sku_qty key.2 (tracked <$> select_cart_items cartId db)
                                  else 0),
                    reserved r0)) <$> inventory db !! key) ∧
  inventory_logs db'' = inventory_logs db ++ (sale_log s <$> select_cart_items cartId db) ∧
  order_items db'' = order_items db ++ (order_item_of oid <$> select_cart_items cartId db) ∧
  carts db'' = carts db' ∧ cart_items db'' = cart_items db.
Proof.
  intros Hco Hv Hseen Hty Hcart Hne db''.
  destruct (checkout_success_cart _ _ _ _ _ _ _ _ _ Hco) as (cart' & Hsel' & _ & Hitems).
  apply select_cart_Some in Hsel' as [Hc' _].
  assert (select_cart_items cartId db' = select_cart_items cartId db) as Hsame
    by (unfold select_cart_items; by rewrite Hitems).
  destruct (checkout_success _ _ _ _ _ _ _ _ _ Hco)
    as (cart & db1 & amount & inv2 & session & _ & _ & Hdb1 & _ & Hheld & Hdb').
  assert (inventory db' = inv2 ∧ inventory_logs db' = inventory_logs db ∧
          order_items db' = order_items db) as (Hinv & Hlogs & Hoi).
  { rewrite Hdb'. by destruct Hdb1 as [-> | ->]. }
  destruct (materialize_order_found now' oid s (ev_object event) db' cartId cart'
              Hcart Hne Hc') as (dbd & dc & di & amt & track & _ & Hfr & Hm).
  subst db''. rewrite (stripe_webhook_verified _ _ _ _ _ _ _ _ Hv), Hseen.
  apply String.eqb_eq in Hty. rewrite Hty, Hm, Hsame. simpl.
  assert (inventory dbd = inv2 ∧ inventory_logs dbd = inventory_logs db ∧
          order_items dbd = order_items db ∧ carts dbd = carts db' ∧
          cart_items dbd = cart_items db) as (Hi & Hl & Ho & Hc & Hci).
  { destruct Hfr as [-> | [did ->]]; simpl; by rewrite ?Hinv, ?Hlogs, ?Hoi, ?Hitems. }
  rewrite Hi, Hl, Ho, Hc, Hci.
  split; [|done].
  intros key. rewrite sell_all_lookup.
  specialize (Hheld key).
  destruct (inventory db !! key) as [r0|].
  - destruct Hheld as (r & -> & Hon & Hres). simpl. f_equal. rewrite Hon, Hres.
    f_equal. lia.
  - by rewrite Hheld.
Qed.

Lemma checkout_then_payment_witness :
  counters <$> inventory
    (stripe_webhook Sample.stripe_ok Sample.parse_s1 2000 "o1" (Sample.paid "evt_1")
       Sample.db5).1 !! ("s1", "A") = Some (0, 0).
Proof.
  assert (checkout Sample.stripe_ok 1000 "s1" Sample.s1 "c1" Sample.urls Sample.db4
    = (Sample.db5, inr {| checkout_url := "https://pay/cs_1";
                          cr_stripe_checkout_session_id := "cs_1" |})) as H.
  { rewrite (surjective_pairing (checkout _ _ _ _ _ _ _)). f_equal;
    vm_compute; reflexivity. }
  destruct (checkout_then_payment _ _ _ _ _ _ _ _ _ Sample.stripe_ok Sample.parse_s1 2000 "o1"
              (Sample.paid "evt_1") (Sample.event_of_body "evt_1") H)
    as [Hinv _]; [reflexivity | reflexivity | reflexivity | reflexivity | discriminate |].
  rewrite (Hinv ("s1", "A")). vm_compute. reflexivity.
Defined.

(** ** Order numbers *)

Lemma digit_pretty_N_char d : (d < 10)%N → digit (pretty_N_char d) = d.
Proof.
  intros Hd.
  assert (d = 0 ∨ d = 1 ∨ d = 2 ∨ d = 3 ∨ d = 4 ∨ d = 5 ∨ d = 6 ∨ d = 7 ∨ d = 8 ∨ d = 9)%N
    as H by lia.
  repeat (destruct H as [->|H]; [reflexivity|]). by subst.
Qed.

Lemma decimal_pretty_N_go x : ∀ s,
  decimal (pretty_N_go x s) = (x * 10 ^ N.of_nat (String.length s) + decimal s)%N.
Proof.
  induction (N.lt_wf_0 x) as [x _ IH]. intros s.
  destruct (decide (x = 0)%N) as [->|Hx].
  - rewrite pretty_N_go_0. lia.
  - rewrite pretty_N_go_step by lia.
    rewrite IH by (apply N.div_lt; lia).
    cbn [decimal String.length].
    rewrite digit_pretty_N_char by (apply N.mod_lt; lia).
    rewrite Nat2N.inj_succ, N.pow_succ_r'.
    pose proof (N.div_mod x 10 ltac:(lia)) as Hdm.
    nia.
Qed.

Lemma decimal_pretty (n : nat) : decimal (pretty n) = N.of_nat n.
Proof.
  unfold pretty, pretty_nat, pretty, pretty_N.
  destruct (decide (N.of_nat n = 0)%N) as [->|]; [done|].
  rewrite decimal_pretty_N_go. simpl. lia.
Qed.

Lemma decimal_padStart k s : decimal (padStart k "0"%char s) = decimal s.
Proof.
  unfold padStart. induction (k - String.length s)%nat as [|m IH]; [done|].
  simpl. rewrite IH. unfold digit. simpl. lia.
Qed.

Lemma order_number_inj (a b : nat) :
  "ORD-" +:+ padStart 4 "0"%char (pretty a) = "ORD-" +:+ padStart 4 "0"%char (pretty b) →
  a = b.
Proof.
  intros H. apply (inj (String.append "ORD-")) in H. apply (f_equal decimal) in H.
  rewrite !decimal_padStart, !decimal_pretty in H. lia.
Qed.

Lemma numbered_append db db' o :
  numbered db → orders db' = orders db ++ [o] →
  number o = next_order_number (o_store_id o) db → numbered db'.
Proof.
  intros Hnum Ho Hn s i o'. unfold store_orders. rewrite Ho, filter_app.
  rewrite filter_cons, filter_nil.
  destruct (decide (o_store_id o = s)) as [Hs|Hs].
  - intros Hi. apply lookup_app_Some in Hi as [Hi|[Hle Hi]]; [by eapply Hnum|].
    apply list_lookup_singleton_Some in Hi as [Hi ->].
    rewrite Hn. unfold next_order_number, count_orders. rewrite Hs.
    repeat f_equal. lia.
  - rewrite app_nil_r. apply Hnum.
Qed.

Lemma numbered_same db db' : numbered db → orders db' = orders db → numbered db'.
Proof. intros Hnum Ho s i o. unfold store_orders. rewrite Ho. apply Hnum. Qed.

Lemma stripe_webhook_orders stripe parse now oid req db :
  orders (stripe_webhook stripe parse now oid req db).1 = orders db ∨
  ∃ o, orders (stripe_webhook stripe parse now oid req db).1 = orders db ++ [o] ∧
       number o = next_order_number (o_store_id o) db ∧ o_id o = oid ∧ o_status o = "paid".
Proof.
  destruct (verified stripe parse req db) as [[storeId event]|] eqn:Hv.
  - rewrite (stripe_webhook_verified _ _ _ _ _ _ _ _ Hv).
    destruct (event_seen (ev_id event) db); [by left|]. simpl.
    destruct (String.eqb (ev_type event) "checkout.session.completed"); [|by left].
    unfold materialize_order.
    destruct (so_cart_id (ev_object event)) as [cartId|]; [|by left].
    destruct (truthy (Some cartId)); [|by left].
    destruct (carts db !! cartId) as [cart|]; [|by left].
    destruct (webhook_discount now storeId (ev_object event) cart db)
      as [[[[db1 dc] di] amt] track] eqn:Hd.
    assert (orders db1 = orders db) as Ho.
    { by destruct (webhook_discount_frame _ _ _ _ _ _ _ _ _ _ Hd) as [->|[did ->]]. }
    rewrite sell_items_spec. right. eexists. split.
    + destruct (track && truthy di); simpl; by rewrite Ho.
    + simpl. unfold next_order_number, count_orders. by rewrite Ho.
  - destruct (stripe_webhook_rejected stripe parse now oid req db Hv) as [e ->]. by left.
Qed.

Lemma test_order_outcome now s oid body db :
  (∃ e, test_order now s oid body db = (db, inl e)) ∨
  ∃ o items,
    (test_order now s oid body db).2 = inr (o, items) ∧
    orders (test_order now s oid body db).1 = orders db ++ [o] ∧
    order_items (test_order now s oid body db).1 =
      order_items db ++
        ((λ item, {| oi_order_id := oid; oi_sku := iv_sku item; oi_title := iv_title item;
                     oi_qty := iv_qty item;
                     oi_unit_price_cents := iv_unit_price_cents item |}) <$> items) ∧
    number o = next_order_number s db ∧ o_id o = oid ∧ o_store_id o = s ∧
    o_status o = "paid" ∧ stripe_payment_intent_id o = None ∧
    total_cents o = subtotal_cents o - o_discount_amount_cents o.
Proof.
  unfold test_order.
  destruct (tb_customer_email body) as [email|]; [|eauto].
  destruct (String.eqb email ""); [eauto|].
  destruct (tb_items body) as [[|it items]|]; [eauto| |eauto].
  destruct (validate_test_items s db (it :: items) 0) as [e|[sub orderItems]]; [eauto|].
  match goal with |- context [match ?disc with inl _ => _ | inr _ => _ end] =>
    destruct disc as [e|discount] end; [eauto|].
  right. rewrite deduct_items_spec. eexists _, orderItems.
  split; [done|].
  destruct discount as [[[did dd] a]|]; [destruct (0 <? a)|]; done.
Qed.

Lemma stripe_webhook_numbered stripe parse now oid req db :
  numbered db → numbered (stripe_webhook stripe parse now oid req db).1.
Proof.
  intros Hnum.
  destruct (stripe_webhook_orders stripe parse now oid req db) as [Ho|(o & Ho & Hn & _)].
  - by eapply numbered_same.
  - by eapply numbered_append.
Qed.

Lemma test_order_numbered now s oid body db :
  numbered db → numbered (test_order now s oid body db).1.
Proof.
  intros Hnum.
  destruct (test_order_outcome now s oid body db)
    as [[e ->]|(o & items & _ & Ho & _ & Hn & _ & Hs & _)]; [done|].
  eapply numbered_append; [done..|]. by rewrite Hs.
Qed.

Lemma filter_mark_refunded oid s (l : list Order) :
  filter (λ o, o_store_id o = s) (mark_refunded oid <$> l)
    = mark_refunded oid <$> filter (λ o, o_store_id o = s) l.
Proof.
  induction l as [|x l IH]; [done|].
  rewrite fmap_cons, !filter_cons, IH.
  assert (o_store_id (mark_refunded oid x) = o_store_id x) as ->
    by (unfold mark_refunded; by case_decide).
  by case_decide.
Qed.

Lemma refund_order_numbered refunds_create s store oid amountCents db refunds :
  numbered db →
  numbered (refund_order refunds_create s store oid amountCents (db, refunds)).1.1.
Proof.
  intros Hnum. unfold refund_order.
  destruct (negb (truthy (stripe_secret_key store))); [done|].
  destruct (select_order oid s db) as [order|]; [|done].
  destruct (String.eqb (o_status order) "refunded"); [done|].
  destruct (stripe_payment_intent_id order) as [pi|]; [|done].
  destruct (String.eqb pi ""); [done|].
  destruct (refunds_create pi amountCents) as [msg|refund]; [done|].
  destruct (no_amount amountCents || (total_cents order <=? default 0 amountCents));
    [|done].
  simpl. intros s' i o. unfold store_orders. simpl.
  rewrite filter_mark_refunded, list_lookup_fmap. intros Ho.
  apply fmap_Some in Ho as (o0 & Ho0 & ->).
  rewrite <- (Hnum s' i o0 Ho0). unfold mark_refunded. by case_decide.
Qed.

(** X11: the routes that write orders number them in sequence.  If every
    order of every store carries the number of its position among the orders
    of its store (ORD-0001 for the first), the same holds after the payment
    webhook, after a test order and after a refund. *)
Theorem order_numbers_sequential db :
  numbered db →
  (∀ stripe parse now oid req, numbered (stripe_webhook stripe parse now oid req db).1) ∧
  (∀ now s oid body, numbered (test_order now s oid body db).1) ∧
  (∀ refunds_create s store oid amountCents refunds,
     numbered (refund_order refunds_create s store oid amountCents (db, refunds)).1.1).
Proof.
  intros Hnum.
  split; [intros; by apply stripe_webhook_numbered|].
  split; [intros; by apply test_order_numbered|].
  intros; by apply refund_order_numbered.
Qed.

Lemma order_numbers_sequential_witness :
  numbered Sample.db0 ∧
  numbered (test_order 5 "s1" "t1" Sample.twice_A Sample.db0).1.
Proof.
  assert (numbered Sample.db0) as H by (intros s i o Hi; by destruct i).
  split; [exact H|].
  destruct (order_numbers_sequential Sample.db0 H) as (_ & Ht & _). apply Ht.
Defined.

(** X12: where the orders are numbered in sequence, no two orders of a store
    share a number: the number read back as a decimal is the position of the
    order among the orders of its store, with or without padding. *)
Theorem order_numbers_unique db s i j o1 o2 :
  numbered db →
  store_orders s db !! i = Some o1 → store_orders s db !! j = Some o2 →
  i ≠ j → number o1 ≠ number o2.
Proof.
  intros Hnum H1 H2 Hij Heq.
  rewrite (Hnum s i o1 H1), (Hnum s j o2 H2) in Heq.
  apply order_number_inj in Heq. lia.
Qed.

Lemma order_numbers_unique_witness :
  ∃ o1 o2,
    store_orders "s1" Sample.dbT2 !! 0%nat = Some o1 ∧
    store_orders "s1" Sample.dbT2 !! 1%nat = Some o2 ∧
    number o1 = "ORD-0001" ∧ number o2 = "ORD-0002" ∧ number o1 ≠ number o2.
Proof.
  assert (numbered Sample.dbT2) as Hnum.
  { apply test_order_numbered, test_order_numbered. intros s i o Hi. by destruct i. }
  eexists _, _.
  split; [vm_compute; reflexivity|]. split; [vm_compute; reflexivity|].
  split; [reflexivity|]. split; [reflexivity|].
  eapply (order_numbers_unique _ "s1" 0%nat 1%nat _ _ Hnum);
    [vm_compute; reflexivity | vm_compute; reflexivity | discriminate].
Defined.

(** ** Refunds *)

Lemma filter_fmap_preserved {A} (f : A → A) (P : A → Prop) `{!∀ x, Decision (P x)}
    (l : list A) :
  (∀ x, P (f x) ↔ P x) → filter P (f <$> l) = f <$> filter P l.
Proof.
  intros Hf. induction l as [|x l IH]; [done|].
  rewrite fmap_cons, !filter_cons, IH.
  destruct (decide (P x)) as [HP|HP].
  - rewrite decide_True by by apply Hf. done.
  - rewrite decide_False by by rewrite Hf. done.
Qed.

Lemma select_order_mark_refunded oid oid' s db :
  select_order oid s (set_orders (fmap (mark_refunded oid')) db)
    = mark_refunded oid' <$> select_order oid s db.
Proof.
  unfold select_order. simpl.
  rewrite filter_fmap_preserved.
  - by destruct (filter _ (orders db)).
  - intros x. unfold mark_refunded. by case_decide.
Qed.

Lemma select_order_Some oid s db order :
  select_order oid s db = Some order → o_id order = oid ∧ o_store_id order = s.
Proof.
  unfold select_order. intros H. apply head_Some_elem_of in H.
  by apply list_elem_of_filter in H as [H _].
Qed.

(** What a refund that succeeded did. *)
Lemma refund_order_success rc s store oid amt db refunds st' resp :
  refund_order rc s store oid amt (db, refunds) = (st', inr resp) →
  ∃ order pi refund,
    select_order oid s db = Some order ∧ o_status order ≠ "refunded" ∧
    stripe_payment_intent_id order = Some pi ∧ pi ≠ "" ∧ rc pi amt = inr refund ∧
    st' = (if full_refund amt order then set_orders (fmap (mark_refunded oid)) db else db,
           refunds ++ [{| rf_order_id := oid; stripe_refund_id := refund_id refund;
                          rf_amount_cents := refund_amount refund;
                          rf_status := default "succeeded" (refund_status refund) |}]) ∧
    resp = {| rr_stripe_refund_id := refund_id refund; rr_status := refund_status refund |}.
Proof.
  unfold refund_order.
  destruct (negb (truthy (stripe_secret_key store))); [done|].
  destruct (select_order oid s db) as [order|] eqn:Hsel; [|done].
  destruct (String.eqb_spec (o_status order) "refunded") as [|Hst]; [done|].
  destruct (stripe_payment_intent_id order) as [pi|] eqn:Hpi; [|done].
  destruct (String.eqb_spec pi "") as [|Hne]; [done|].
  destruct (rc pi amt) as [msg|refund] eqn:Hrc; [done|].
  intros [= <- <-]. exists order, pi, refund.
  apply select_order_Some in Hsel as [-> _]. done.
Qed.

Lemma refund_order_failure rc s store oid amt st e :
  (refund_order rc s store oid amt st).2 = inl e →
  (refund_order rc s store oid amt st).1 = st.
Proof.
  unfold refund_order. destruct st as [db refunds].
  destruct (negb (truthy (stripe_secret_key store))); [done|].
  destruct (select_order oid s db) as [order|]; [|done].
  destruct (String.eqb (o_status order) "refunded"); [done|].
  destruct (stripe_payment_intent_id order) as [pi|]; [|done].
  destruct (String.eqb pi ""); [done|].
  by destruct (rc pi amt).
Qed.

(** X13: a refund is all or nothing, and never restocks.  A refund request
    answered with an error (no processor key, unknown order, order of another
    store, order already refunded, order without a payment, refusal by the
    processor) wrote nothing, not even a refund row.  One that succeeded
    asked the processor for a refund on the payment intent of the order, with
    the amount of the request, and appended exactly one refund row, for this
    order and with the id, amount and status of the refund the processor
    returned, which the answer carries too; it changed no order other than by
    setting the status of this order to refunded, which it did exactly when
    no amount was asked for or the amount reaches the total of the order.  In
    both cases the inventory, the inventory log and the rows of every other
    table are as they were. *)
Theorem refund_all_or_nothing rc s store oid amt db refunds :
  let r := refund_order rc s store oid amt (db, refunds) in
  (∀ e, r.2 = inl e → r.1 = (db, refunds)) ∧
  (∀ resp, r.2 = inr resp →
     ∃ order pi refund,
       select_order oid s db = Some order ∧
       stripe_payment_intent_id order = Some pi ∧ rc pi amt = inr refund ∧
       r.1.2 = refunds ++ [{| rf_order_id := oid; stripe_refund_id := refund_id refund;
                              rf_amount_cents := refund_amount refund;
                              rf_status := default "succeeded" (refund_status refund) |}] ∧
       resp = {| rr_stripe_refund_id := refund_id refund;
                 rr_status := refund_status refund |} ∧
       orders r.1.1 = (if full_refund amt order
                       then mark_refunded oid <$> orders db else orders db)) ∧
  (∀ o, o_id o ≠ oid → mark_refunded oid o = o) ∧
  inventory r.1.1 = inventory db ∧ inventory_logs r.1.1 = inventory_logs db ∧
  order_items r.1.1 = order_items db ∧ carts r.1.1 = carts db ∧
  discounts r.1.1 = discounts db ∧ discount_usage r.1.1 = discount_usage db.
Proof.
  intros r. subst r.
  destruct (refund_order rc s store oid amt (db, refunds)) as [st' [e|resp]] eqn:Hr.
  - pose proof (refund_order_failure rc s store oid amt (db, refunds) e) as Hf.
    rewrite Hr in Hf. simpl in *. rewrite (Hf eq_refl). simpl.
    split; [done|]. split; [done|].
    split; [|done]. intros o Ho. unfold mark_refunded. by rewrite decide_False.
  - destruct (refund_order_success _ _ _ _ _ _ _ _ _ Hr)
      as (order & pi & refund & Hsel & _ & Hpi & _ & Hrc & -> & ->).
    simpl. split; [done|].
    split.
    { intros resp [= <-]. exists order, pi, refund.
      by destruct (full_refund amt order). }
    split. { intros o Ho. unfold mark_refunded. by rewrite decide_False. }
    by destruct (full_refund amt order).
Qed.

(** X14: an order is refunded in full at most once.  After a refund that
    succeeded without an amount, or with an amount that reaches the total of
    the order, every further refund request for the order by a store with a
    processor key is answered Conflict, before the processor is asked, and
    writes nothing. *)
Theorem refund_in_full_once rc s store oid amt db refunds st' resp order :
  refund_order rc s store oid amt (db, refunds) = (st', inr resp) →
  select_order oid s db = Some order → full_refund amt order = true →
  ∀ rc' store' amt' key, stripe_secret_key store' = Some key → key ≠ "" →
    refund_order rc' s store' oid amt' st' = (st', inl (conflict "Order already refunded")).
Proof.
  intros Hr Hsel Hfull rc' store' amt' key Hkey Hne.
  destruct (refund_order_success _ _ _ _ _ _ _ _ _ Hr)
    as (order' & pi & refund & Hsel' & _ & _ & _ & _ & -> & _).
  rewrite Hsel in Hsel'. injection Hsel' as <-. rewrite Hfull.
  unfold refund_order. rewrite Hkey. simpl.
  apply String.eqb_neq in Hne. rewrite Hne. simpl.
  rewrite select_order_mark_refunded, Hsel. simpl.
  apply select_order_Some in Hsel as [Hid _].
  unfold mark_refunded. rewrite decide_True by done. done.
Qed.

Lemma refund_many_cons rc s store oid a amounts st :
  refund_many rc s store oid (a :: amounts) st
    = refund_many rc s store oid amounts (refund_order rc s store oid (Some a) st).1.
Proof. done. Qed.

Lemma partial_refund_not_full a order :
  a ≠ 0 → a < total_cents order → full_refund (Some a) order = false.
Proof.
  intros Ha0 Ha. unfold full_refund. simpl. apply orb_false_iff.
  split; [by apply Z.eqb_neq | apply Z.leb_gt; lia].
Qed.

(** A run of partial refunds leaves the database and appends refund rows of
    the order, one per request at most. *)
Lemma refund_many_rows rc s store oid order : ∀ amounts db refunds,
  select_order oid s db = Some order →
  Forall (λ a, a ≠ 0 ∧ a < total_cents order) amounts →
  ∃ rows, refund_many rc s store oid amounts (db, refunds) = (db, refunds ++ rows) ∧
          (length rows ≤ length amounts)%nat ∧
          Forall (λ row, rf_order_id row = oid) rows.
Proof.
  induction amounts as [|a amounts IH]; intros db refunds Hsel Hall.
  { exists []. by rewrite app_nil_r. }
  apply Forall_cons in Hall as [[Ha0 Ha] Hall]. rewrite refund_many_cons.
  destruct (refund_order rc s store oid (Some a) (db, refunds)) as [st' [e|resp]] eqn:Hr.
  - pose proof (refund_order_failure rc s store oid (Some a) (db, refunds) e) as Hf.
    rewrite Hr in Hf. simpl in *. rewrite (Hf eq_refl).
    destruct (IH db refunds Hsel Hall) as (rows & -> & Hlen & Hrows).
    exists rows. split; [done|]. split; [lia | done].
  - destruct (refund_order_success _ _ _ _ _ _ _ _ _ Hr)
      as (order' & pi & refund & Hsel' & _ & _ & _ & _ & -> & _).
    rewrite Hsel in Hsel'. injection Hsel' as <-.
    rewrite partial_refund_not_full by done. simpl.
    destruct (IH db (refunds ++ [refund_row oid refund]) Hsel Hall)
      as (rows & Hrun & Hlen & Hrows).
    exists (refund_row oid refund :: rows). unfold refund_row in Hrun |- *.
    rewrite Hrun, <- app_assoc. split; [done|].
    split; [simpl; lia | by constructor].
Qed.

(** With a processor key and an order that is paid through the processor,
    the rows appended are those of the refunds the processor granted. *)
Lemma refund_many_granted rc s store oid order key pi : ∀ amounts db refunds,
  select_order oid s db = Some order →
  Forall (λ a, a ≠ 0 ∧ a < total_cents order) amounts →
  stripe_secret_key store = Some key → key ≠ "" →
  o_status order ≠ "refunded" → stripe_payment_intent_id order = Some pi → pi ≠ "" →
  refund_many rc s store oid amounts (db, refunds)
    = (db, refunds ++ (refund_row oid <$> granted rc pi amounts)).
Proof.
  intros amounts db refunds Hsel Hall Hkey Hkne Hst Hpi Hpne. revert refunds.
  induction amounts as [|a amounts IH]; intros refunds.
  { simpl. by rewrite app_nil_r. }
  apply Forall_cons in Hall as [[Ha0 Ha] Hall]. rewrite refund_many_cons.
  assert (refund_order rc s store oid (Some a) (db, refunds)
          = match rc pi (Some a) with
            | inl msg => ((db, refunds), inl (stripeError (or_default msg "Refund failed")))
            | inr refund =>
                ((db, refunds ++ [refund_row oid refund]),
                 inr {| rr_stripe_refund_id := refund_id refund;
                        rr_status := refund_status refund |})
            end) as ->.
  { unfold refund_order. rewrite Hkey. simpl.
    apply String.eqb_neq in Hkne, Hst, Hpne. rewrite Hkne. simpl.
    rewrite Hsel, Hst, Hpi, Hpne.
    destruct (rc pi (Some a)) as [msg|refund]; [done|].
    pose proof (partial_refund_not_full a order Ha0 Ha) as Hfull.
    unfold full_refund in Hfull. simpl in Hfull. simpl. rewrite Hfull.
    apply select_order_Some in Hsel as [-> _]. done. }
  unfold granted. cbn [omap list_omap]. fold (granted rc pi amounts).
  destruct (rc pi (Some a)) as [msg|refund]; simpl.
  - by apply IH.
  - rewrite (IH Hall), <- app_assoc. done.
Qed.

(** X15: partial refunds are not added up.  Any run of refund requests for
    one order, each with an amount that is not zero and is below the total of
    the order, leaves the orders and every other table but refunds as they
    were: the order keeps its status, however many of the requests succeed
    and whatever their amounts sum to.  The refunds table only grows, by rows
    of this order, one per request at most; when the store has a processor
    key and the order is paid through the processor, it grows by exactly one
    row for each request the processor granted, with the id, amount and
    status of that refund. *)
Theorem partial_refunds_keep_status rc s store oid order amounts db refunds :
  select_order oid s db = Some order →
  Forall (λ a, a ≠ 0 ∧ a < total_cents order) amounts →
  (refund_many rc s store oid amounts (db, refunds)).1 = db ∧
  select_order oid s (refund_many rc s store oid amounts (db, refunds)).1 = Some order ∧
  (∃ rows, (refund_many rc s store oid amounts (db, refunds)).2 = refunds ++ rows ∧
           (length rows ≤ length amounts)%nat ∧
           Forall (λ row, rf_order_id row = oid) rows) ∧
  (∀ key pi,
     stripe_secret_key store = Some key → key ≠ "" →
     o_status order ≠ "refunded" → stripe_payment_intent_id order = Some pi → pi ≠ "" →
     (refund_many rc s store oid amounts (db, refunds)).2
       = refunds ++ (refund_row oid <$> granted rc pi amounts)).
Proof.
  intros Hsel Hall.
  destruct (refund_many_rows rc s store oid order amounts db refunds Hsel Hall)
    as (rows & Hrun & Hlen & Hrows).
  split; [by rewrite Hrun|]. split; [by rewrite Hrun|].
  split; [exists rows; by rewrite Hrun|].
  intros key pi Hkey Hkne Hst Hpi Hpne.
  by rewrite (refund_many_granted rc s store oid order key pi amounts db refunds).
Qed.

Lemma refund_in_full_once_witness :
  ∃ st',
    (refund_order Sample.refunds_ok "s1" Sample.s1 "o1" None (Sample.db7, [])).1 = st' ∧
    refund_order Sample.refunds_ok "s1" Sample.s1 "o1" (Some 100) st'
      = (st', inl (conflict "Order already refunded")).
Proof.
  assert (∃ order, select_order "o1" "s1" Sample.db7 = Some order ∧
                   full_refund None order = true) as (order & Hsel & Hfull).
  { eexists. split; [vm_compute; reflexivity | reflexivity]. }
  assert (∃ key, stripe_secret_key Sample.s1 = Some key ∧ key ≠ "") as (key & Hkey & Hne).
  { eexists. split; [reflexivity | discriminate]. }
  eexists. split; [reflexivity|].
  apply (refund_in_full_once Sample.refunds_ok "s1" Sample.s1 "o1" None Sample.db7 []
           _ {| rr_stripe_refund_id := "re_1"; rr_status := Some "succeeded" |} order
           (surjective_pairing _) Hsel Hfull Sample.refunds_ok Sample.s1 (Some 100) key
           Hkey Hne).
Defined.

Lemma partial_refunds_keep_status_witness :
  (refund_many Sample.refunds_ok "s1" Sample.s1 "o1" [3000; 3000] (Sample.db7, [])).1
    = Sample.db7 ∧
  rf_amount_cents <$>
    (refund_many Sample.refunds_ok "s1" Sample.s1 "o1" [3000; 3000] (Sample.db7, [])).2
    = [3000; 3000].
Proof.
  assert (∃ order, select_order "o1" "s1" Sample.db7 = Some order ∧
                   Forall (λ a, a ≠ 0 ∧ a < total_cents order) [3000; 3000])
    as (order & Hsel & Hall).
  { eexists. split; [vm_compute; reflexivity|].
    repeat constructor; (discriminate || reflexivity). }
  split; [|vm_compute; reflexivity].
  destruct (partial_refunds_keep_status Sample.refunds_ok "s1" Sample.s1 "o1" order
              [3000; 3000] Sample.db7 [] Hsel Hall) as [H _].
  exact H.
Defined.

(** ** Reading an order back *)

Lemma filter_nil_fresh {A} (P : A → Prop) `{!∀ x, Decision (P x)} (l : list A) :
  (∀ x, x ∈ l → ¬ P x) → filter P l = [].
Proof.
  intros HP. induction l as [|x l IH]; [done|].
  rewrite filter_cons, decide_False by (apply HP; left).
  apply IH. intros y Hy. apply HP. by right.
Qed.

Lemma filter_all {A} (P : A → Prop) `{!∀ x, Decision (P x)} (l : list A) :
  (∀ x, x ∈ l → P x) → filter P l = l.
Proof.
  intros HP. induction l as [|x l IH]; [done|].
  rewrite filter_cons, decide_True by (apply HP; left).
  f_equal. apply IH. intros y Hy. apply HP. by right.
Qed.

Lemma select_order_fresh oid db db' o :
  (∀ o', o' ∈ orders db → o_id o' ≠ oid) →
  orders db' = orders db ++ [o] → o_id o = oid →
  ∀ s', select_order oid s' db' = if decide (o_store_id o = s') then Some o else None.
Proof.
  intros Hfresh Ho Hid s'. unfold select_order. rewrite Ho, filter_app.
  rewrite filter_nil_fresh by (intros x Hx [Hx' _]; by eapply Hfresh).
  rewrite filter_cons, filter_nil. simpl.
  destruct (decide (o_store_id o = s')) as [Hs|Hs].
  - by rewrite decide_True.
  - rewrite decide_False; [done|]. by intros [_ ?].
Qed.

(** X16: a test order reads back as it was answered.  When the id drawn for
    the order is fresh (no order and no order item carries it), GET
    /v1/orders/:id by the same store returns formatOrder of the order row and
    the lines the test-order route returned; the total of the order is its
    subtotal less its discount, it has no payment intent, and its number is
    the next number of the store.  The same id asked for by any other store
    is Not Found. *)
Theorem test_order_reads_back now s oid body db db' o items :
  test_order now s oid body db = (db', inr (o, items)) →
  (∀ o', o' ∈ orders db → o_id o' ≠ oid) →
  (∀ i, i ∈ order_items db → oi_order_id i ≠ oid) →
  get_order s oid db' = inr (formatOrder o items) ∧
  test_order_response oid items db' = Some (formatOrder o items) ∧
  (∀ s', s' ≠ s → get_order s' oid db' = inl (notFound "Order not found")) ∧
  total_cents o = subtotal_cents o - o_discount_amount_cents o ∧
  stripe_payment_intent_id o = None ∧
  number o = next_order_number s db.
Proof.
  intros Hr Hfresh Hfresh_items.
  destruct (test_order_outcome now s oid body db)
    as [[e He]|(o' & items' & H2 & Ho & Hoi & Hn & Hid & Hs & _ & Hpi & Htot)];
    [by rewrite Hr in He|].
  rewrite Hr in H2, Ho, Hoi. simpl in *. injection H2 as <- <-.
  pose proof (select_order_fresh oid db db' o Hfresh Ho Hid) as Hsel.
  assert (view_of_order_item <$> select_order_items oid db' = items) as Hitems.
  { unfold select_order_items. rewrite Hoi, filter_app.
    rewrite filter_nil_fresh by done. simpl.
    rewrite filter_all.
    - rewrite <- list_fmap_compose. rewrite <- (list_fmap_id items) at 2.
      apply list_fmap_ext. intros _ [? ? ? ?] _. done.
    - intros x (y & -> & _)%list_elem_of_fmap. done. }
  split. { unfold get_order. rewrite Hsel, decide_True by done. by rewrite Hid, Hitems. }
  split.
  { unfold test_order_response. rewrite Ho, filter_app.
    rewrite filter_nil_fresh by (intros x Hx; by apply Hfresh).
    rewrite filter_cons, decide_True by done. done. }
  split. { intros s' Hne. unfold get_order. rewrite Hsel, decide_False by congruence. done. }
  done.
Qed.

Lemma test_order_reads_back_witness :
  ∃ o items,
    test_order 6 "s1" "t2" Sample.one_A Sample.dbT1 = (Sample.dbT2, inr (o, items)) ∧
    get_order "s1" "t2" Sample.dbT2 = inr (formatOrder o items) ∧
    number o = "ORD-0002".
Proof.
  assert (∃ o items,
    test_order 6 "s1" "t2" Sample.one_A Sample.dbT1 = (Sample.dbT2, inr (o, items)))
    as (o & items & Hr).
  { eexists _, _. rewrite (surjective_pairing (test_order _ _ _ _ _)). f_equal;
    vm_compute; reflexivity. }
  exists o, items. split; [exact Hr|].
  destruct (test_order_reads_back _ _ _ _ _ _ _ _ Hr) as (Hg & _ & _ & _ & _ & Hn).
  - apply Forall_forall. vm_compute. repeat constructor; discriminate.
  - apply Forall_forall. vm_compute. repeat constructor; discriminate.
  - split; [exact Hg|]. rewrite Hn. vm_compute. reflexivity.
Defined.

(** X17: a test order cannot be refunded.  With a fresh order id, every
    refund request for the order the test-order route created is refused as
    an invalid request, before the processor is asked, and writes nothing. *)
Theorem test_order_not_refundable now s oid body db db' o items :
  test_order now s oid body db = (db', inr (o, items)) →
  (∀ o', o' ∈ orders db → o_id o' ≠ oid) →
  ∀ rc store amt key refunds, stripe_secret_key store = Some key → key ≠ "" →
    refund_order rc s store oid amt (db', refunds)
      = ((db', refunds),
         inl (invalidRequest "Cannot refund test orders (no Stripe payment)")).
Proof.
  intros Hr Hfresh rc store amt key refunds Hkey Hne.
  destruct (test_order_outcome now s oid body db)
    as [[e He]|(o' & items' & H2 & Ho & _ & _ & Hid & Hs & Hst & Hpi & _)];
    [by rewrite Hr in He|].
  rewrite Hr in H2, Ho. simpl in *. injection H2 as <- <-.
  unfold refund_order. rewrite Hkey. simpl.
  apply String.eqb_neq in Hne. rewrite Hne. simpl.
  rewrite (select_order_fresh oid db db' o Hfresh Ho Hid), decide_True by done.
  by rewrite Hst, Hpi.
Qed.

Lemma test_order_not_refundable_witness :
  refund_order Sample.refunds_ok "s1" Sample.s1 "t1" None (Sample.dbT1, [])
    = ((Sample.dbT1, []),
       inl (invalidRequest "Cannot refund test orders (no Stripe payment)")).
Proof.
  assert (∃ o items,
    test_order 5 "s1" "t1" Sample.one_A Sample.db0 = (Sample.dbT1, inr (o, items)))
    as (o & items & Hr).
  { eexists _, _. rewrite (surjective_pairing (test_order _ _ _ _ _)). f_equal;
    vm_compute; reflexivity. }
  assert (∃ key, stripe_secret_key Sample.s1 = Some key ∧ key ≠ "") as (key & Hkey & Hne).
  { eexists. split; [reflexivity | discriminate]. }
  apply (test_order_not_refundable _ _ _ _ _ _ _ _ Hr) with (key := key);
    [|exact Hkey|exact Hne].
  apply Forall_forall. vm_compute. constructor.
Defined.

(** ** Editing a cart *)

Lemma validate_items_ok s db items : ∀ validated,
  validate_items s db items = inr validated →
  ordered <$> validated = requested <$> items ∧ Forall (valid_line s db) validated.
Proof.
  induction items as [|it items IH]; intros validated; simpl.
  - by intros [= <-].
  - destruct (String.eqb (req_sku it) ""); [done|]. simpl.
    destruct (Z.ltb_spec (req_qty it) 1); [done|].
    destruct (variants db !! (s, req_sku it)) as [variant|] eqn:Hv; [|done].
    destruct (v_active variant) eqn:Hact; [|done]. simpl.
    destruct (Z.ltb_spec (available s (req_sku it) (inventory db)) (req_qty it)); [done|].
    destruct (validate_items s db items) as [e|rest]; [done|].
    intros [= <-]. destruct (IH rest eq_refl) as [Ho Hall].
    split; [by rewrite !fmap_cons, Ho|].
    constructor; [|done]. exists variant. simpl. repeat split; (done || lia).
Qed.

Lemma select_cart_items_replaced cartId (old : list CartItem) validated :
  filter (λ it, cart_id it = cartId)
    (filter (λ it, cart_id it ≠ cartId) old ++ (item_of cartId <$> validated))
  = item_of cartId <$> validated.
Proof.
  rewrite filter_app.
  rewrite filter_nil_fresh by (intros x [Hx _]%list_elem_of_filter; done).
  simpl. apply filter_all. by intros x (v & -> & _)%list_elem_of_fmap.
Qed.

Lemma select_cart_items_other cartId c (old : list CartItem) validated :
  c ≠ cartId →
  filter (λ it, cart_id it = c)
    (filter (λ it, cart_id it ≠ cartId) old ++ (item_of cartId <$> validated))
  = filter (λ it, cart_id it = c) old.
Proof.
  intros Hne. rewrite filter_app.
  rewrite (filter_nil_fresh _ (item_of cartId <$> validated))
    by (intros x (v & -> & _)%list_elem_of_fmap; simpl; congruence).
  rewrite app_nil_r. induction old as [|x old IH]; [done|].
  rewrite !filter_cons. destruct (decide (cart_id x = c)) as [Hc|Hc].
  - rewrite decide_True by congruence. rewrite filter_cons, decide_True by done.
    by rewrite IH.
  - destruct (decide (cart_id x ≠ cartId)); [|done].
    rewrite filter_cons, decide_False by done. done.
Qed.

Lemma view_of_item_of cartId (l : list ItemView) : view_of <$> (item_of cartId <$> l) = l.
Proof.
  rewrite <- list_fmap_compose. rewrite <- (list_fmap_id l) at 2.
  apply list_fmap_ext. by intros _ [? ? ? ?] _.
Qed.

(** What a call of the items route that succeeded did. *)
Lemma replace_items_success now s cartId items db db' resp :
  replace_items now s cartId items db = (db', inr resp) →
  ∃ its cart validated,
    items = Some its ∧ select_cart cartId s db = Some cart ∧ status cart = open ∧
    validate_items s db its = inr validated ∧ r_items resp = validated ∧
    r_totals resp = totals (subtotal (item_of cartId <$> validated))
                      (t_discount_cents (r_totals resp)) ∧
    cart_items db' = filter (λ it, cart_id it ≠ cartId) (cart_items db)
                       ++ (item_of cartId <$> validated) ∧
    cart_tables_only db db'.
Proof.
  unfold replace_items.
  destruct items as [[|it items]|]; [done| |done].
  destruct (select_cart cartId s db) as [cart|] eqn:Hsel; [|done].
  destruct (decide (status cart = open)) as [Hopen|Hn];
    [rewrite (bool_decide_eq_true_2 _ Hopen) | by rewrite (bool_decide_eq_false_2 _ Hn)].
  cbn [negb].
  destruct (validate_items s db (it :: items)) as [e|validated] eqn:Hv; [done|].
  cbv zeta.
  match goal with |- context [recalc_discount ?a ?b ?c0 ?d ?e0 ?f] =>
    pose proof (recalc_discount_frame a b c0 d e0 f) as Hfr;
    destruct (recalc_discount a b c0 d e0 f) as [[db3 info] amount] end.
  intros [= <- <-]. exists (it :: items), cart, validated. simpl in Hfr |- *.
  unfold select_cart_items. simpl. rewrite select_cart_items_replaced, view_of_item_of.
  repeat (split; [done|]).
  destruct Hfr as [->|[f ->]]; simpl; by repeat split.
Qed.

(** X18: the items route replaces the lines of the cart.  After a call that
    succeeded the cart holds exactly the requested lines, sku by sku and
    quantity by quantity, whatever it held before; each line carries the
    title and the price of an active variant of the store and a quantity that
    is at least one and was available when the call was made; the lines of
    every other cart are as they were; the response lists the lines of the
    cart and their subtotal. *)
Theorem replace_items_replaces now s cartId items db db' resp :
  replace_items now s cartId (Some items) db = (db', inr resp) →
  tracked <$> select_cart_items cartId db' = requested <$> items ∧
  Forall (valid_line s db) (r_items resp) ∧
  view_of <$> select_cart_items cartId db' = r_items resp ∧
  t_subtotal_cents (r_totals resp) = subtotal (select_cart_items cartId db') ∧
  (∀ c, c ≠ cartId → select_cart_items c db' = select_cart_items c db).
Proof.
  intros (its & cart & validated & [= <-] & _ & _ & Hv & Hitems & Htot & Hci & _)
    %replace_items_success.
  destruct (validate_items_ok _ _ _ _ Hv) as [Hreq Hvalid].
  unfold select_cart_items. rewrite Hci, select_cart_items_replaced, view_of_item_of.
  split.
  { rewrite <- Hreq, <- list_fmap_compose. apply list_fmap_ext. by intros _ [? ? ? ?] _. }
  split; [by rewrite Hitems|]. split; [done|].
  split; [by rewrite Htot|].
  intros c Hne. by apply select_cart_items_other.
Qed.

Lemma replace_items_replaces_witness :
  tracked <$> select_cart_items "c1"
    (replace_items 30 "s1" "c1" (Some [Sample.item "B" 2]) Sample.db4).1 = [("B", 2)].
Proof.
  destruct (replace_items_replaces 30 "s1" "c1" [Sample.item "B" 2] Sample.db4
              (replace_items 30 "s1" "c1" (Some [Sample.item "B" 2]) Sample.db4).1
              {| r_id := "c1"; r_status := open; r_currency := "USD";
                 r_customer_email := "Ann@Example.com";
                 r_items := [{| iv_sku := "B"; iv_title := "Beta"; iv_qty := 2;
                                iv_unit_price_cents := 250 |}];
                 r_discount := None; r_totals := totals 500 0;
                 r_expires_at := 1800000 |}) as [H _].
  - rewrite (surjective_pairing (replace_items _ _ _ _ _)). f_equal;
    vm_compute; reflexivity.
  - exact H.
Defined.

Lemma cart_tables_only_refl db : cart_tables_only db db.
Proof. by repeat split. Qed.

Lemma cart_tables_only_set_carts f db : cart_tables_only db (set_carts f db).
Proof. by repeat split. Qed.

Lemma apply_discount_frame now s cartId code_in db :
  ((apply_discount now s cartId code_in db).1 = db ∨
   ∃ f, (apply_discount now s cartId code_in db).1 = set_carts (alter f cartId) db) ∧
  (∀ e, (apply_discount now s cartId code_in db).2 = inl e →
     (apply_discount now s cartId code_in db).1 = db).
Proof.
  unfold apply_discount.
  destruct (negb (truthy code_in)); [by split; [left|]|].
  destruct (select_cart cartId s db) as [cart|]; [|by split; [left|]].
  destruct (negb (bool_decide (status cart = open))); [by split; [left|]|].
  destruct (select_discount_by_code _ s db) as [[did d]|]; [|by split; [left|]].
  destruct (Nat.eqb _ 0); [by split; [left|]|].
  destruct (negb (validateDiscount _ _ _ _ _ _)); [by split; [left|]|].
  split; [right; eauto | done].
Qed.

Lemma remove_discount_frame s cartId db :
  ((remove_discount s cartId db).1 = db ∨
   (remove_discount s cartId db).1 = set_carts (alter clear_discount cartId) db) ∧
  (∀ e, (remove_discount s cartId db).2 = inl e → (remove_discount s cartId db).1 = db).
Proof.
  unfold remove_discount.
  destruct (select_cart cartId s db) as [cart|]; [|by split; [left|]].
  destruct (negb (bool_decide (status cart = open))); [by split; [left|]|].
  split; [by right | done].
Qed.

Lemma replace_items_failure now s cartId items db e :
  (replace_items now s cartId items db).2 = inl e →
  (replace_items now s cartId items db).1 = db.
Proof.
  unfold replace_items.
  destruct items as [[|it items]|]; [done| |done].
  destruct (select_cart cartId s db) as [cart|]; [|done].
  destruct (negb (bool_decide (status cart = open))); [done|].
  destruct (validate_items s db (it :: items)) as [e'|validated]; [done|].
  cbv zeta.
  match goal with |- context [recalc_discount ?a ?b ?c0 ?d ?e0 ?f] =>
    destruct (recalc_discount a b c0 d e0 f) as [[db3 info] amount] end.
  done.
Qed.

(** X19: editing a cart holds no stock.  Creating a cart, replacing its
    items, applying a discount and removing it write the carts and the cart
    items only: the inventory (so every reserved counter), the inventory log,
    the discounts with their usage counts, the usage rows and the orders are
    as they were; apply-discount and remove-discount do not write the cart
    items either.  A call of one of these routes that is answered with an
    error wrote nothing at all. *)
Theorem cart_edits_hold_no_stock db :
  (∀ now s id email, cart_tables_only db (create_cart now s id email db).1) ∧
  (∀ now s cartId items, cart_tables_only db (replace_items now s cartId items db).1) ∧
  (∀ now s cartId code_in,
     cart_tables_only db (apply_discount now s cartId code_in db).1 ∧
     cart_items (apply_discount now s cartId code_in db).1 = cart_items db) ∧
  (∀ s cartId,
     cart_tables_only db (remove_discount s cartId db).1 ∧
     cart_items (remove_discount s cartId db).1 = cart_items db) ∧
  (∀ now s id email e,
     (create_cart now s id email db).2 = inl e → (create_cart now s id email db).1 = db) ∧
  (∀ now s cartId items e,
     (replace_items now s cartId items db).2 = inl e →
     (replace_items now s cartId items db).1 = db) ∧
  (∀ now s cartId code_in e,
     (apply_discount now s cartId code_in db).2 = inl e →
     (apply_discount now s cartId code_in db).1 = db) ∧
  (∀ s cartId e,
     (remove_discount s cartId db).2 = inl e → (remove_discount s cartId db).1 = db).
Proof.
  split.
  { intros. unfold create_cart. destruct email as [email|]; [|apply cart_tables_only_refl].
    destruct (negb (String.eqb email "") && includes "@"%char email);
      [apply cart_tables_only_set_carts | apply cart_tables_only_refl]. }
  split.
  { intros.
    destruct (replace_items now s cartId items db) as [db' [e|resp]] eqn:Hr.
    - pose proof (replace_items_failure now s cartId items db e) as Hf.
      rewrite Hr in Hf. simpl in *. rewrite (Hf eq_refl). apply cart_tables_only_refl.
    - by destruct (replace_items_success _ _ _ _ _ _ _ Hr)
        as (? & ? & ? & _ & _ & _ & _ & _ & _ & _ & H). }
  split.
  { intros. destruct (apply_discount_frame now s cartId code_in db) as [[->|[f ->]] _];
      (split; [apply cart_tables_only_refl || apply cart_tables_only_set_carts | done]). }
  split.
  { intros. destruct (remove_discount_frame s cartId db) as [[->| ->] _];
      (split; [apply cart_tables_only_refl || apply cart_tables_only_set_carts | done]). }
  split.
  { intros now s id email e. unfold create_cart. destruct email as [email|]; [|done].
    by destruct (negb (String.eqb email "") && includes "@"%char email). }
  split; [intros; by eapply replace_items_failure|].
  split; [intros; by eapply apply_discount_frame|].
  intros; by eapply remove_discount_frame.
Qed.

Lemma select_cart_items_set_carts f c db :
  select_cart_items c (set_carts f db) = select_cart_items c db.
Proof. done. Qed.

(** X20: removing the discount of an open cart.  The cart row keeps
    everything but the discount: code and id are cleared and the stored
    amount is zero; the answer carries no discount and a total equal to the
    subtotal of the items.  Removing again changes nothing and answers the
    same, and a checkout that follows finds no discount to re-validate: it
    charges no discount and leaves the row alone. *)
Theorem remove_discount_clears s cartId db cart :
  select_cart cartId s db = Some cart → status cart = open →
  let r := remove_discount s cartId db in
  r.2 = inr {| dr_discount := None;
               dr_totals := totals (subtotal (select_cart_items cartId db)) 0 |} ∧
  select_cart cartId s r.1 = Some (clear_discount cart) ∧
  remove_discount s cartId r.1 = r ∧
  (∀ now sub, checkout_discount now s cartId (clear_discount cart) sub r.1 = (r.1, 0, None)).
Proof.
  intros Hsel Hopen r. subst r. unfold remove_discount at 1 2 4.
  rewrite Hsel, (bool_decide_eq_true_2 _ Hopen). cbn [negb fst snd].
  rewrite select_cart_items_set_carts.
  pose proof Hsel as [Hc Hs]%select_cart_Some.
  assert (select_cart cartId s (set_carts (alter clear_discount cartId) db)
          = Some (clear_discount cart)) as Hsel'.
  { unfold select_cart. simpl. rewrite lookup_alter_eq, Hc. simpl.
    by rewrite decide_True. }
  split; [done|]. split; [done|]. split; [|by intros].
  unfold remove_discount. rewrite Hsel, Hsel', (bool_decide_eq_true_2 _ Hopen).
  rewrite bool_decide_eq_true_2 by done. cbn [negb].
  rewrite !select_cart_items_set_carts. f_equal.
  apply Db_ext; simpl; try done.
  apply map_eq. intros k. rewrite !lookup_alter.
  case_decide; [|done]. rewrite decide_True by done. by destruct (carts db !! cartId).
Qed.


Lemma remove_discount_clears_witness :
  ∃ cart, select_cart "k1" "s1" Sample.dk5 = Some cart ∧ status cart = open ∧
          discount_code cart = Some "SAVE5" ∧
          select_cart "k1" "s1" (remove_discount "s1" "k1" Sample.dk5).1
            = Some (clear_discount cart).
Proof.
  assert (∃ cart, select_cart "k1" "s1" Sample.dk5 = Some cart ∧ status cart = open ∧
                  discount_code cart = Some "SAVE5") as (cart & Hsel & Hopen & Hcode).
  { eexists. split; [vm_compute; reflexivity|]. split; reflexivity. }
  exists cart. split; [exact Hsel|]. split; [exact Hopen|]. split; [exact Hcode|].
  destruct (remove_discount_clears "s1" "k1" Sample.dk5 cart Hsel Hopen) as (_ & H & _).
  exact H.
Defined.

(** ** A new cart *)

(** X21: a cart that was just created, under an id no cart and no cart item
    carries.  It is an open cart of the creating store only, with the email
    as given, no discount, and an expiry thirty minutes after its creation;
    the other carts are as they were.  Until items are added a checkout of it
    is refused with "Cart is empty" and writes nothing, and a sweep at any
    instant up to its expiry leaves its row alone. *)
Theorem new_cart_is_open_and_empty now s id email db db' resp :
  create_cart now s id (Some email) db = (db', inr resp) →
  carts db !! id = None → (∀ it, it ∈ cart_items db → cart_id it ≠ id) →
  (∃ cart, select_cart id s db' = Some cart ∧ status cart = open ∧
           customer_email cart = email ∧ discount_id cart = None ∧
           expires_at cart = now + 30 * 60 * 1000 ∧
           ∀ now', now' ≤ now + 30 * 60 * 1000 →
             carts (handleCron now' db') !! id = Some cart) ∧
  (∀ s', s' ≠ s → select_cart id s' db' = None) ∧
  (∀ c, c ≠ id → carts db' !! c = carts db !! c) ∧
  select_cart_items id db' = [] ∧
  (∀ stripe now' store body successUrl cancelUrl key,
     success_url body = Some successUrl → successUrl ≠ "" →
     cancel_url body = Some cancelUrl → cancelUrl ≠ "" →
     stripe_secret_key store = Some key → key ≠ "" →
     checkout stripe now' s store id body db' = (db', inl (invalidRequest "Cart is empty"))).
Proof.
  unfold create_cart.
  destruct (negb (String.eqb email "") && includes "@"%char email); [|done].
  intros [= <- <-] Hfresh Hitems.
  assert (select_cart_items id (set_carts (insert id
            {| store_id := s; customer_email := email; status := open;
               expires_at := now + THIRTY_MINUTES; discount_code := None;
               discount_id := None; discount_amount_cents := None;
               stripe_checkout_session_id := None; currency := "USD" |}) db) = []) as Hempty.
  { unfold select_cart_items. simpl. by apply filter_nil_fresh. }
  split.
  { eexists. split.
    { unfold select_cart. simpl. rewrite lookup_insert_eq. simpl.
      by rewrite decide_True. }
    repeat (split; [done|]).
    intros now' Hle. rewrite handleCron_carts. simpl. rewrite lookup_insert_eq. simpl.
    rewrite decide_False; [done|]. intros [_ Hlt]. simpl in Hlt.
    unfold THIRTY_MINUTES in Hlt. lia. }
  split.
  { intros s' Hne. unfold select_cart. simpl. rewrite lookup_insert_eq. simpl.
    by rewrite decide_False. }
  split. { intros c Hne. simpl. by rewrite lookup_insert_ne. }
  split; [done|].
  intros stripe now' store body su cu key Hs Hsu Hc Hcu Hkey Hk. unfold checkout.
  apply String.eqb_neq in Hsu, Hcu, Hk. rewrite Hs, Hc, Hsu, Hcu, Hkey. simpl.
  rewrite Hk. simpl.
  unfold select_cart at 1. simpl. rewrite lookup_insert_eq. simpl.
  rewrite decide_True by done. simpl. by rewrite Hempty.
Qed.

Lemma new_cart_is_open_and_empty_witness :
  checkout Sample.stripe_ok 50 "s1" Sample.s1 "c1" Sample.urls Sample.db1
    = (Sample.db1, inl (invalidRequest "Cart is empty")).
Proof.
  assert (∀ it, it ∈ cart_items Sample.db0 → cart_id it ≠ "c1") as Hitems.
  { apply Forall_forall. vm_compute. constructor. }
  pose proof (new_cart_is_open_and_empty 0 "s1" "c1" "Ann@Example.com" Sample.db0 Sample.db1
              {| r_id := "c1"; r_status := open; r_currency := "USD";
                 r_customer_email := "Ann@Example.com"; r_items := []; r_discount := None;
                 r_totals := totals 0 0; r_expires_at := 0 + THIRTY_MINUTES |}
              eq_refl eq_refl Hitems) as H.
  apply proj2, proj2, proj2, proj2 in H.
  apply (H Sample.stripe_ok 50 Sample.s1 Sample.urls "https://shop/ok"
           "https://shop/cancel" "sk_test"); (reflexivity || discriminate).
Defined.

(** ** What checkout writes *)

(** Checkout writes the inventory and the carts only. *)
Lemma checkout_frame stripe now s store cartId body db :
  let db' := (checkout stripe now s store cartId body db).1 in
  stores db' = stores db ∧ variants db' = variants db ∧
  inventory_logs db' = inventory_logs db ∧ cart_items db' = cart_items db ∧
  discounts db' = discounts db ∧ discount_usage db' = discount_usage db ∧
  orders db' = orders db ∧ order_items db' = order_items db ∧
  events db' = events db ∧ outbox db' = outbox db.
Proof.
  unfold checkout.
  destruct (success_url body) as [successUrl|]; [|done].
  destruct (cancel_url body) as [cancelUrl|]; [|by destruct (String.eqb successUrl "")].
  destruct (String.eqb successUrl ""); [done|].
  destruct (String.eqb cancelUrl ""); [done|].
  destruct (negb (truthy (stripe_secret_key store))); [done|].
  destruct (select_cart cartId s db) as [cart|]; [|done].
  destruct (negb (bool_decide (status cart = open))); [done|].
  destruct (Nat.eqb (length (select_cart_items cartId db)) 0); [done|].
  destruct (checkout_discount now s cartId cart (subtotal (select_cart_items cartId db)) db)
    as [[db1 amount] discount] eqn:Hdisc.
  assert (stores db1 = stores db ∧ variants db1 = variants db ∧
    inventory_logs db1 = inventory_logs db ∧ cart_items db1 = cart_items db ∧
    discounts db1 = discounts db ∧ discount_usage db1 = discount_usage db ∧
    orders db1 = orders db ∧ order_items db1 = order_items db ∧
    events db1 = events db ∧ outbox db1 = outbox db) as H1.
  { by destruct (checkout_discount_frame _ _ _ _ _ _ _ _ _ Hdisc) as [->| ->]. }
  destruct (reserve_items now s (select_cart_items cartId db) [] (inventory db1))
    as [inv2 [failing|reservedItems]]; [done|].
  destruct discount as [[did d]|];
    [destruct (0 <? amount);
       [destruct (coupons_create stripe amount (or_default (code d) "Discount"))|]|];
    try done;
    (match goal with |- context [sessions_create stripe ?p] =>
       destruct (sessions_create stripe p) as [session|] end; done).
Qed.

Lemma count_usage_within now did t k d' :
  (∀ d, t !! k = Some d → within_limit d) →
  (count_usage now did t).1 !! k = Some d' → within_limit d'.
Proof.
  intros Hok. unfold count_usage. rewrite update_where_lookup.
  destruct (decide (did = k)) as [->|]; [|apply Hok].
  destruct (t !! k) as [d|]; [|done]. simpl.
  destruct (below (usage_limit d) (usage_count d)) eqn:Hb.
  - intros [= <-] l Hl. simpl in *. rewrite Hl in Hb. simpl in Hb.
    apply Z.ltb_lt in Hb. lia.
  - intros [= <-]. by apply Hok.
Qed.

Lemma stripe_webhook_discounts stripe parse now oid req db :
  discounts (stripe_webhook stripe parse now oid req db).1 = discounts db ∨
  ∃ did, discounts (stripe_webhook stripe parse now oid req db).1
         = (count_usage now did (discounts db)).1.
Proof.
  destruct (verified stripe parse req db) as [[storeId event]|] eqn:Hv.
  - rewrite (stripe_webhook_verified _ _ _ _ _ _ _ _ Hv).
    destruct (event_seen (ev_id event) db); [by left|]. simpl.
    destruct (String.eqb (ev_type event) "checkout.session.completed"); [|by left].
    unfold materialize_order.
    destruct (so_cart_id (ev_object event)) as [cartId|]; [|by left].
    destruct (truthy (Some cartId)); [|by left].
    destruct (carts db !! cartId) as [cart|]; [|by left].
    destruct (webhook_discount now storeId (ev_object event) cart db)
      as [[[[db1 dc] di] amt] track] eqn:Hd.
    rewrite sell_items_spec.
    destruct (webhook_discount_frame _ _ _ _ _ _ _ _ _ _ Hd) as [->|[did ->]];
      [left|right; exists did]; by destruct (track && truthy di).
  - destruct (stripe_webhook_rejected stripe parse now oid req db Hv) as [e ->]. by left.
Qed.

Lemma test_order_discounts now s oid body db :
  discounts (test_order now s oid body db).1 = discounts db ∨
  ∃ did, discounts (test_order now s oid body db).1 = (count_usage now did (discounts db)).1.
Proof.
  unfold test_order.
  destruct (tb_customer_email body) as [email|]; [|by left].
  destruct (String.eqb email ""); [by left|].
  destruct (tb_items body) as [[|it items]|]; [by left| |by left].
  destruct (validate_test_items s db (it :: items) 0) as [e|[sub orderItems]]; [by left|].
  match goal with |- context [match ?disc with inl _ => _ | inr _ => _ end] =>
    destruct disc as [e|discount] end; [by left|].
  rewrite deduct_items_spec.
  destruct discount as [[[did dd] a]|]; [destruct (0 <? a)|]; [right; by exists did|..];
    by left.
Qed.

Lemma limits_ok_same db db' : limits_ok db → discounts db' = discounts db → limits_ok db'.
Proof. intros Hok Hd did d. rewrite Hd. apply Hok. Qed.

Lemma limits_ok_count_usage now did db db' :
  limits_ok db → discounts db' = (count_usage now did (discounts db)).1 → limits_ok db'.
Proof.
  intros Hok Hd k d'. rewrite Hd. apply count_usage_within. intros d. apply Hok.
Qed.

(** X22: no route takes a discount past its usage limit.  If every discount
    with a usage limit has a usage count within it, the same holds after
    every route: the webhook and the test orders count a usage with an update
    that matches only below the limit, and the cart routes, checkout, the
    sweep and the refunds do not write the discounts. *)
Theorem usage_limit_respected db :
  limits_ok db →
  (∀ stripe parse now oid req, limits_ok (stripe_webhook stripe parse now oid req db).1) ∧
  (∀ now s oid body, limits_ok (test_order now s oid body db).1) ∧
  (∀ stripe now s store cartId body,
     limits_ok (checkout stripe now s store cartId body db).1) ∧
  (∀ now s id email, limits_ok (create_cart now s id email db).1) ∧
  (∀ now s cartId items, limits_ok (replace_items now s cartId items db).1) ∧
  (∀ now s cartId code_in, limits_ok (apply_discount now s cartId code_in db).1) ∧
  (∀ s cartId, limits_ok (remove_discount s cartId db).1) ∧
  (∀ now, limits_ok (handleCron now db)) ∧
  (∀ rc s store oid amt refunds,
     limits_ok (refund_order rc s store oid amt (db, refunds)).1.1).
Proof.
  intros Hok.
  split.
  { intros. destruct (stripe_webhook_discounts stripe parse now oid req db) as [H|[did H]];
      [by eapply limits_ok_same | by eapply limits_ok_count_usage]. }
  split.
  { intros now s oid tbody. destruct (test_order_discounts now s oid tbody db) as [H|[did H]];
      [by eapply limits_ok_same | by eapply limits_ok_count_usage]. }
  split.
  { intros. eapply limits_ok_same; [done|]. apply checkout_frame. }
  split.
  { intros. eapply limits_ok_same; [done|]. unfold create_cart.
    destruct email as [email|]; [|done].
    by destruct (negb (String.eqb email "") && includes "@"%char email). }
  split.
  { intros. eapply limits_ok_same; [done|].
    destruct (replace_items now s cartId items db) as [db' [e|resp]] eqn:Hr.
    - pose proof (replace_items_failure now s cartId items db e) as Hf.
      rewrite Hr in Hf. simpl in *. by rewrite (Hf eq_refl).
    - destruct (replace_items_success _ _ _ _ _ _ _ Hr)
        as (? & ? & ? & _ & _ & _ & _ & _ & _ & _ & H). apply H. }
  split.
  { intros. eapply limits_ok_same; [done|].
    by destruct (apply_discount_frame now s cartId code_in db) as [[->|[f ->]] _]. }
  split.
  { intros. eapply limits_ok_same; [done|].
    by destruct (remove_discount_frame s cartId db) as [[->| ->] _]. }
  split.
  { intros. eapply limits_ok_same; [done|]. by rewrite handleCron_spec. }
  intros. eapply limits_ok_same; [done|].
  destruct (refund_order rc s store oid amt (db, refunds)) as [st' [e|resp]] eqn:Hr.
  - pose proof (refund_order_failure rc s store oid amt (db, refunds) e) as Hf.
    rewrite Hr in Hf. simpl in *. by rewrite (Hf eq_refl).
  - destruct (refund_order_success _ _ _ _ _ _ _ _ _ Hr)
      as (order & pi & refund & _ & _ & _ & _ & _ & -> & _).
    simpl. by destruct (full_refund amt order).
Qed.

Lemma usage_limit_respected_witness :
  limits_ok Sample.dk0 ∧
  limits_ok (test_order 5 "s1" "t1"
               {| tb_customer_email := Some "eve@example.com";
                  tb_items := Some [Sample.item "A" 1];
                  tb_discount_code := Some "save5" |} Sample.dk0).1.
Proof.
  assert (limits_ok Sample.dk0) as H.
  { intros did d Hd l Hl. simpl in Hd.
    apply lookup_insert_Some in Hd as [[_ <-]|[_ Hd]]; [|by rewrite lookup_empty in Hd].
    injection Hl as <-. simpl. lia. }
  split; [exact H|].
  destruct (usage_limit_respected Sample.dk0 H) as (_ & Ht & _). apply Ht.
Defined.

(** ** on_hand changes by sales only *)

Lemma same_on_hand_refl inv : same_on_hand inv inv.
Proof. done. Qed.

Lemma same_on_hand_trans inv1 inv2 inv3 :
  same_on_hand inv1 inv2 → same_on_hand inv2 inv3 → same_on_hand inv1 inv3.
Proof. intros H1 H2 key. by rewrite H2, H1. Qed.

Lemma reserve_same_on_hand now s k q inv : same_on_hand inv (reserve now s k q inv).1.
Proof.
  intros key. rewrite reserve_lookup. case_decide; [|done].
  destruct (inv !! key) as [r|]; [|done]. simpl.
  by destruct (q <=? on_hand r - reserved r).
Qed.

Lemma release_same_on_hand now s k q inv : same_on_hand inv (release now s k q inv).1.
Proof.
  intros key. rewrite release_lookup. case_decide; [|done].
  by destruct (inv !! key).
Qed.

Lemma releaseReservedInventory_same_on_hand now s items : ∀ inv,
  same_on_hand inv (releaseReservedInventory now s items inv).
Proof.
  induction items as [|item items IH]; intros inv; [done|].
  rewrite releaseReservedInventory_cons.
  eapply same_on_hand_trans; [apply release_same_on_hand | apply IH].
Qed.

Lemma release_all_same_on_hand now rs : ∀ inv, same_on_hand inv (release_all now rs inv).
Proof.
  induction rs as [|r rs IH]; intros inv; [done|].
  simpl. eapply same_on_hand_trans; [apply release_same_on_hand | apply IH].
Qed.

Lemma reserve_items_same_on_hand now s items : ∀ acc inv,
  same_on_hand inv (reserve_items now s items acc inv).1.
Proof.
  induction items as [|item items IH]; intros acc inv; [done|].
  rewrite reserve_items_cons.
  destruct (Nat.eqb (reserve now s (sku item) (qty item) inv).2 0); simpl.
  - eapply same_on_hand_trans;
      [apply reserve_same_on_hand | apply releaseReservedInventory_same_on_hand].
  - eapply same_on_hand_trans; [apply reserve_same_on_hand | apply IH].
Qed.

(** X23: the reservation protocol never changes on_hand.  Whether a
    checkout succeeds, is refused, fails on an item or is rolled back after
    the processor refused, and whatever a sweep releases, every inventory
    record has after the call the on_hand it had before, and no record is
    added or removed; only the payment webhook and the test orders take stock
    from on_hand. *)
Theorem on_hand_changes_by_sales_only db :
  (∀ stripe now s store cartId body,
     same_on_hand (inventory db) (inventory (checkout stripe now s store cartId body db).1)) ∧
  (∀ now, same_on_hand (inventory db) (inventory (handleCron now db))).
Proof.
  split.
  - intros stripe now s store cartId cbody.
    destruct (checkout_inventory stripe now s store cartId cbody db)
      as (_ & [-> | [-> | (inv2 & Hloop & ->)]]).
    + done.
    + apply reserve_items_same_on_hand.
    + eapply same_on_hand_trans; [|apply releaseReservedInventory_same_on_hand].
      pose proof (reserve_items_same_on_hand now s (select_cart_items cartId db) []
                    (inventory db)) as H.
      by rewrite Hloop in H.
  - intros. rewrite handleCron_spec. simpl. apply release_all_same_on_hand.
Qed.

(** ** Discount codes and stores *)

Lemma upper_lower_ascii c : upper_ascii (lower_ascii c) = upper_ascii c.
Proof. by destruct c as [[] [] [] [] [] [] [] []]. Qed.

Lemma toUpperCase_toLowerCase s : toUpperCase (toLowerCase s) = toUpperCase s.
Proof.
  unfold toUpperCase, toLowerCase. induction s as [|c s IH]; [done|].
  simpl. by rewrite upper_lower_ascii, IH.
Qed.

Lemma truthy_toLowerCase s : truthy (Some (toLowerCase s)) = truthy (Some s).
Proof. by destruct s. Qed.

Lemma select_discount_by_code_Some c s db did d :
  select_discount_by_code c s db = Some (did, d) →
  discounts db !! did = Some d ∧ code d = c ∧ d_store_id d = s.
Proof.
  unfold select_discount_by_code. intros H. apply head_Some_elem_of in H.
  apply elem_of_map_to_list in H. by apply map_lookup_filter_Some in H as [? [? ?]].
Qed.

Lemma is_ascii_text_toLowerCase s :
  is_ascii_text s = true → is_ascii_text (toLowerCase s) = true.
Proof.
  unfold toLowerCase. induction s as [|c s IH]; [done|]. simpl.
  intros [Hc Hs]%andb_true_iff. rewrite (IH Hs), andb_true_r.
  revert Hc. by destruct c as [[] [] [] [] [] [] [] []].
Qed.

(** X24: how apply-discount finds the discount, for a code typed in ASCII
    characters (on which [toUpperCase], [toLowerCase] and [trim] are the
    functions of JavaScript).  The code is matched
    without regard to the case of its letters: a code and the same code in
    lower case, which is ASCII text as well, give the same writes and the
    same answer.  A call that
    succeeded attached a discount of the calling store whose stored code is
    the code typed, upper-cased and trimmed (never a discount of another
    store), to a cart that has items: the cart row then carries that code,
    the id of the discount and the amount the answer shows, and the total of
    the answer is the subtotal of the items less that amount. *)
Theorem apply_discount_by_code now s cartId code_in db :
  is_ascii_text code_in = true →
  is_ascii_text (toLowerCase code_in) = true ∧
  apply_discount now s cartId (Some (toLowerCase code_in)) db
    = apply_discount now s cartId (Some code_in) db ∧
  (∀ db' resp, apply_discount now s cartId (Some code_in) db = (db', inr resp) →
     ∃ cart did d amount,
       select_cart cartId s db = Some cart ∧ status cart = open ∧
       discounts db !! did = Some d ∧ d_store_id d = s ∧
       code d = trim (toUpperCase code_in) ∧
       select_cart_items cartId db ≠ [] ∧
       select_cart cartId s db' = Some (with_discount (code d) did amount cart) ∧
       dr_discount resp = Some {| di_code := code d; di_type := type d;
                                  di_amount_cents := amount |} ∧
       dr_totals resp = totals (subtotal (select_cart_items cartId db)) amount).
Proof.
  intros Hascii. split; [by apply is_ascii_text_toLowerCase|].
  split.
  { unfold apply_discount. rewrite truthy_toLowerCase. simpl default.
    by rewrite toUpperCase_toLowerCase. }
  intros db' resp. unfold apply_discount.
  destruct (negb (truthy (Some code_in))); [done|].
  destruct (select_cart cartId s db) as [cart|] eqn:Hsel; [|done].
  destruct (decide (status cart = open)) as [Hopen|Hn];
    [rewrite (bool_decide_eq_true_2 _ Hopen) | by rewrite (bool_decide_eq_false_2 _ Hn)].
  cbn [negb]. simpl default.
  destruct (select_discount_by_code (trim (toUpperCase code_in)) s db) as [[did d]|] eqn:Hd;
    [|done].
  apply select_discount_by_code_Some in Hd as (Hdid & Hcode & Hstore).
  destruct (select_cart_items cartId db) as [|it items] eqn:Hitems; [done|].
  cbn [length Nat.eqb].
  destruct (validateDiscount now db did d (subtotal (it :: items)) (customer_email cart));
    [|done].
  cbn [negb]. intros [= <- <-].
  exists cart, did, d, (calculateDiscount d (subtotal (it :: items))).
  apply select_cart_Some in Hsel as Hc. destruct Hc as [Hc Hs].
  repeat (split; [done|]). split; [|done].
  unfold select_cart. simpl. rewrite lookup_alter_eq, Hc. simpl. by rewrite decide_True.
Qed.

Lemma apply_discount_by_code_witness :
  is_ascii_text "save5" = true ∧
  apply_discount 3 "s1" "k1" (Some (toLowerCase "save5")) Sample.dk4
    = apply_discount 3 "s1" "k1" (Some "save5") Sample.dk4 ∧
  ∃ cart did d amount,
    select_cart "k1" "s1" Sample.dk4 = Some cart ∧ discounts Sample.dk4 !! did = Some d ∧
    d_store_id d = "s1" ∧ code d = "SAVE5" ∧ amount = 500 ∧
    select_cart "k1" "s1" Sample.dk5 = Some (with_discount (code d) did amount cart).
Proof.
  assert (is_ascii_text "save5" = true) as Ha by reflexivity.
  destruct (apply_discount_by_code 3 "s1" "k1" "save5" Sample.dk4 Ha) as (_ & Hcase & Hok).
  split; [exact Ha|]. split; [exact Hcase|].
  destruct (Hok Sample.dk5
              {| dr_discount := Some {| di_code := "SAVE5"; di_type := fixed_amount;
                                        di_amount_cents := 500 |};
                 dr_totals := totals 1000 500 |})
    as (cart & did & d & amount & Hsel & _ & Hd & Hs & Hcode & _ & Hsel' & Hdisc & _).
  { rewrite (surjective_pairing (apply_discount _ _ _ _ _)). f_equal;
    vm_compute; reflexivity. }
  exists cart, did, d, amount.
  split; [exact Hsel|]. split; [exact Hd|]. split; [exact Hs|].
  split; [rewrite Hcode; vm_compute; reflexivity|].
  split; [by injection Hdisc as _ _ <-|]. exact Hsel'.
Defined.

(** The lower-case code of the discount example finds SAVE5. *)
Example apply_discount_lower_case :
  (apply_discount 3 "s1" "k1" (Some "save5") Sample.dk4).2
    = inr {| dr_discount := Some {| di_code := "SAVE5"; di_type := fixed_amount;
                                    di_amount_cents := 500 |};
             dr_totals := totals 1000 500 |}.
Proof. vm_compute. reflexivity. Qed.

(** ** Orders and stores *)

Lemma select_order_None oid s db :
  (∀ o, o ∈ orders db → o_id o = oid → o_store_id o ≠ s) → select_order oid s db = None.
Proof.
  intros H. unfold select_order. rewrite filter_nil_fresh; [done|].
  intros o Ho [Hid Hs]. by eapply H.
Qed.

(** X25: an order is read and refunded by its own store only.  GET
    /v1/orders/:id answers with formatOrder of a row that carries the id
    asked for and the store of the caller, and of the order items under that
    id.  When no order of the caller carries the id (it is unknown, or
    belongs to another store), the read is Not Found, and so is a refund
    request, which writes nothing and does not reach the processor. *)
Theorem orders_of_own_store s oid db :
  (∀ v, get_order s oid db = inr v →
     ∃ order, order ∈ orders db ∧ o_id order = oid ∧ o_store_id order = s ∧
              v = formatOrder order (view_of_order_item <$> select_order_items oid db)) ∧
  ((∀ o, o ∈ orders db → o_id o = oid → o_store_id o ≠ s) →
     get_order s oid db = inl (notFound "Order not found") ∧
     ∀ rc store amt refunds key, stripe_secret_key store = Some key → key ≠ "" →
       refund_order rc s store oid amt (db, refunds)
         = ((db, refunds), inl (notFound "Order not found"))).
Proof.
  split.
  - intros v. unfold get_order.
    destruct (select_order oid s db) as [order|] eqn:Hsel; [|done].
    intros [= <-]. exists order.
    pose proof (select_order_Some _ _ _ _ Hsel) as [Hid Hs].
    unfold select_order in Hsel. apply head_Some_elem_of in Hsel.
    apply list_elem_of_filter in Hsel as [_ Hin]. by rewrite Hid.
  - intros Hnone. pose proof (select_order_None oid s db Hnone) as Hsel.
    split; [unfold get_order; by rewrite Hsel|].
    intros rc store amt refunds key Hkey Hne. unfold refund_order.
    rewrite Hkey. simpl. apply String.eqb_neq in Hne. by rewrite Hne, Hsel.
Qed.

(** The order of store s1 asked for by another store. *)
Example order_of_another_store :
  get_order "s2" "o1" Sample.db7 = inl (notFound "Order not found") ∧
  ∃ v, get_order "s1" "o1" Sample.db7 = inr v ∧ ov_number v = "ORD-0001".
Proof. split; [vm_compute; reflexivity|]. eexists. split; vm_compute; reflexivity. Qed.
